(** * Star-history aggregation engine: a shallow embedding and its properties

    The development follows the [GetStarAnalytics] handler
    (route [/api/github/star-analytics/:owner/:repo]).

    Representation choices, fixed once and for all:
    - a JavaScript number holding an integer is a [Z]; a number obtained by a
      division is an exact rational [Q] (IEEE rounding of the quotient is not
      modelled: every comparison and rounding below is taken on the exact
      value);
    - an instant ([Date], [Date.now()], a parsed [starred_at]) is a [Z]:
      milliseconds since the epoch;
    - a calendar-date string [YYYY-MM-DD] is the index of that UTC day (days
      since the epoch); an hour key [YYYY-MM-DDTHH:00:00Z] is the index of that
      UTC hour;
    - the host time zone is a parameter of the star-analytics handler:
      [setDate] and [setHours] step on the local clock of the zone, while
      [toISOString] and [getTime] read the instant itself.  Properties that
      need the two to agree carry the hypothesis that the offset of the zone
      never changes;
    - [Map<string, number>] is a [gmap]; the handler only ever reads these
      maps with [get], never iterates over them;
    - a plain object that the contributions handler fills key by key and then
      lists ([Object.keys], [Object.values], [Object.entries]) is the list of
      its entries in the order the keys were first written; the listing order
      is computed from it.  Keys that name an inherited property
      ([constructor], [toString], ...) are excluded by a hypothesis;
    - the network is a record of oracles (what each request answers), and the
      requests issued are recorded in a trace.  Every request is taken to be
      answered by an HTTP response whose body has the documented shape; a
      rejected [fetch] or a malformed body, which would throw into the
      [catch] of line 318, is outside the runs considered. *)

From Stdlib Require Import ZArith QArith Qround Permutation Sorted Lia.
From stdpp Require Import gmap list strings.

Local Open Scope Z_scope.

(** ** Constants *)

Definition MS_PER_HOUR : Z := 1000 * 60 * 60.
Definition MS_PER_DAY : Z := 1000 * 60 * 60 * 24.
Definition CACHE_TTL : Z := 7 * 24 * 60 * 60 * 1000.
Definition starsPerPage : Z := 100.
Definition BATCH_SIZE : Z := 10.

(** ** JavaScript helpers *)

(** [Math.ceil (a / b)] for integers [a] and [b > 0]. *)
Definition ceilDiv (a b : Z) : Z := - ((- a) / b).

(** [Math.round x]: the nearest integer, halves going up. *)
Definition mathRound (x : Q) : Z := Qfloor (x + (1 # 2)).

(** [a > b] on exact values. *)
Definition Qgtb (a b : Q) : bool := negb (Qle_bool a b).

(** [parseFloat (x.toFixed digits)]: nearest decimal with [digits] digits,
    halves away from zero, as a reduced fraction. *)
Definition toFixed (digits : nat) (x : Q) : Q :=
  let scale := 10 ^ Z.of_nat digits in
  if Qle_bool 0 x
  then Qred (mathRound (x * inject_Z scale) # Z.to_pos scale)
  else Qred (- (mathRound ((- x) * inject_Z scale) # Z.to_pos scale)).

(** [Array.prototype.slice (start, stop)], negative indices counting from the
    end; [stop = None] is the one-argument form. *)
Definition jsSlice {A : Type} (start : Z) (stop : option Z) (l : list A) : list A :=
  let len := Z.of_nat (length l) in
  let rel x := if x <? 0 then Z.max (len + x) 0 else Z.min x len in
  let k := rel start in
  let final := match stop with None => len | Some e => rel e end in
  take (Z.to_nat (final - k)) (drop (Z.to_nat k) l).

(** [for (let i = lo; i <= hi; i++) if (keep i) out.push(i)].  The fuel is
    the number of iterations left; [pushRange] supplies enough of it. *)
Fixpoint pushLoop (fuel : nat) (i hi : Z) (keep : Z → bool) : list Z :=
  match fuel with
  | O => []
  | S fuel' =>
      if i <=? hi
      then (if keep i then [i] else []) ++ pushLoop fuel' (i + 1) hi keep
      else []
  end.

Definition pushRange (lo hi : Z) (keep : Z → bool) : list Z :=
  pushLoop (Z.to_nat (hi - lo + 1)) lo hi keep.

(** ** Sampling planner (lines 120-145) *)

Definition totalPagesOf (totalStars : Z) : Z := ceilDiv totalStars starsPerPage.

Definition planPages (fetchFull : bool) (totalPages : Z) : list Z :=
  let maxPages := if fetchFull then totalPages else Z.min 100 totalPages in
  if fetchFull || (totalPages <=? 100)
  then pushRange 1 (Z.min totalPages maxPages) (fun _ => true)
  else pushRange 1 30 (fun _ => true)
       ++ pushRange (totalPages - 69) totalPages (fun i => 30 <? i).

Definition pagesToFetch (fetchFull : bool) (totalStars : Z) : list Z :=
  planPages fetchFull (totalPagesOf totalStars).

(** ** Data model *)

(** One item of the stargazers listing.  [starred_at = None] stands for a
    missing or empty field (the falsy case of [if (sg.starred_at)]). *)
Record StargazerWithDate := {
  starred_at : option Z;
  user_login : string;
}.

Record DailyStar := {
  date : Z;        (* UTC day index *)
  daily : Z;       (* stars gained that day *)
  cumulative : Z;  (* total stars up to that day *)
}.

Record HourlyStar := {
  hour : Z;        (* UTC hour index *)
  stars : Z;
}.

Inductive Direction := up | down | stable.

Record Trends := {
  avg7d : Q;
  avg30d : Q;
  peakDay_date : Z;
  peakDay_stars : Z;
  velocity : Q;
  trend : Direction;
  growthRate : Q;
}.

Record Body := {
  owner : string;
  repo : string;
  totalStars : Z;
  createdAt : Z;
  ageInDays : Z;
  avgStarsPerDay : Q;
  dailyHistory : list DailyStar;
  hourlyActivity : list HourlyStar;
  trends : Trends;
  recentActivity : list DailyStar;
  dataCompleteness : Q;
}.

Inductive Response :=
  | Status200 (body : Body)
  | Status403 (error : string)
  | Status500 (error : string).

Record CacheEntry := {
  timestamp : Z;
  data : list StargazerWithDate;
}.

(** ** Calendar keys *)

(** [iso.split('T')[0]] of an instant: its UTC day. *)
Definition dateKey (t : Z) : Z := t / MS_PER_DAY.

(** [iso.slice(0, 13) + ':00:00Z'] of an instant: its UTC hour. *)
Definition hourKeyOf (t : Z) : Z := t / MS_PER_HOUR.

(** [new Date(dateString)]: UTC midnight of that day. *)
Definition dateOfKey (day : Z) : Z := day * MS_PER_DAY.

(** Days since the epoch of the civil date [y-m-d] (proleptic Gregorian). *)
Definition daysFromCivil (y m d : Z) : Z :=
  let y' := if m <=? 2 then y - 1 else y in
  let era := y' / 400 in
  let yoe := y' - era * 400 in
  let doy := (153 * (if 2 <? m then m - 3 else m + 9) + 2) / 5 + d - 1 in
  let doe := yoe * 365 + yoe / 4 - yoe / 100 + doy in
  era * 146097 + doe - 719468.

(** The instant [y-m-dTh:00:00Z]. *)
Definition utc (y m d h : Z) : Z :=
  daysFromCivil y m d * MS_PER_DAY + h * MS_PER_HOUR.

(** ** The host time zone *)

(** The local time of the host as [Date] uses it.  [toLocal] is LocalTime(t),
    the reading of the local clock at an instant; [fromLocal] is UTC(t), the
    instant of a local reading: the first one when the reading occurs twice,
    and the instant it would have had without the shift when the clock skips
    it.  A step forward on the local clock is a step forward in time by at
    least half its length (a shift of the clock is an hour at most in
    practice, and half an hour on Lord Howe Island). *)
Record Zone := {
  toLocal : Z → Z;
  fromLocal : Z → Z;
  day_forward : ∀ t, t + MS_PER_DAY / 2 ≤ fromLocal (toLocal t + 1 * MS_PER_DAY);
  hour_forward : ∀ t, t + MS_PER_HOUR / 2 ≤ fromLocal (toLocal t + 1 * MS_PER_HOUR);
}.

(** [d.setDate(d.getDate() + n)] and [h.setHours(h.getHours() + n)]: the
    local reading is moved by whole days or hours and read back as an
    instant. *)
Definition addDays (zone : Zone) (d n : Z) : Z :=
  fromLocal zone (toLocal zone d + n * MS_PER_DAY).

Definition addHours (zone : Zone) (h n : Z) : Z :=
  fromLocal zone (toLocal zone h + n * MS_PER_HOUR).

(** A host on UTC. *)
Definition utcZone : Zone :=
  {| toLocal := fun t => t;
     fromLocal := fun l => l;
     day_forward := ltac:(intros t; cbv beta;
       change (MS_PER_DAY / 2) with 43200000; unfold MS_PER_DAY; lia);
     hour_forward := ltac:(intros t; cbv beta;
       change (MS_PER_HOUR / 2) with 1800000; unfold MS_PER_HOUR; lia) |}.

(** The offset of the zone never changes: no daylight saving time, no change
    of the standard time. *)
Definition fixedOffset (zone : Zone) : Prop :=
  ∃ offset, (∀ t, toLocal zone t = t + offset) ∧ (∀ l, fromLocal zone l = l - offset).

(** A host whose clock moves forward by one hour at 2024-03-10T07:00Z, from
    five to four hours behind UTC, as in New York. *)
Definition easternSpring2024 : Zone :=
  {| toLocal := fun t =>
       if t <? utc 2024 3 10 7 then t - 5 * MS_PER_HOUR else t - 4 * MS_PER_HOUR;
     fromLocal := fun l =>
       if l <? utc 2024 3 10 3 then l + 5 * MS_PER_HOUR else l + 4 * MS_PER_HOUR;
     day_forward := ltac:(intros t; cbv beta;
       let a := eval vm_compute in (utc 2024 3 10 7) in change (utc 2024 3 10 7) with a;
       let b := eval vm_compute in (utc 2024 3 10 3) in change (utc 2024 3 10 3) with b;
       change (MS_PER_DAY / 2) with 43200000; unfold MS_PER_DAY, MS_PER_HOUR;
       repeat match goal with |- context [?x <? ?y] => destruct (Z.ltb_spec x y) end;
       lia);
     hour_forward := ltac:(intros t; cbv beta;
       let a := eval vm_compute in (utc 2024 3 10 7) in change (utc 2024 3 10 7) with a;
       let b := eval vm_compute in (utc 2024 3 10 3) in change (utc 2024 3 10 3) with b;
       change (MS_PER_HOUR / 2) with 1800000; unfold MS_PER_HOUR;
       repeat match goal with |- context [?x <? ?y] => destruct (Z.ltb_spec x y) end;
       lia) |}.

(** ** Time-series builder (lines 190-290) *)

(** [(map.get(k) || 0)]. *)
Definition getOr0 (m : gmap Z Z) (k : Z) : Z :=
  match m !! k with
  | Some v => v
  | None => 0
  end.

Definition bump (m : gmap Z Z) (k : Z) : gmap Z Z := <[k := getOr0 m k + 1]> m.

(** Body of [allStargazers.forEach] (lines 196-208) on the pair
    [(starsByDate, starsByHour)]. *)
Definition bucketStep (sevenDaysAgo : Z) (acc : gmap Z Z * gmap Z Z)
    (sg : StargazerWithDate) : gmap Z Z * gmap Z Z :=
  match starred_at sg with
  | None => acc
  | Some t =>
      let starsByDate := bump (fst acc) (dateKey t) in
      let starsByHour :=
        if sevenDaysAgo <=? t then bump (snd acc) (hourKeyOf t) else snd acc in
      (starsByDate, starsByHour)
  end.

Definition bucketStars (sevenDaysAgo : Z) (allStargazers : list StargazerWithDate)
    : gmap Z Z * gmap Z Z :=
  foldl (bucketStep sevenDaysAgo) (∅, ∅) allStargazers.

(** The loop of lines 215-225: [d] runs from [createdDate] by local days
    while [d <= today]; returns the history and the final value of
    [cumulative]. *)
Fixpoint dailyLoop (zone : Zone) (fuel : nat) (d today : Z) (starsByDate : gmap Z Z)
    (cumulative0 : Z) : list DailyStar * Z :=
  match fuel with
  | O => ([], cumulative0)
  | S fuel' =>
      if d <=? today then
        let dateStr := dateKey d in
        let dailyStars := getOr0 starsByDate dateStr in
        let cumulative1 := cumulative0 + dailyStars in
        let rest := dailyLoop zone fuel' (addDays zone d 1) today starsByDate cumulative1 in
        ({| date := dateStr; daily := dailyStars; cumulative := cumulative1 |}
           :: fst rest, snd rest)
      else ([], cumulative0)
  end.

(** Fuel for the loop: each round moves [d] forward by half a day at least. *)
Definition dailyFuel (createdDate today : Z) : nat :=
  Z.to_nat ((today - createdDate) / (MS_PER_DAY / 2) + 1).

Definition buildDaily (zone : Zone) (createdDate today : Z) (starsByDate : gmap Z Z)
    : list DailyStar * Z :=
  dailyLoop zone (dailyFuel createdDate today) createdDate today starsByDate 0.

(** Lines 228-236. *)
Definition completenessOf (cumulativeTotal totalStars : Z) : Q :=
  if 0 <? totalStars
  then (inject_Z cumulativeTotal / inject_Z totalStars * 100)%Q
  else 100%Q.

Definition setCumulative (d : DailyStar) (c : Z) : DailyStar :=
  {| date := date d; daily := daily d; cumulative := c |}.

Definition scaleFactorOf (cumulativeTotal totalStars : Z) : Q :=
  (inject_Z totalStars / inject_Z cumulativeTotal)%Q.

Definition scaleHistory (cumulativeTotal totalStars : Z) (h : list DailyStar)
    : list DailyStar :=
  if (cumulativeTotal <? totalStars) && (0 <? cumulativeTotal) then
    let scaleFactor := scaleFactorOf cumulativeTotal totalStars in
    map (fun d => setCumulative d (mathRound (inject_Z (cumulative d) * scaleFactor))) h
  else h.

(** The loop of lines 239-246: [h] runs by local hours while [h <= today]. *)
Fixpoint hourlyLoop (zone : Zone) (fuel : nat) (h today : Z) (starsByHour : gmap Z Z)
    : list HourlyStar :=
  match fuel with
  | O => []
  | S fuel' =>
      if h <=? today then
        {| hour := hourKeyOf h; stars := getOr0 starsByHour (hourKeyOf h) |}
          :: hourlyLoop zone fuel' (addHours zone h 1) today starsByHour
      else []
  end.

(** Fuel for the loop: each round moves [h] forward by half an hour at
    least. *)
Definition hourlyFuel (sevenDaysAgo today : Z) : nat :=
  Z.to_nat ((today - sevenDaysAgo) / (MS_PER_HOUR / 2) + 1).

Definition buildHourly (zone : Zone) (sevenDaysAgo today : Z) (starsByHour : gmap Z Z)
    : list HourlyStar :=
  hourlyLoop zone (hourlyFuel sevenDaysAgo today) sevenDaysAgo today starsByHour.

(** Lines 249-280. *)
Definition sumDaily (l : list DailyStar) : Z :=
  foldl (fun a b => a + daily b) 0 l.

Definition average (total : Z) (l : list DailyStar) : Q :=
  if 0 <? Z.of_nat (length l)
  then (inject_Z total / inject_Z (Z.of_nat (length l)))%Q
  else 0%Q.

Definition peakOf (createdAt0 : Z) (h : list DailyStar) : DailyStar :=
  foldl (fun best day => if daily best <? daily day then day else best)
    {| date := createdAt0; daily := 0; cumulative := 0 |} h.

Definition trendOf (sum30 sumPrev30 : Z) : Direction :=
  if 0 <? sumPrev30 then
    let change := (inject_Z (sum30 - sumPrev30) / inject_Z sumPrev30)%Q in
    if Qgtb change (1 # 10) then up
    else if Qgtb (- (1 # 10)) change then down
    else stable
  else if 10 <? sum30 then up
  else stable.

Definition growthRateOf (totalStars0 : Z) (last30 : list DailyStar) : Q :=
  let startStars :=
    match last30 with
    | d :: _ => cumulative d
    | [] => totalStars0
    end in
  if 0 <? startStars
  then (inject_Z (totalStars0 - startStars) / inject_Z startStars * 100)%Q
  else 0%Q.

Definition trendsOf (totalStars0 createdAt0 : Z) (h : list DailyStar) : Trends :=
  let last7 := jsSlice (-7) None h in
  let last30 := jsSlice (-30) None h in
  let prev30 := jsSlice (-60) (Some (-30)) h in
  let sum7 := sumDaily last7 in
  let sum30 := sumDaily last30 in
  let sumPrev30 := sumDaily prev30 in
  let peakDay := peakOf createdAt0 h in
  {| avg7d := toFixed 2 (average sum7 last7);
     avg30d := toFixed 2 (average sum30 last30);
     peakDay_date := date peakDay;
     peakDay_stars := daily peakDay;
     velocity := toFixed 2 (average sum7 last7);
     trend := trendOf sum30 sumPrev30;
     growthRate := toFixed 2 (growthRateOf totalStars0 last30) |}.

(** Lines 104-108. *)
Definition ageInDaysOf (createdAt0 today : Z) : Z :=
  (today - dateOfKey createdAt0) / MS_PER_DAY.

(** The quotient [a / b] of JavaScript numbers, taken as defined only for a
    non-zero divisor. *)
Definition checkedDiv (a b : Z) : option Q :=
  if b =? 0 then None else Some (inject_Z a / inject_Z b)%Q.

Definition avgStarsPerDayOf (totalStars0 age : Z) : option Q :=
  if 0 <? age then checkedDiv totalStars0 age else Some (inject_Z totalStars0).

(** Everything from line 188 to the returned body: the time-series builder
    on [(events, reportedTotal, createdAt, today)], on a host in [zone]. *)
Definition buildAnalytics (zone : Zone) (owner0 repo0 : string)
    (allStargazers : list StargazerWithDate) (totalStars0 createdAt0 today : Z) : Body :=
  let createdDate := dateOfKey createdAt0 in
  let age := ageInDaysOf createdAt0 today in
  let sevenDaysAgo := addDays zone today (-7) in
  let buckets := bucketStars sevenDaysAgo allStargazers in
  let built := buildDaily zone createdDate today (fst buckets) in
  let cumulativeTotal := snd built in
  let history := scaleHistory cumulativeTotal totalStars0 (fst built) in
  {| owner := owner0;
     repo := repo0;
     totalStars := totalStars0;
     createdAt := createdAt0;
     ageInDays := age;
     avgStarsPerDay :=
       (* the quotient is defined on both branches of line 108 *)
       toFixed 2 (default (inject_Z totalStars0) (avgStarsPerDayOf totalStars0 age));
     dailyHistory := history;
     hourlyActivity := buildHourly zone sevenDaysAgo today (snd buckets);
     trends := trendsOf totalStars0 createdAt0 history;
     recentActivity := jsSlice (-30) None history;
     dataCompleteness := toFixed 1 (completenessOf cumulativeTotal totalStars0) |}.

(** [observedTotal]: the final value of [cumulative] before any scaling. *)
Definition observedTotal (zone : Zone) (allStargazers : list StargazerWithDate)
    (createdAt0 today : Z) : Z :=
  snd (buildDaily zone (dateOfKey createdAt0) today
         (fst (bucketStars (addDays zone today (-7)) allStargazers))).

(** ** Page fetching in batches (lines 147-180) *)

(** What one stargazers-page request answers. *)
Inductive PageResponse :=
  | Forbidden                                   (* status 403: rate limited *)
  | NotOk (status : Z)                          (* any other non-2xx status *)
  | OkJson (items : list StargazerWithDate).    (* the parsed page *)

(** Lines 155-162: what the page contributes. *)
Definition pageStars (r : PageResponse) : list StargazerWithDate :=
  match r with
  | Forbidden => []
  | NotOk _ => []
  | OkJson items => items
  end.

(** One round of the batch loop as seen from outside: the pages requested,
    their answers, and, when the rate_limit endpoint was queried, the value
    read at [resources?.core?.remaining] ([None] for [undefined]). *)
Record BatchEvent := {
  be_pages : list Z;
  be_responses : list PageResponse;
  be_rateCheck : option (option Z);
}.

Record FetchState := {
  fs_allStargazers : list StargazerWithDate;
  fs_rateChecks : nat;             (* rate_limit requests made so far *)
  fs_trace : list BatchEvent;
}.

Definition isEmptyArray (r : list StargazerWithDate) : bool :=
  Nat.eqb (length r) 0.

(** [undefined < 10] is false. *)
Definition belowFloor (remaining : option Z) : bool :=
  match remaining with
  | Some r => r <? 10
  | None => false
  end.

Section Fetch.
(** The answers of the upstream API during one run. *)
Variable fetchPage : Z → PageResponse.
Variable fetchRemaining : nat → option Z.

Fixpoint batchLoop (fuel : nat) (pages : list Z) (i : Z) (st : FetchState)
    : FetchState :=
  match fuel with
  | O => st
  | S fuel' =>
      if i <? Z.of_nat (length pages) then
        let batch := jsSlice i (Some (i + BATCH_SIZE)) pages in
        let responses := map fetchPage batch in
        let results := map pageStars responses in
        let all := fs_allStargazers st ++ concat results in
        if existsb isEmptyArray results then
          let remaining := fetchRemaining (fs_rateChecks st) in
          let st' :=
            {| fs_allStargazers := all;
               fs_rateChecks := S (fs_rateChecks st);
               fs_trace := fs_trace st ++
                 [{| be_pages := batch; be_responses := responses;
                     be_rateCheck := Some remaining |}] |} in
          if belowFloor remaining then st'
          else batchLoop fuel' pages (i + BATCH_SIZE) st'
        else
          batchLoop fuel' pages (i + BATCH_SIZE)
            {| fs_allStargazers := all;
               fs_rateChecks := fs_rateChecks st;
               fs_trace := fs_trace st ++
                 [{| be_pages := batch; be_responses := responses;
                     be_rateCheck := None |}] |}
      else st
  end.

Definition fetchAll (pages : list Z) : FetchState :=
  batchLoop (length pages) pages 0
    {| fs_allStargazers := []; fs_rateChecks := O; fs_trace := [] |}.
End Fetch.

(** ** The handler (lines 73-334) *)

Inductive RepoResponse :=
  | RepoNotOk (statusText : string)
  | RepoOk (stargazers_count : Z) (created_at : Z).

(** Everything one run reads from outside: the host time zone, the clock and
    the upstream answers.  Every request is answered by an HTTP response
    whose body has the documented shape. *)
Record World := {
  w_zone : Zone;                  (* the time zone of the host *)
  w_repo : RepoResponse;          (* line 92 *)
  w_today : Z;                    (* [new Date()], line 106 *)
  w_nowCheck : Z;                 (* [Date.now()], line 114 *)
  w_nowStore : Z;                 (* [Date.now()], line 184 *)
  w_page : Z → PageResponse;      (* line 153 *)
  w_remaining : nat → option Z;   (* line 171, by rank of the request *)
}.

Record Outcome := {
  response : Response;
  cacheAfter : gmap string CacheEntry;
  fetchTrace : option (list BatchEvent);  (* [None]: the cache was used *)
}.

(** [message.includes(needle)]. *)
Definition includes (needle message : string) : bool :=
  match String.index 0 needle message with
  | Some _ => true
  | None => false
  end.

(** Line 114: the entry, when there is one and it is younger than the TTL. *)
Definition freshEntry (starCache : gmap string CacheEntry) (cacheKey : string)
    (now : Z) : option CacheEntry :=
  match starCache !! cacheKey with
  | Some cached => if now - timestamp cached <? CACHE_TTL then Some cached else None
  | None => None
  end.

Definition cacheKeyOf (owner0 repo0 : string) : string :=
  owner0 +:+ "/" +:+ repo0.

Definition handler (w : World) (owner0 repo0 : string) (fetchFull : bool)
    (starCache : gmap string CacheEntry) : Outcome :=
  let cacheKey := cacheKeyOf owner0 repo0 in
  match w_repo w with
  | RepoNotOk statusText =>
      let message := "Failed to fetch repo: " +:+ statusText in
      {| response :=
           if includes "rate limit" message
           then Status403 "GitHub API rate limit exceeded. Please provide a token."
           else Status500 message;
         cacheAfter := starCache;
         fetchTrace := None |}
  | RepoOk totalStars0 created_at =>
      let createdAt0 := dateKey created_at in
      let today := w_today w in
      match freshEntry starCache cacheKey (w_nowCheck w) with
      | Some cached =>
          {| response :=
               Status200 (buildAnalytics (w_zone w) owner0 repo0 (data cached)
                            totalStars0 createdAt0 today);
             cacheAfter := starCache;
             fetchTrace := None |}
      | None =>
          let st := fetchAll (w_page w) (w_remaining w)
                      (pagesToFetch fetchFull totalStars0) in
          let allStargazers := fs_allStargazers st in
          {| response :=
               Status200 (buildAnalytics (w_zone w) owner0 repo0 allStargazers
                            totalStars0 createdAt0 today);
             cacheAfter :=
               if 0 <? Z.of_nat (length allStargazers)
               then <[cacheKey := {| timestamp := w_nowStore w;
                                     data := allStargazers |}]> starCache
               else starCache;
             fetchTrace := Some (fs_trace st) |}
      end
  end.

(** ** Vocabulary of the specification *)

(** The pages (or days) [lo, lo + 1, ..., hi]; empty when [hi < lo]. *)
Definition zrange (lo hi : Z) : list Z :=
  map (fun k => lo + Z.of_nat k) (seq 0 (Z.to_nat (hi - lo + 1))).

Definition sumZ (l : list Z) : Z := foldr Z.add 0 l.

(** Number of events whose timestamp falls on the UTC day [day]. *)
Definition countOn (day : Z) (events : list StargazerWithDate) : Z :=
  Z.of_nat (length (filter (fun sg => dateKey <$> starred_at sg = Some day) events)).

(** The last [n] entries of a series, and the series without them. *)
Definition lastN {A : Type} (n : nat) (l : list A) : list A :=
  rev (take n (rev l)).

Definition dropLastN {A : Type} (n : nat) (l : list A) : list A :=
  rev (drop n (rev l)).

Definition sum30Of (h : list DailyStar) : Z := sumZ (map daily (lastN 30 h)).

Definition sumPrev30Of (h : list DailyStar) : Z :=
  sumZ (map daily (lastN 30 (dropLastN 30 h))).

(** The growth direction as the specification words it. *)
Definition specDirection (sum30 sumPrev30 : Z) : Direction :=
  if decide (sumPrev30 = 0) then
    if decide (10 < sum30) then up else stable
  else
    let change := (inject_Z (sum30 - sumPrev30) / inject_Z sumPrev30)%Q in
    if Qlt_le_dec (10 # 100) change then up
    else if Qlt_le_dec change (- (10 # 100)) then down
    else stable.

Definition nondecreasing (l : list Z) : Prop :=
  ∀ (i j : nat) (a b : Z), (i ≤ j)%nat → l !! i = Some a → l !! j = Some b → a ≤ b.

(** The events gathered by the batches of a trace, in order. *)
Definition eventsOfTrace (trace : list BatchEvent) : list StargazerWithDate :=
  concat (map (fun ev => concat (map pageStars (be_responses ev))) trace).

(** The events one run of the fetch phase gathers. *)
Definition fetchedEvents (w : World) (fetchFull : bool) (totalStars0 : Z)
    : list StargazerWithDate :=
  fs_allStargazers
    (fetchAll (w_page w) (w_remaining w) (pagesToFetch fetchFull totalStars0)).

(** The entry of [day] in the dense series that starts on [lo] with the
    running total [c]: the day's own count and the running sum through it. *)
Definition denseEntry (starsByDate : gmap Z Z) (lo c day : Z) : DailyStar :=
  {| date := day;
     daily := getOr0 starsByDate day;
     cumulative := c + sumZ (map (getOr0 starsByDate) (zrange lo day)) |}.

(** ** Sample inputs *)

Definition starAt (t : Z) : StargazerWithDate :=
  {| starred_at := Some t; user_login := "octocat" |}.

Definition jan1 : Z := daysFromCivil 2024 1 1.
Definition jan2 : Z := daysFromCivil 2024 1 2.
Definition jan3 : Z := daysFromCivil 2024 1 3.

(** The single observed event of the partial-data example. *)
Definition partialSample : list StargazerWithDate := [starAt (utc 2024 1 2 10)].

(** Two events on one day, against a reported total of one. *)
Definition surplusSample : list StargazerWithDate :=
  [starAt (utc 2024 1 2 10); starAt (utc 2024 1 2 11)].

(** A batch after which the loop breaks: the quota was read and is below
    the floor. *)
Definition stopsAfter (ev : BatchEvent) : bool :=
  match be_rateCheck ev with
  | Some remaining => belowFloor remaining
  | None => false
  end.

(** Some page of the batch contributed an empty array. *)
Definition hasEmptyResult (ev : BatchEvent) : Prop :=
  ∃ resp, resp ∈ be_responses ev ∧ pageStars resp = [].

(** What the trace records of one batch, given the upstream answers. *)
Definition batchRecorded (fetchPage : Z → PageResponse) (ev : BatchEvent) : Prop :=
  be_responses ev = map fetchPage (be_pages ev)
  ∧ (is_Some (be_rateCheck ev) ↔ hasEmptyResult ev).

Definition bodyOf (resp : Response) : option Body :=
  match resp with
  | Status200 body => Some body
  | _ => None
  end.

(** What holds of the fetch state whenever the loop test is evaluated with
    index [i]: the events gathered are those of the trace, every batch is
    recorded as answered, no batch so far asked to stop, and the pages
    requested are the first [i] of the plan. *)
Definition loopInv (fetchPage : Z → PageResponse) (pages : list Z) (i : Z)
    (st : FetchState) : Prop :=
  0 ≤ i
  ∧ fs_allStargazers st = eventsOfTrace (fs_trace st)
  ∧ Forall (batchRecorded fetchPage) (fs_trace st)
  ∧ Forall (fun ev => stopsAfter ev = false) (fs_trace st)
  ∧ concat (map be_pages (fs_trace st)) = take (Z.to_nat i) pages.

(** What holds of the state the loop ends in: a batch that asked to stop is
    the last one, and the pages requested are a prefix of the plan. *)
Definition loopPost (fetchPage : Z → PageResponse) (pages : list Z)
    (st : FetchState) : Prop :=
  fs_allStargazers st = eventsOfTrace (fs_trace st)
  ∧ Forall (batchRecorded fetchPage) (fs_trace st)
  ∧ (∀ n ev, fs_trace st !! n = Some ev → stopsAfter ev = true →
       length (fs_trace st) = S n)
  ∧ ∃ k, concat (map be_pages (fs_trace st)) = take k pages.

(** ** Sample worlds *)

(** 50 stars, one page, and the page request fails with a server error. *)
Definition serverErrorWorld : World :=
  {| w_zone := utcZone;
     w_repo := RepoOk 50 (utc 2024 1 1 0);
     w_today := utc 2024 1 3 0;
     w_nowCheck := utc 2024 1 3 0;
     w_nowStore := utc 2024 1 3 0;
     w_page := fun _ => NotOk 500;
     w_remaining := fun _ => Some 4000 |}.

(** 50 stars reported, and the one page comes back successfully but empty. *)
Definition emptyPageWorld : World :=
  {| w_zone := utcZone;
     w_repo := RepoOk 50 (utc 2024 1 1 0);
     w_today := utc 2024 1 3 0;
     w_nowCheck := utc 2024 1 3 0;
     w_nowStore := utc 2024 1 3 0;
     w_page := fun _ => OkJson [];
     w_remaining := fun _ => Some 4000 |}.

(** 2001 stars on 21 pages: pages 1 to 20 answer with 100 stars each, page 21
    is rate limited and the quota is exhausted. *)
Definition nearlyCompleteWorld : World :=
  {| w_zone := utcZone;
     w_repo := RepoOk 2001 (utc 2024 1 1 0);
     w_today := utc 2024 1 3 0;
     w_nowCheck := utc 2024 1 3 0;
     w_nowStore := utc 2024 1 3 0;
     w_page := fun p => if p <=? 20
                        then OkJson (replicate 100 (starAt (utc 2024 1 2 10)))
                        else Forbidden;
     w_remaining := fun _ => Some 0 |}.

(** 250 stars on 3 pages: the first page answers, the others are rate
    limited, and the quota is exhausted. *)
Definition rateLimitedWorld : World :=
  {| w_zone := utcZone;
     w_repo := RepoOk 250 (utc 2024 1 1 0);
     w_today := utc 2024 1 3 0;
     w_nowCheck := utc 2024 1 3 0;
     w_nowStore := utc 2024 1 3 0;
     w_page := fun p => if p =? 1
                        then OkJson (replicate 100 (starAt (utc 2024 1 2 10)))
                        else Forbidden;
     w_remaining := fun _ => Some 3 |}.

(** The batch that [rateLimitedWorld] runs. *)
Definition rateLimitedBatch : BatchEvent :=
  {| be_pages := [1; 2; 3];
     be_responses := [OkJson (replicate 100 (starAt (utc 2024 1 2 10)));
                      Forbidden; Forbidden];
     be_rateCheck := Some (Some 3) |}.

(** A repository without stars: nothing to fetch. *)
Definition noStarsWorld (now : Z) : World :=
  {| w_zone := utcZone;
     w_repo := RepoOk 0 (utc 2024 1 1 0);
     w_today := now;
     w_nowCheck := now;
     w_nowStore := now;
     w_page := fun _ => OkJson [];
     w_remaining := fun _ => Some 4000 |}.

(** ** Vocabulary for the rest of the handler *)

(** The event carries a timestamp whose UTC day lies in [lo, hi]. *)
Definition inWindow (lo hi : Z) (sg : StargazerWithDate) : bool :=
  match starred_at sg with
  | Some t => (lo <=? dateKey t) && (dateKey t <=? hi)
  | None => false
  end.

(** The event carries a timestamp not before [since] that falls in the UTC
    hour [h]. *)
Definition recentInHour (since h : Z) (sg : StargazerWithDate) : bool :=
  match starred_at sg with
  | Some t => (since <=? t) && (hourKeyOf t =? h)
  | None => false
  end.

Definition countWhere (p : StargazerWithDate → bool) (events : list StargazerWithDate) : Z :=
  Z.of_nat (length (filter (fun sg => p sg = true) events)).

(** Every cached entry holds at least one event. *)
Definition cacheNonEmpty (starCache : gmap string CacheEntry) : Prop :=
  ∀ key entry, starCache !! key = Some entry → data entry ≠ [].

(** A run on a repository whose first page holds one star. *)
Definition oneStarWorld (now : Z) : World :=
  {| w_zone := utcZone;
     w_repo := RepoOk 1 (utc 2024 1 1 0);
     w_today := now;
     w_nowCheck := now;
     w_nowStore := now;
     w_page := fun _ => OkJson [starAt (utc 2024 1 2 10)];
     w_remaining := fun _ => Some 4000 |}.

Definition oneStarTrace : list BatchEvent :=
  [{| be_pages := [1];
      be_responses := [OkJson [starAt (utc 2024 1 2 10)]];
      be_rateCheck := None |}].

(** The repository summary request fails with the given status text. *)
Definition repoFailureWorld (statusText : string) : World :=
  {| w_zone := utcZone;
     w_repo := RepoNotOk statusText;
     w_today := utc 2024 1 3 0;
     w_nowCheck := utc 2024 1 3 0;
     w_nowStore := utc 2024 1 3 0;
     w_page := fun _ => OkJson [];
     w_remaining := fun _ => Some 4000 |}.

(** The quota recorded for a batch, when one was read, is an answer of the
    rate_limit endpoint. *)
Definition rateCheckRead (fetchRemaining : nat → option Z) (ev : BatchEvent) : Prop :=
  match be_rateCheck ev with
  | Some remaining => ∃ k, remaining = fetchRemaining k
  | None => True
  end.

Definition batchSized (ev : BatchEvent) : Prop :=
  (1 ≤ length (be_pages ev) ≤ 10)%nat.

(** What holds of the fetch state at the loop test with index [i], as far as
    the number of requests goes. *)
Definition budgetInv (fetchRemaining : nat → option Z) (pages : list Z) (i : Z)
    (st : FetchState) : Prop :=
  i = 10 * Z.of_nat (length (fs_trace st))
  ∧ concat (map be_pages (fs_trace st)) = take (Z.to_nat i) pages
  ∧ Forall batchSized (fs_trace st)
  ∧ Forall (fun ev => stopsAfter ev = false) (fs_trace st)
  ∧ Forall (rateCheckRead fetchRemaining) (fs_trace st)
  ∧ 10 * Z.of_nat (length (fs_trace st)) < Z.of_nat (length pages) + 10.

Definition budgetPost (fetchRemaining : nat → option Z) (pages : list Z)
    (st : FetchState) : Prop :=
  Forall batchSized (fs_trace st)
  ∧ Forall (rateCheckRead fetchRemaining) (fs_trace st)
  ∧ 10 * Z.of_nat (length (fs_trace st)) < Z.of_nat (length pages) + 10
  ∧ (concat (map be_pages (fs_trace st)) = pages
     ∨ ∃ ev, last (fs_trace st) = Some ev ∧ stopsAfter ev = true).

(** ** The chart of the StarAnalytics component (StarAnalytics.tsx) *)

(** Lines 35-38: [analytics] is [None] while nothing is loaded. *)
Definition chartData (analytics : option Body) (timeRange : Z) : list DailyStar :=
  match analytics with
  | None => []
  | Some a => jsSlice (- timeRange) None (recentActivity a)
  end.

(** Lines 40-42: [Math.max(...chartData.map(d => d.daily), 1)]. *)
Definition maxDailyStars (chart : list DailyStar) : Z :=
  foldr Z.max 1 (map daily chart).

(** Line 189. *)
Definition barHeight (day : DailyStar) (maxDaily : Z) : Q :=
  (inject_Z (daily day) / inject_Z maxDaily * 100)%Q.

(** Line 207: [Math.max(height, 2)]. *)
Definition barStyleHeight (height : Q) : Q :=
  if Qle_bool height 2 then 2%Q else height.

(** Line 191. *)
Definition isPeak (analytics : Body) (day : DailyStar) : bool :=
  date day =? peakDay_date (trends analytics).

(** ** The client call and the query string (fetchStarAnalytics, line 76) *)

(** What a caller may pass for [fullHistory]. *)
Inductive JsArg :=
  | ArgUndefined
  | ArgBool (b : bool)
  | ArgNumber (n : Z).

(** Truthiness, with the default [fullHistory = false] for [undefined]. *)
Definition truthy (a : JsArg) : bool :=
  match a with
  | ArgUndefined => false
  | ArgBool b => b
  | ArgNumber n => negb (n =? 0)
  end.

(** The query parameters [fetchStarAnalytics] sets; the token is set when it
    is a non-empty string. *)
Definition starAnalyticsParams (token : option string) (fullHistory : JsArg)
    : list (string * string) :=
  (match token with
   | Some t => if String.eqb t "" then [] else [("token", t)]
   | None => []
   end)
  ++ (if truthy fullHistory then [("full", "true")] else []).

(** [req.queryParams[name]]. *)
Fixpoint queryParam (name : string) (params : list (string * string)) : option string :=
  match params with
  | [] => None
  | (k, v) :: rest => if String.eqb k name then Some v else queryParam name rest
  end.

(** Line 76: [req.queryParams.full === 'true']. *)
Definition fetchFullOf (params : list (string * string)) : bool :=
  match queryParam "full" params with
  | Some v => String.eqb v "true"
  | None => false
  end.

(** The call of the component (StarAnalytics.tsx line 23), which passes the
    selected time range in the place of [fullHistory]. *)
Definition componentParams (token : option string) (timeRange : Z)
    : list (string * string) :=
  starAnalyticsParams token (ArgNumber timeRange).

(** ** Bot filter of the contributions handler (get-contributions.step.ts) *)

(** Lines 31-55. *)
Definition BOT_PATTERNS : list string :=
  [ "actions-user"; "github-actions"; "dependabot"; "renovate"; "coderabbitai";
    "coderabbit"; "claude"; "cursor"; "copilot"; "semantic-release-bot";
    "greenkeeper"; "snyk-bot"; "imgbot"; "allcontributors"; "codecov";
    "sonarcloud"; "netlify"; "vercel"; "deepsource"; "mergify"; "stale";
    "probot"; "[bot]" ].

(** [toLowerCase] on ASCII text (logins are ASCII): [A-Z] to [a-z]. *)
Definition lowerAscii (c : Ascii.ascii) : Ascii.ascii :=
  let n := Ascii.N_of_ascii c in
  if ((65 <=? n) && (n <=? 90))%N then Ascii.ascii_of_N (n + 32) else c.

Fixpoint toLowerCase (s : string) : string :=
  match s with
  | EmptyString => EmptyString
  | String c rest => String (lowerAscii c) (toLowerCase rest)
  end.

(** [s.endsWith(suffix)]. *)
Definition endsWith (suffix s : string) : bool :=
  (String.length suffix <=? String.length s)%nat
  && String.eqb (String.substring (String.length s - String.length suffix)
                   (String.length suffix) s) suffix.

(** Lines 57-62. *)
Definition isBot (login : string) : bool :=
  let lowerLogin := toLowerCase login in
  existsb (fun pattern =>
             includes (toLowerCase pattern) lowerLogin || endsWith "[bot]" lowerLogin)
    BOT_PATTERNS.

(** ** Activity patterns of the contributions handler (lines 141-157, 261-269) *)

(** A date field of a commit as the handler meets it: absent (or empty),
    present but unparsable, or a timestamp. *)
Inductive DateField :=
  | NoDate
  | BadDate
  | GoodDate (t : Z).

(** The fields of a listed commit that the handler reads. *)
Record Commit := {
  author_login : option string;       (* commit.author?.login *)
  author_avatar_url : option string;  (* commit.author?.avatar_url *)
  author_name : option string;        (* commit.commit?.author?.name *)
  author_date : DateField;            (* commit.commit?.author?.date *)
  committer_date : DateField;         (* commit.commit?.committer?.date *)
}.

(** Line 148: [new Date(a || b)], [None] when [isNaN(date.getTime())]. *)
Definition commitInstant (c : Commit) : option Z :=
  match author_date c with
  | GoodDate t => Some t
  | BadDate => None
  | NoDate =>
      match committer_date c with
      | GoodDate t => Some t
      | _ => None
      end
  end.

(** [date.getHours()] and [date.getDay()] (0 is Sunday), read off the local
    clock of the host; the epoch day was a Thursday. *)
Definition getHours (zone : Zone) (t : Z) : nat :=
  Z.to_nat ((toLocal zone t / MS_PER_HOUR) mod 24).

Definition getDay (zone : Zone) (t : Z) : nat :=
  Z.to_nat ((toLocal zone t / MS_PER_DAY + 4) mod 7).

(** [arr[i]++] on an index within the array. *)
Definition increment (i : nat) (arr : list Z) : list Z := alter (fun x => x + 1) i arr.

(** Body of [commits.forEach] (lines 147-156) on the pair
    [(hourlyDistribution, weekdayDistribution)]; the monthly map, a separate
    accumulator, is not followed here. *)
Definition activityStep (zone : Zone) (acc : list Z * list Z) (c : Commit)
    : list Z * list Z :=
  match commitInstant c with
  | Some t => (increment (getHours zone t) (fst acc), increment (getDay zone t) (snd acc))
  | None => acc
  end.

Definition distributions (zone : Zone) (commits : list Commit) : list Z * list Z :=
  foldl (activityStep zone) (replicate 24 0, replicate 7 0) commits.

(** The commit has a valid date, and the date satisfies [p]. *)
Definition datedWith (p : Z → bool) (c : Commit) : bool :=
  match commitInstant c with
  | Some t => p t
  | None => false
  end.

(** Number of commits with a valid date satisfying [p]. *)
Definition countCommits (p : Z → bool) (commits : list Commit) : Z :=
  Z.of_nat (length (filter (fun c => datedWith p c = true) commits)).

(** Line 261. *)
Definition dayNames : list string :=
  ["Sunday"; "Monday"; "Tuesday"; "Wednesday"; "Thursday"; "Friday"; "Saturday"].

(** [Math.max(...args)]; [None] stands for [-Infinity], the value without
    arguments. *)
Definition mathMax (args : list Z) : option Z :=
  match args with
  | [] => None
  | x :: rest => Some (foldl Z.max x rest)
  end.

(** [arr.indexOf(x)]: the first index holding [x], or -1. *)
Fixpoint indexOf (x : Z) (arr : list Z) : Z :=
  match arr with
  | [] => -1
  | y :: rest =>
      if y =? x then 0
      else let i := indexOf x rest in if i <? 0 then -1 else i + 1
  end.

(** [arr[i]], [None] for [undefined]. *)
Definition jsIndex {A : Type} (arr : list A) (i : Z) : option A :=
  if i <? 0 then None else arr !! Z.to_nat i.

Record DayCount := {
  dc_day : option string;
  dc_count : option Z;
}.

(** Lines 263-264. *)
Definition busiestDayIndex (weekdayDistribution : list Z) : Z :=
  match mathMax weekdayDistribution with
  | Some maxWeekday =>
      if 0 <? maxWeekday then indexOf maxWeekday weekdayDistribution else 0
  | None => 0
  end.

(** Line 287. *)
Definition busiestDayOf (weekdayDistribution : list Z) : DayCount :=
  let busiest := busiestDayIndex weekdayDistribution in
  {| dc_day := jsIndex dayNames busiest;
     dc_count := jsIndex weekdayDistribution busiest |}.

Record HourCount := {
  hc_hour : Z;
  hc_count : Z;
}.

(** [arr.map((x, i) => f x i)], counting from [i]. *)
Fixpoint mapWithIndex {A B : Type} (f : A → Z → B) (i : Z) (arr : list A) : list B :=
  match arr with
  | [] => []
  | x :: rest => f x i :: mapWithIndex f (i + 1) rest
  end.

(** Line 266. *)
Definition hourlyDataOf (hourlyDistribution : list Z) : list HourCount :=
  mapWithIndex (fun count hour => {| hc_hour := hour; hc_count := count |}) 0
    hourlyDistribution.

(** [Array.prototype.sort(cmp)]: the stable sort, written as insertion from
    the right; [x] goes after the entries that the comparator puts strictly
    before it. *)
Fixpoint insertSorted {A : Type} (cmp : A → A → Z) (x : A) (sorted : list A) : list A :=
  match sorted with
  | [] => [x]
  | y :: rest =>
      if 0 <? cmp x y then y :: insertSorted cmp x rest else x :: y :: rest
  end.

Definition jsSort {A : Type} (cmp : A → A → Z) (arr : list A) : list A :=
  foldr (insertSorted cmp) [] arr.

(** Lines 267-269. *)
Definition peakHoursOf (hourlyDistribution : list Z) : list HourCount :=
  jsSlice 0 (Some 3)
    (jsSort (fun a b => hc_count b - hc_count a) (hourlyDataOf hourlyDistribution)).

(** [p] is listed before [q]: more commits, or as many in an earlier hour. *)
Definition rankedBefore (p q : HourCount) : Prop :=
  hc_count q < hc_count p ∨ (hc_count p = hc_count q ∧ hc_hour p < hc_hour q).

(** The civil date [(year, month, day)] of a UTC day index (proleptic
    Gregorian), the inverse of [daysFromCivil]. *)
Definition civilFromDays (days : Z) : Z * Z * Z :=
  let z := days + 719468 in
  let era := z / 146097 in
  let doe := z - era * 146097 in
  let yoe := (doe - doe / 1460 + doe / 36524 - doe / 146096) / 365 in
  let doy := doe - (365 * yoe + yoe / 4 - yoe / 100) in
  let mp := (5 * doy + 2) / 153 in
  let d := doy - (153 * mp + 2) / 5 + 1 in
  let m := if mp <? 10 then mp + 3 else mp - 9 in
  ((yoe + era * 400) + (if m <=? 2 then 1 else 0), m, d).

(** Line 153: the month key [`${year}-${MM}`] of an instant, read off the
    local clock of the host and kept as the pair of the year and the month
    (1 to 12) it spells. *)
Definition monthKeyOf (zone : Zone) (t : Z) : Z * Z :=
  let '(y, m, _) := civilFromDays (dateKey (toLocal zone t)) in (y, m).

(** Line 154 on the entries of [monthlyDistribution], kept in the order the
    keys were first written (the order of [Object.entries] for such keys). *)
Fixpoint bumpMonth (key : Z * Z) (entries : list (Z * Z * Z)) : list (Z * Z * Z) :=
  match entries with
  | [] => [(key, 1)]
  | (k, v) :: rest =>
      if decide (k = key) then (k, v + 1) :: rest else (k, v) :: bumpMonth key rest
  end.

Definition monthStep (zone : Zone) (entries : list (Z * Z * Z)) (c : Commit)
    : list (Z * Z * Z) :=
  match commitInstant c with
  | Some t => bumpMonth (monthKeyOf zone t) entries
  | None => entries
  end.

Definition monthlyDistributionOf (zone : Zone) (commits : list Commit)
    : list (Z * Z * Z) :=
  foldl (monthStep zone) [] commits.

(** Lines 271-274: the key is [None] for ['N/A']. *)
Definition peakMonthOf (monthEntries : list (Z * Z * Z)) : option (Z * Z) * Z :=
  match monthEntries with
  | [] => (None, 0)
  | first :: rest =>
      let best := foldl (fun a b => if snd b <? snd a then a else b) first rest in
      (Some (fst best), snd best)
  end.

(** The count recorded for a month key, 0 when the key is absent. *)
Fixpoint monthCount (key : Z * Z) (entries : list (Z * Z * Z)) : Z :=
  match entries with
  | [] => 0
  | (k, v) :: rest => if decide (k = key) then v else monthCount key rest
  end.

Definition inMonth (zone : Zone) (key : Z * Z) (t : Z) : bool :=
  bool_decide (monthKeyOf zone t = key).

(** ** Top contributors of the contributions handler (lines 159-223, 293) *)

(** An entry of the contributors listing (login, avatar_url, contributions),
    each field possibly absent. *)
Record ContributorJson := {
  cj_login : option string;
  cj_avatar_url : option string;
  cj_contributions : option Z;
}.

(** A pull request or issue of the search results: [item.user?.login]. *)
Record ItemJson := {
  item_login : option string;
}.

Record ContributorEntry := {
  ce_login : string;
  ce_avatar : string;
  ce_commits : Z;
  ce_pullRequests : Z;
  ce_issues : Z;
}.

(** [x || fallback] on a string that may be absent or empty. *)
Definition orElse (x : option string) (fallback : string) : string :=
  match x with
  | Some s => if String.eqb s "" then fallback else s
  | None => fallback
  end.

(** [obj[login] = (obj[login] || 0) + 1] on the entries of the object, in the
    order the keys were first written. *)
Fixpoint bumpAuthor (login : string) (entries : list (string * Z)) : list (string * Z) :=
  match entries with
  | [] => [(login, 1)]
  | (k, v) :: rest =>
      if String.eqb k login then (k, v + 1) :: rest else (k, v) :: bumpAuthor login rest
  end.

(** [obj[login] || 0]. *)
Fixpoint authorCount (login : string) (entries : list (string * Z)) : Z :=
  match entries with
  | [] => 0
  | (k, v) :: rest => if String.eqb k login then v else authorCount login rest
  end.

(** Lines 180-199, for the pull requests and for the issues alike. *)
Definition countAuthors (items : list ItemJson) : list (string * Z) :=
  foldl (fun acc item =>
           let login := orElse (item_login item) "Unknown" in
           if isBot login then acc else bumpAuthor login acc)
    [] items.

(** A key that is an array index (a canonical decimal below 2^32 - 1): such
    keys come first, in ascending numeric order, when the keys of an object
    are listed. *)
Definition digitOf (c : Ascii.ascii) : option N :=
  let n := Ascii.N_of_ascii c in
  if ((48 <=? n) && (n <=? 57))%N then Some (n - 48)%N else None.

Fixpoint digitsValue (acc : N) (s : string) : option N :=
  match s with
  | EmptyString => Some acc
  | String c rest =>
      match digitOf c with
      | Some d => digitsValue (acc * 10 + d)%N rest
      | None => None
      end
  end.

Definition arrayIndexOf (key : string) : option N :=
  if String.eqb key "" then None
  else if String.eqb key "0" then Some 0%N
  else if String.prefix "0" key then None
  else match digitsValue 0 key with
       | Some n => if (n <? 4294967295)%N then Some n else None
       | None => None
       end.

(** The property names every plain object inherits.  [obj[key]] reads the
    inherited value at such a key, so the counters below behave as maps only
    on logins outside this list. *)
Definition prototypeKeys : list string :=
  [ "constructor"; "hasOwnProperty"; "isPrototypeOf"; "propertyIsEnumerable";
    "toLocaleString"; "toString"; "valueOf"; "__proto__";
    "__defineGetter__"; "__defineSetter__"; "__lookupGetter__"; "__lookupSetter__" ].

Definition plainKey (login : string) : bool :=
  negb (existsb (String.eqb login) prototypeKeys).

(** The own properties of an object in the order [Object.keys],
    [Object.values] and [Object.entries] list them: array-index keys in
    ascending order, then the other keys in the order they were first
    written. *)
Definition objectEntries {V : Type} (entries : list (string * V)) : list (string * V) :=
  map snd
    (jsSort (fun a b => Z.of_N (fst a) - Z.of_N (fst b))
       (flat_map (fun e => match arrayIndexOf (fst e) with
                           | Some n => [(n, e)]
                           | None => []
                           end) entries))
  ++ flat_map (fun e => match arrayIndexOf (fst e) with
                        | Some _ => []
                        | None => [e]
                        end) entries.

Definition objectKeys {V : Type} (entries : list (string * V)) : list string :=
  map fst (objectEntries entries).


Definition contributionTotal (e : ContributorEntry) : Z :=
  ce_commits e + ce_pullRequests e + ce_issues e.

(** Lines 161-177. *)
Definition contributorsWithCommits (contributors : list ContributorJson)
    : list ContributorEntry :=
  flat_map (fun contributor =>
              let login := orElse (cj_login contributor) "Unknown" in
              if isBot login then []
              else [{| ce_login := login;
                       ce_avatar := orElse (cj_avatar_url contributor) "";
                       ce_commits := default 0 (cj_contributions contributor);
                       ce_pullRequests := 0;
                       ce_issues := 0 |}])
    contributors.

(** Lines 202-205. *)
Definition mergeCounts (prAuthors issueAuthors : list (string * Z))
    (contributor : ContributorEntry) : ContributorEntry :=
  {| ce_login := ce_login contributor;
     ce_avatar := ce_avatar contributor;
     ce_commits := ce_commits contributor;
     ce_pullRequests := authorCount (ce_login contributor) prAuthors;
     ce_issues := authorCount (ce_login contributor) issueAuthors |}.

(** Lines 208-218. *)
Definition addPrOnly (prAuthors issueAuthors : list (string * Z))
    (contributorData : list ContributorEntry) (login : string) : list ContributorEntry :=
  if negb (existsb (fun c => String.eqb (ce_login c) login) contributorData)
     && negb (isBot login)
  then contributorData ++
       [{| ce_login := login;
           ce_avatar := "";
           ce_commits := 0;
           ce_pullRequests := authorCount login prAuthors;
           ce_issues := authorCount login issueAuthors |}]
  else contributorData.

(** Lines 159-223: the contributor data, sorted by total contributions. *)
Definition contributorDataOf (contributors : list ContributorJson)
    (prItems issueItems : list ItemJson) : list ContributorEntry :=
  let prAuthors := countAuthors prItems in
  let issueAuthors := countAuthors issueItems in
  let merged := map (mergeCounts prAuthors issueAuthors)
                  (contributorsWithCommits contributors) in
  let all := foldl (addPrOnly prAuthors issueAuthors) merged (objectKeys prAuthors) in
  jsSort (fun a b => contributionTotal b - contributionTotal a) all.

(** Line 293. *)
Definition topContributorsOf (contributors : list ContributorJson)
    (prItems issueItems : list ItemJson) : list ContributorEntry :=
  jsSlice 0 (Some 5) (contributorDataOf contributors prItems issueItems).

(** The item was opened by [login] (after the ['Unknown'] default), who is
    not a bot. *)
Definition authoredBy (login : string) (item : ItemJson) : bool :=
  String.eqb (orElse (item_login item) "Unknown") login && negb (isBot login).

Definition countItems (login : string) (items : list ItemJson) : Z :=
  Z.of_nat (length (filter (fun item => authoredBy login item = true) items)).


(** Every login that reaches the counters is an ordinary key. *)
Definition plainLogins (contributors : list ContributorJson)
    (prItems issueItems : list ItemJson) : Prop :=
  Forall (fun c => plainKey (orElse (cj_login c) "Unknown") = true) contributors
  ∧ Forall (fun item => plainKey (orElse (item_login item) "Unknown") = true) prItems
  ∧ Forall (fun item => plainKey (orElse (item_login item) "Unknown") = true) issueItems.

(** The contributors listing has an entry for [login] with that many commits. *)
Definition hasCommits (contributors : list ContributorJson) (login : string) (commits : Z)
    : Prop :=
  ∃ c, c ∈ contributors
       ∧ orElse (cj_login c) "Unknown" = login
       ∧ default 0 (cj_contributions c) = commits.


(** ** Recent committers of the contributions handler (lines 225-258, 294) *)














(** ** Vocabulary for the daily loop on any host *)

(** The instants at which the loop of lines 215-225 runs its body. *)
Fixpoint visitedDays (zone : Zone) (fuel : nat) (d today : Z) : list Z :=
  match fuel with
  | O => []
  | S fuel' =>
      if d <=? today then d :: visitedDays zone fuel' (addDays zone d 1) today else []
  end.

(** The dates of the entries the loop pushes, in order. *)
Definition visitedDates (zone : Zone) (createdAt0 today : Z) : list Z :=
  map dateKey
    (visitedDays zone (dailyFuel (dateOfKey createdAt0) today) (dateOfKey createdAt0) today).

(** The entries of the given dates, with the running total that starts
    from [c]. *)
Fixpoint runningEntries (starsByDate : gmap Z Z) (c : Z) (days : list Z) : list DailyStar :=
  match days with
  | [] => []
  | day :: rest =>
      let c1 := c + getOr0 starsByDate day in
      {| date := day; daily := getOr0 starsByDate day; cumulative := c1 |}
        :: runningEntries starsByDate c1 rest
  end.

(** March 2024 as day indexes. *)
Definition mar8 : Z := daysFromCivil 2024 3 8.
Definition mar9 : Z := daysFromCivil 2024 3 9.
Definition mar10 : Z := daysFromCivil 2024 3 10.
Definition mar11 : Z := daysFromCivil 2024 3 11.
Definition mar12 : Z := daysFromCivil 2024 3 12.

(** * Properties *)

(** ** Ranges and counting loops *)

Lemma zrange_nil (lo hi : Z) : hi < lo → zrange lo hi = [].
Proof.
  intros H. unfold zrange. replace (Z.to_nat (hi - lo + 1)) with O by lia. done.
Qed.

Lemma zrange_cons (lo hi : Z) : lo ≤ hi → zrange lo hi = lo :: zrange (lo + 1) hi.
Proof.
  intros H. unfold zrange.
  replace (Z.to_nat (hi - lo + 1)) with (S (Z.to_nat (hi - (lo + 1) + 1))) by lia.
  cbn [seq map]. f_equal; [lia|].
  rewrite <- seq_shift, map_map. apply map_ext. intros k. lia.
Qed.

Lemma zrange_length (lo hi : Z) : length (zrange lo hi) = Z.to_nat (hi - lo + 1).
Proof. unfold zrange. by rewrite length_map, length_seq. Qed.

Lemma zrange_lookup (lo hi : Z) (i : nat) :
  (i < Z.to_nat (hi - lo + 1))%nat → zrange lo hi !! i = Some (lo + Z.of_nat i).
Proof.
  intros H. unfold zrange. rewrite list_lookup_fmap.
  rewrite lookup_seq_lt by done. done.
Qed.

Lemma zrange_elem (lo hi x : Z) : x ∈ zrange lo hi ↔ lo ≤ x ≤ hi.
Proof.
  unfold zrange. rewrite list_elem_of_fmap. split.
  - intros (k & -> & Hk). apply elem_of_seq in Hk. lia.
  - intros H. exists (Z.to_nat (x - lo)). split; [lia|]. apply elem_of_seq. lia.
Qed.

Lemma zrange_sorted (lo hi : Z) : StronglySorted Z.lt (zrange lo hi).
Proof.
  remember (Z.to_nat (hi - lo + 1)) as n eqn:Hn. revert lo Hn.
  induction n as [|n IH]; intros lo Hn.
  - rewrite zrange_nil by lia. constructor.
  - rewrite zrange_cons by lia. constructor.
    + apply IH. lia.
    + apply Forall_forall. intros x Hx. apply zrange_elem in Hx. lia.
Qed.

Lemma pushLoop_filter (keep : Z → bool) (fuel : nat) (i hi : Z) :
  (Z.to_nat (hi - i + 1) ≤ fuel)%nat →
  pushLoop fuel i hi keep = filter (fun x => keep x = true) (zrange i hi).
Proof.
  revert i. induction fuel as [|fuel IH]; intros i Hf.
  - rewrite zrange_nil by lia. done.
  - cbn [pushLoop]. destruct (Z.leb_spec i hi) as [Hle|Hgt].
    + rewrite zrange_cons by done. rewrite filter_cons.
      rewrite IH by lia. destruct (keep i); [rewrite decide_True by done|rewrite decide_False by done]; done.
    + rewrite zrange_nil by lia. done.
Qed.

(** The counting loop stops by its own test: more fuel changes nothing. *)
Lemma pushLoop_fuel_enough (keep : Z → bool) (lo hi : Z) (extra : nat) :
  pushLoop (Z.to_nat (hi - lo + 1) + extra) lo hi keep = pushRange lo hi keep.
Proof. unfold pushRange. rewrite !pushLoop_filter by lia. done. Qed.

Lemma pushRange_all (lo hi : Z) : pushRange lo hi (fun _ => true) = zrange lo hi.
Proof.
  unfold pushRange. rewrite pushLoop_filter by lia.
  induction (zrange lo hi) as [|x l IH]; [done|].
  rewrite filter_cons, decide_True by done. by rewrite IH.
Qed.

Lemma pushRange_above (lo hi bound : Z) :
  bound < lo → pushRange lo hi (fun i => bound <? i) = zrange lo hi.
Proof.
  intros Hb. unfold pushRange. rewrite pushLoop_filter by lia.
  assert (Forall (fun x => lo ≤ x) (zrange lo hi)) as HF.
  { apply Forall_forall. intros x Hx. apply zrange_elem in Hx. lia. }
  induction HF as [|x l Hx _ IH]; [done|].
  rewrite filter_cons, decide_True by lia. by rewrite IH.
Qed.

(** ** Sampling planner *)

Lemma ceilDiv_spec (a : Z) :
  starsPerPage * (ceilDiv a starsPerPage - 1) < a ≤ starsPerPage * ceilDiv a starsPerPage.
Proof.
  unfold ceilDiv, starsPerPage.
  pose proof (Z.div_mod (- a) 100 ltac:(lia)) as Hdm.
  pose proof (Z.mod_pos_bound (- a) 100 ltac:(lia)) as Hm.
  lia.
Qed.

Lemma planPages_closed (fetchFull : bool) (totalPages : Z) :
  planPages fetchFull totalPages =
    if fetchFull || (totalPages <=? 100)
    then zrange 1 totalPages
    else zrange 1 30 ++ zrange (totalPages - 69) totalPages.
Proof.
  unfold planPages. destruct fetchFull; cbn [orb].
  - rewrite Z.min_id. apply pushRange_all.
  - destruct (Z.leb_spec totalPages 100) as [Hle|Hgt].
    + rewrite pushRange_all. f_equal. lia.
    + rewrite pushRange_all, pushRange_above by lia. done.
Qed.

Lemma sorted_app_lt (l1 l2 : list Z) :
  StronglySorted Z.lt l1 → StronglySorted Z.lt l2 →
  (∀ x y, x ∈ l1 → y ∈ l2 → x < y) →
  StronglySorted Z.lt (l1 ++ l2).
Proof.
  intros H1 H2 H12. induction H1 as [|x l1 Hs IH Hx]; [done|].
  cbn. constructor.
  - apply IH. intros a b Ha Hb. apply H12; [by right|done].
  - apply Forall_app. split; [done|].
    apply Forall_forall. intros y Hy. apply H12; [by left|done].
Qed.

Lemma sorted_lt_NoDup (l : list Z) : StronglySorted Z.lt l → NoDup l.
Proof.
  induction 1 as [|x l Hs IH Hx]; constructor; [|done].
  intros Hin. rewrite Forall_forall in Hx. specialize (Hx _ Hin). lia.
Qed.

(** C3. The planned page list is [1..totalPages] in full-scan mode or when
    there are at most 100 pages, and [1..30] followed by
    [totalPages-69..totalPages] otherwise, where [totalPages] is the least
    number of 100-item pages covering [totalItems]; the list is strictly
    increasing, duplicate-free and within [1, totalPages].  For 250 pages in
    partial mode it has exactly 100 pages, [1..30] and [181..250]. *)
Theorem planner_plan_shape :
  (∀ (fullScan : bool) (totalItems : Z),
     let totalPages := totalPagesOf totalItems in
     let plan := pagesToFetch fullScan totalItems in
     100 * (totalPages - 1) < totalItems ≤ 100 * totalPages
     ∧ plan = (if fullScan || (totalPages <=? 100)
               then zrange 1 totalPages
               else zrange 1 30 ++ zrange (totalPages - 69) totalPages)
     ∧ StronglySorted Z.lt plan
     ∧ NoDup plan
     ∧ Forall (fun p => 1 ≤ p ≤ totalPages) plan)
  ∧ planPages false 250 = zrange 1 30 ++ zrange 181 250
  ∧ length (planPages false 250) = 100%nat
  ∧ NoDup (planPages false 250)
  ∧ pagesToFetch false 25000 = planPages false 250.
Proof.
  assert (∀ fullScan totalPages,
            StronglySorted Z.lt (planPages fullScan totalPages)
            ∧ Forall (fun p => 1 ≤ p ≤ totalPages) (planPages fullScan totalPages))
    as Hshape.
  { intros fullScan totalPages. rewrite planPages_closed.
    destruct (fullScan || (totalPages <=? 100)) eqn:Hmode.
    - split; [apply zrange_sorted|].
      apply Forall_forall. intros p Hp. by apply zrange_elem in Hp.
    - apply orb_false_iff in Hmode as [_ Hbig]. apply Z.leb_gt in Hbig. split.
      + apply sorted_app_lt; [apply zrange_sorted..|].
        intros x y Hx%zrange_elem Hy%zrange_elem. lia.
      + apply Forall_app. split; apply Forall_forall; intros p Hp%zrange_elem; lia. }
  split; [|split; [|split; [|split]]].
  - intros fullScan totalItems totalPages plan.
    destruct (Hshape fullScan totalPages) as [Hsorted Hbounds].
    split; [apply (ceilDiv_spec totalItems)|].
    split; [apply planPages_closed|].
    split; [exact Hsorted|]. split; [|exact Hbounds].
    by apply sorted_lt_NoDup.
  - by rewrite planPages_closed.
  - by vm_compute.
  - apply sorted_lt_NoDup, Hshape.
  - by vm_compute.
Qed.

(** ** Calendar arithmetic *)

Lemma dateKey_dateOfKey (k : Z) : dateKey (dateOfKey k) = k.
Proof. unfold dateKey, dateOfKey. apply Z.div_mul. done. Qed.

Lemma fixedOffset_utc : fixedOffset utcZone.
Proof. exists 0. split; intros t; cbn; lia. Qed.

Lemma addDays_fixed (zone : Zone) (d n : Z) :
  fixedOffset zone → addDays zone d n = d + n * MS_PER_DAY.
Proof. intros (offset & Hto & Hfrom). unfold addDays. rewrite Hto, Hfrom. lia. Qed.

Lemma addHours_fixed (zone : Zone) (h n : Z) :
  fixedOffset zone → addHours zone h n = h + n * MS_PER_HOUR.
Proof. intros (offset & Hto & Hfrom). unfold addHours. rewrite Hto, Hfrom. lia. Qed.

(** One local day later is at least half a day later. *)
Lemma addDays_forward (zone : Zone) (d : Z) : d + 43200000 ≤ addDays zone d 1.
Proof. apply (day_forward zone d). Qed.

Lemma addHours_forward (zone : Zone) (h : Z) : h + 1800000 ≤ addHours zone h 1.
Proof. apply (hour_forward zone h). Qed.

Lemma dateOfKey_succ (zone : Zone) (k : Z) :
  fixedOffset zone → addDays zone (dateOfKey k) 1 = dateOfKey (k + 1).
Proof. intros Hz. rewrite addDays_fixed by done. unfold dateOfKey. lia. Qed.

Lemma dateOfKey_leb (k t : Z) : (dateOfKey k <=? t) = (k <=? dateKey t).
Proof.
  unfold dateOfKey, dateKey. change MS_PER_DAY with 86400000.
  pose proof (Z.div_mod t 86400000 ltac:(lia)) as Hdm.
  pose proof (Z.mod_pos_bound t 86400000 ltac:(lia)) as Hm.
  destruct (Z.leb_spec k (t / 86400000)); [apply Z.leb_le|apply Z.leb_gt]; lia.
Qed.

Lemma dateKey_mono (a b : Z) : a ≤ b → dateKey a ≤ dateKey b.
Proof. intros H. unfold dateKey. by apply Z.div_le_mono. Qed.

Lemma ageInDaysOf_days (createdAt0 today : Z) :
  ageInDaysOf createdAt0 today = dateKey today - createdAt0.
Proof.
  unfold ageInDaysOf, dateOfKey, dateKey.
  replace (today - createdAt0 * MS_PER_DAY) with (today + (- createdAt0) * MS_PER_DAY) by lia.
  rewrite Z.div_add by done. lia.
Qed.

(** The fuel covers at least one round per day from the creation day to
    today. *)
Lemma dailyFuel_days (k today : Z) :
  (Z.to_nat (dateKey today - k + 1) ≤ dailyFuel (dateOfKey k) today)%nat.
Proof.
  unfold dailyFuel. destruct (Z.le_gt_cases k (dateKey today)) as [Hle|Hgt]; [|lia].
  assert (dateKey today - k ≤ (today - dateOfKey k) / (MS_PER_DAY / 2)); [|lia].
  apply Z.div_le_lower_bound; [done|].
  unfold dateOfKey, dateKey in *. change (MS_PER_DAY / 2) with 43200000.
  change MS_PER_DAY with 86400000 in *.
  pose proof (Z.div_mod today 86400000 ltac:(lia)) as Hdm.
  pose proof (Z.mod_pos_bound today 86400000 ltac:(lia)) as Hm.
  lia.
Qed.

(** ** Bucketing *)

Lemma getOr0_bump (m : gmap Z Z) (k j : Z) :
  getOr0 (bump m k) j = if decide (k = j) then getOr0 m k + 1 else getOr0 m j.
Proof.
  unfold bump. unfold getOr0 at 1. rewrite lookup_insert.
  destruct (decide (k = j)); done.
Qed.

Lemma bump_comm (m : gmap Z Z) (k1 k2 : Z) :
  bump (bump m k1) k2 = bump (bump m k2) k1.
Proof.
  destruct (decide (k1 = k2)) as [->|Hne]; [done|].
  unfold bump at 1 3. rewrite !getOr0_bump.
  rewrite decide_False by done. rewrite (decide_False (P := k2 = k1)) by done.
  unfold bump. by apply insert_insert_ne.
Qed.

Lemma countOn_cons (day : Z) (sg : StargazerWithDate) (events : list StargazerWithDate) :
  countOn day (sg :: events) =
    (if decide (dateKey <$> starred_at sg = Some day) then 1 else 0) + countOn day events.
Proof.
  unfold countOn. rewrite filter_cons.
  destruct (decide (dateKey <$> starred_at sg = Some day)); cbn [length]; lia.
Qed.

Lemma countOn_nonneg (day : Z) (events : list StargazerWithDate) : 0 ≤ countOn day events.
Proof. unfold countOn. lia. Qed.

Lemma bucket_fold_date (sevenDaysAgo : Z) (events : list StargazerWithDate)
    (acc : gmap Z Z * gmap Z Z) (day : Z) :
  getOr0 (fst (foldl (bucketStep sevenDaysAgo) acc events)) day
  = getOr0 (fst acc) day + countOn day events.
Proof.
  revert acc. induction events as [|sg events IH]; intros acc.
  - cbn. unfold countOn. cbn. lia.
  - cbn [foldl]. rewrite IH, countOn_cons. unfold bucketStep.
    destruct (starred_at sg) as [t|]; cbn [fst fmap option_fmap option_map].
    + rewrite getOr0_bump.
      destruct (decide (dateKey t = day)) as [->|Hne].
      * rewrite decide_True by done. lia.
      * rewrite decide_False by congruence. lia.
    + rewrite decide_False by done. lia.
Qed.

(** [starsByDate.get(day) || 0] is the number of events of that day. *)
Lemma bucketStars_date (sevenDaysAgo : Z) (events : list StargazerWithDate) (day : Z) :
  getOr0 (fst (bucketStars sevenDaysAgo events)) day = countOn day events.
Proof. unfold bucketStars. rewrite bucket_fold_date. done. Qed.


(** ** The dense daily series *)

Lemma zrange_snoc_sum (f : Z → Z) (lo hi : Z) :
  lo ≤ hi → sumZ (map f (zrange lo hi)) = f lo + sumZ (map f (zrange (lo + 1) hi)).
Proof. intros H. rewrite zrange_cons by done. done. Qed.

Lemma dailyLoop_closed (zone : Zone) (today : Z) (m : gmap Z Z) (fuel : nat) (k c : Z) :
  fixedOffset zone →
  (Z.to_nat (dateKey today - k + 1) ≤ fuel)%nat →
  dailyLoop zone fuel (dateOfKey k) today m c
  = (map (denseEntry m k c) (zrange k (dateKey today)),
     c + sumZ (map (getOr0 m) (zrange k (dateKey today)))).
Proof.
  intros Hz. revert k c. induction fuel as [|fuel IH]; intros k c Hf.
  - rewrite zrange_nil by lia. cbn. f_equal. lia.
  - cbn [dailyLoop]. rewrite dateOfKey_leb.
    destruct (Z.leb_spec k (dateKey today)) as [Hle|Hgt].
    + rewrite dateOfKey_succ by done. rewrite IH by lia.
      rewrite dateKey_dateOfKey. cbn [fst snd].
      rewrite (zrange_cons k) by done. cbn [map sumZ foldr]. f_equal.
      * f_equal.
        { unfold denseEntry. f_equal. rewrite zrange_cons, zrange_nil by lia.
          cbn. lia. }
        apply map_ext_in. intros day Hday%list_elem_of_In%zrange_elem.
        unfold denseEntry. f_equal. rewrite (zrange_snoc_sum _ k) by lia. lia.
      * fold (sumZ (map (getOr0 m) (zrange (k + 1) (dateKey today)))). lia.
    + rewrite zrange_nil by lia. cbn. f_equal. lia.
Qed.

(** On any host the daily loop stops by its own test: more fuel changes
    nothing. *)
Lemma dailyLoop_fuel_enough (zone : Zone) (today : Z) (m : gmap Z Z) (fuel extra : nat)
    (d c : Z) :
  (today - d) / (MS_PER_DAY / 2) + 1 ≤ Z.of_nat fuel →
  dailyLoop zone (fuel + extra) d today m c = dailyLoop zone fuel d today m c.
Proof.
  revert d c. induction fuel as [|fuel IH]; intros d c Hf.
  - cbn [Nat.add dailyLoop]. destruct extra as [|extra]; [done|]. cbn [dailyLoop].
    destruct (Z.leb_spec d today) as [Hle|]; [|done].
    assert (0 ≤ (today - d) / (MS_PER_DAY / 2)) by (apply Z.div_pos; [lia|done]). lia.
  - cbn [Nat.add dailyLoop]. destruct (Z.leb_spec d today) as [Hle|]; [|done].
    rewrite IH; [done|]. pose proof (addDays_forward zone d) as Hstep.
    change (MS_PER_DAY / 2) with 43200000 in *.
    assert ((today - addDays zone d 1) / 43200000 ≤ (today - d) / 43200000 - 1); [|lia].
    transitivity ((today - d + (-1) * 43200000) / 43200000).
    + apply Z.div_le_mono; lia.
    + rewrite Z.div_add by done. lia.
Qed.

Lemma buildDaily_fuel_enough (zone : Zone) (createdDate today : Z) (m : gmap Z Z)
    (extra : nat) :
  dailyLoop zone (dailyFuel createdDate today + extra) createdDate today m 0
  = buildDaily zone createdDate today m.
Proof.
  unfold buildDaily. apply dailyLoop_fuel_enough. unfold dailyFuel.
  destruct (Z.le_gt_cases 0 ((today - createdDate) / (MS_PER_DAY / 2) + 1)); lia.
Qed.

Lemma buildDaily_closed (zone : Zone) (k today : Z) (m : gmap Z Z) :
  fixedOffset zone →
  buildDaily zone (dateOfKey k) today m
  = (map (denseEntry m k 0) (zrange k (dateKey today)),
     sumZ (map (getOr0 m) (zrange k (dateKey today)))).
Proof.
  intros Hz. unfold buildDaily.
  rewrite dailyLoop_closed by (done || apply dailyFuel_days). done.
Qed.

Lemma scaleHistory_length (c t : Z) (h : list DailyStar) :
  length (scaleHistory c t h) = length h.
Proof. unfold scaleHistory. destruct (_ && _); [apply length_map|done]. Qed.

Lemma scaleHistory_lookup (c t : Z) (h : list DailyStar) (i : nat) (e : DailyStar) :
  scaleHistory c t h !! i = Some e →
  ∃ e0, h !! i = Some e0 ∧ date e = date e0 ∧ daily e = daily e0.
Proof.
  unfold scaleHistory. destruct (_ && _).
  - rewrite list_lookup_fmap. destruct (h !! i) as [e0|]; [|done].
    cbn. intros [= <-]. by exists e0.
  - intros H. by exists e.
Qed.

Lemma scaleHistory_dates (c t : Z) (h : list DailyStar) :
  map date (scaleHistory c t h) = map date h.
Proof.
  unfold scaleHistory. destruct (_ && _); [|done].
  rewrite map_map. done.
Qed.

Lemma scaleHistory_dailies (c t : Z) (h : list DailyStar) :
  map daily (scaleHistory c t h) = map daily h.
Proof.
  unfold scaleHistory. destruct (_ && _); [|done].
  rewrite map_map. done.
Qed.

(** On a host whose offset never changes: the unscaled history in terms of
    the events themselves. *)
Lemma dailyHistory_unfold (zone : Zone) (o r : string) (events : list StargazerWithDate)
    (total createdAt0 today : Z) :
  fixedOffset zone →
  dailyHistory (buildAnalytics zone o r events total createdAt0 today)
  = scaleHistory (observedTotal zone events createdAt0 today) total
      (map (denseEntry (fst (bucketStars (addDays zone today (-7)) events)) createdAt0 0)
           (zrange createdAt0 (dateKey today))).
Proof.
  intros Hz. unfold buildAnalytics, observedTotal. cbn [dailyHistory].
  rewrite buildDaily_closed by done. done.
Qed.

(** C4. The claim fails on a host that observes daylight saving time.  With
    [createdAt] 2024-03-08 and [today] 2024-03-12T12:00Z on a host whose
    clock moves forward on 2024-03-10, the loop steps by local days but dates
    each entry by its UTC day: the history is dated 03-08, 03-09, 03-10,
    03-10, 03-11, so the date 03-10 comes twice, the dates do not advance by
    one day each and today has no entry; the one event of 03-10 is counted on
    both entries of that date. *)
Theorem daily_history_repeats_date :
  let h := dailyHistory
             (buildAnalytics easternSpring2024 "motiadev" "motia"
                [starAt (utc 2024 3 10 12)] 1 mar8 (utc 2024 3 12 12)) in
  mar8 ≤ dateKey (utc 2024 3 12 12)
  ∧ dateKey (utc 2024 3 12 12) = mar12
  ∧ map date h = [mar8; mar9; mar10; mar10; mar11]
  ∧ map daily h = [0; 0; 1; 1; 0]
  ∧ ¬ NoDup (map date h)
  ∧ (mar12 ∉ map date h)
  ∧ ¬ (∀ i e1 e2, h !! i = Some e1 → h !! S i = Some e2 → date e2 = date e1 + 1).
Proof.
  intros h.
  assert (h = [ {| date := mar8; daily := 0; cumulative := 0 |};
                {| date := mar9; daily := 0; cumulative := 0 |};
                {| date := mar10; daily := 1; cumulative := 1 |};
                {| date := mar10; daily := 1; cumulative := 2 |};
                {| date := mar11; daily := 0; cumulative := 2 |} ]) as Hh
    by (by vm_compute).
  split; [by vm_compute|]. split; [by vm_compute|]. rewrite Hh.
  split; [done|]. split; [done|]. split; [|split].
  - cbn [map date]. intros Hnd. apply NoDup_cons in Hnd as [_ Hnd].
    apply NoDup_cons in Hnd as [_ Hnd]. apply NoDup_cons in Hnd as [Hin _].
    apply Hin. by left.
  - cbn [map date]. intros Hin. vm_compute in Hin.
    repeat (apply elem_of_cons in Hin as [Hin|Hin]; [discriminate Hin|]).
    by apply elem_of_nil in Hin.
  - intros Hstep.
    specialize (Hstep 2%nat {| date := mar10; daily := 1; cumulative := 1 |}
                  {| date := mar10; daily := 1; cumulative := 2 |} eq_refl eq_refl).
    cbn [date] in Hstep. lia.
Qed.

(** X26. On a host whose offset never changes, when [createdAt] is not
    after [today], the daily history has exactly (days from [createdAt] to
    [today]) + 1 entries, the i-th one dated [createdAt + i], so the dates
    advance by exactly one day without gap or duplicate; each entry's daily
    count is the number of events of its day, and a day without events has
    its own entry with daily count 0. *)
Theorem daily_history_dense (zone : Zone) (o r : string) (events : list StargazerWithDate)
    (total createdAt0 today : Z) :
  fixedOffset zone →
  createdAt0 ≤ dateKey today →
  let h := dailyHistory (buildAnalytics zone o r events total createdAt0 today) in
  Z.of_nat (length h) = dateKey today - createdAt0 + 1
  ∧ Z.of_nat (length h) = ageInDaysOf createdAt0 today + 1
  ∧ map date h = zrange createdAt0 (dateKey today)
  ∧ (∀ i e, h !! i = Some e →
       date e = createdAt0 + Z.of_nat i ∧ daily e = countOn (date e) events)
  ∧ (∀ i e1 e2, h !! i = Some e1 → h !! S i = Some e2 → date e2 = date e1 + 1)
  ∧ NoDup (map date h)
  ∧ (∀ day, createdAt0 ≤ day ≤ dateKey today → countOn day events = 0 →
       ∃ e, h !! Z.to_nat (day - createdAt0) = Some e ∧ date e = day ∧ daily e = 0).
Proof.
  intros Hz Hle h. subst h. rewrite dailyHistory_unfold by done.
  set (m := fst (bucketStars (addDays zone today (-7)) events)).
  set (c := observedTotal zone events createdAt0 today).
  set (h0 := map (denseEntry m createdAt0 0) (zrange createdAt0 (dateKey today))).
  assert (∀ i e, scaleHistory c total h0 !! i = Some e →
            (i < Z.to_nat (dateKey today - createdAt0 + 1))%nat
            ∧ date e = createdAt0 + Z.of_nat i
            ∧ daily e = countOn (date e) events) as Hentry.
  { intros i e He. apply scaleHistory_lookup in He as (e0 & He0 & -> & ->).
    unfold h0 in He0. rewrite list_lookup_fmap in He0.
    destruct (zrange createdAt0 (dateKey today) !! i) as [day|] eqn:Hday; [|done].
    injection He0 as <-. cbn [date daily denseEntry].
    assert (i < Z.to_nat (dateKey today - createdAt0 + 1))%nat as Hi.
    { apply lookup_lt_Some in Hday. by rewrite zrange_length in Hday. }
    rewrite zrange_lookup in Hday by done. injection Hday as <-.
    split; [done|]. split; [done|]. apply bucketStars_date. }
  assert (length (scaleHistory c total h0)
          = Z.to_nat (dateKey today - createdAt0 + 1)) as Hlen.
  { rewrite scaleHistory_length. unfold h0. by rewrite length_map, zrange_length. }
  assert (map date (scaleHistory c total h0) = zrange createdAt0 (dateKey today))
    as Hdates.
  { rewrite scaleHistory_dates. unfold h0. rewrite map_map. cbn [date denseEntry].
    apply map_id. }
  split; [lia|]. split; [rewrite ageInDaysOf_days; lia|]. split; [done|].
  split; [intros i e He; by apply Hentry in He as (_ & ? & ?)|].
  split.
  { intros i e1 e2 H1 H2. apply Hentry in H1 as (_ & -> & _).
    apply Hentry in H2 as (_ & -> & _). lia. }
  split; [rewrite Hdates; apply sorted_lt_NoDup, zrange_sorted|].
  intros day Hday Hzero.
  destruct (lookup_lt_is_Some_2 (scaleHistory c total h0) (Z.to_nat (day - createdAt0)))
    as [e He]; [lia|].
  exists e. split; [done|]. apply Hentry in He as (_ & Hd & Hc).
  split; [lia|]. rewrite Hc. replace (date e) with day by lia. done.
Qed.

(** ** Rounding *)

Lemma Qfloor_unique (x : Q) (z : Z) :
  (inject_Z z <= x)%Q → (x < inject_Z (z + 1))%Q → Qfloor x = z.
Proof.
  intros Hlo Hhi.
  pose proof (Qfloor_le x) as Hf1. pose proof (Qlt_floor x) as Hf2.
  assert (z < Qfloor x + 1) as H1.
  { rewrite Zlt_Qlt. eapply Qle_lt_trans; [exact Hlo|exact Hf2]. }
  assert (Qfloor x < z + 1) as H2.
  { rewrite Zlt_Qlt. eapply Qle_lt_trans; [exact Hf1|exact Hhi]. }
  lia.
Qed.

Lemma mathRound_inject_Z (z : Z) : mathRound (inject_Z z) = z.
Proof.
  unfold mathRound. apply Qfloor_unique.
  - rewrite <- (Qplus_0_r (inject_Z z)) at 1. apply Qplus_le_r. done.
  - rewrite inject_Z_plus. apply Qplus_lt_r. done.
Qed.

Lemma mathRound_mono (x y : Q) : (x <= y)%Q → mathRound x ≤ mathRound y.
Proof.
  intros H. unfold mathRound. apply Qfloor_resp_le. by apply Qplus_le_l.
Qed.

Lemma mathRound_compat (x y : Q) : (x == y)%Q → mathRound x = mathRound y.
Proof. intros H. unfold mathRound. apply Qfloor_comp. by rewrite H. Qed.

(** ** Running totals *)

Lemma sumZ_app (l1 l2 : list Z) : sumZ (l1 ++ l2) = sumZ l1 + sumZ l2.
Proof. induction l1 as [|x l1 IH]; cbn; [done|]. fold (sumZ (l1 ++ l2)) (sumZ l1). lia. Qed.

Lemma sumZ_nonneg (l : list Z) : Forall (fun x => 0 ≤ x) l → 0 ≤ sumZ l.
Proof. induction 1 as [|x l Hx _ IH]; cbn; [done|]. fold (sumZ l). lia. Qed.

Lemma zrange_app (lo mid hi : Z) :
  lo ≤ mid + 1 → mid ≤ hi → zrange lo hi = zrange lo mid ++ zrange (mid + 1) hi.
Proof.
  intros H1 H2. remember (Z.to_nat (mid - lo + 1)) as n eqn:Hn. revert lo H1 Hn.
  induction n as [|n IH]; intros lo H1 Hn.
  - rewrite (zrange_nil lo mid) by lia. cbn. f_equal. lia.
  - rewrite (zrange_cons lo hi), (zrange_cons lo mid) by lia. cbn. f_equal.
    apply IH; lia.
Qed.

Lemma zrange_last (lo hi : Z) : lo ≤ hi → last (zrange lo hi) = Some hi.
Proof.
  intros H. rewrite (zrange_app lo (hi - 1) hi) by lia.
  replace (hi - 1 + 1) with hi by lia.
  rewrite (zrange_cons hi hi), (zrange_nil (hi + 1) hi) by lia. apply last_snoc.
Qed.

Lemma prefix_sum_mono (f : Z → Z) (lo d1 d2 : Z) :
  (∀ x, 0 ≤ f x) → lo ≤ d1 + 1 → d1 ≤ d2 →
  sumZ (map f (zrange lo d1)) ≤ sumZ (map f (zrange lo d2)).
Proof.
  intros Hf H1 H2. rewrite (zrange_app lo d1 d2) by done.
  rewrite map_app, sumZ_app.
  assert (0 ≤ sumZ (map f (zrange (d1 + 1) d2))); [|lia].
  apply sumZ_nonneg, Forall_forall. intros x (y & -> & _)%list_elem_of_fmap. apply Hf.
Qed.

Lemma observedTotal_sum (zone : Zone) (events : list StargazerWithDate)
    (createdAt0 today : Z) :
  fixedOffset zone →
  observedTotal zone events createdAt0 today
  = sumZ (map (fun day => countOn day events) (zrange createdAt0 (dateKey today))).
Proof.
  intros Hz. unfold observedTotal. rewrite buildDaily_closed by done. cbn [snd]. f_equal.
  apply map_ext. intros day. apply bucketStars_date.
Qed.

Lemma nondecreasing_map (g : Z → Z) (l : list Z) :
  (∀ a b, a ≤ b → g a ≤ g b) → nondecreasing l → nondecreasing (map g l).
Proof.
  intros Hg Hl i j a b Hij Ha Hb. rewrite list_lookup_fmap in Ha, Hb.
  destruct (l !! i) as [a0|] eqn:H1; [|done].
  destruct (l !! j) as [b0|] eqn:H2; [|done].
  injection Ha as <-. injection Hb as <-. apply Hg. by eapply Hl.
Qed.

Lemma scale_mono (c t a b : Z) :
  0 < c → 0 ≤ t → a ≤ b →
  mathRound (inject_Z a * scaleFactorOf c t) ≤ mathRound (inject_Z b * scaleFactorOf c t).
Proof.
  intros Hc Ht Hab. apply mathRound_mono. apply Qmult_le_compat_r.
  - by rewrite <- Zle_Qle.
  - unfold scaleFactorOf. apply Qle_shift_div_l.
    + change 0%Q with (inject_Z 0). by rewrite <- Zlt_Qlt.
    + rewrite Qmult_0_l. change 0%Q with (inject_Z 0). by rewrite <- Zle_Qle.
Qed.

Lemma scale_total (c t : Z) :
  c ≠ 0 → mathRound (inject_Z c * scaleFactorOf c t) = t.
Proof.
  intros Hc. rewrite <- (mathRound_inject_Z t) at 2. apply mathRound_compat.
  unfold scaleFactorOf. apply Qmult_div_r.
  intros H. apply Hc. by apply (inject_Z_injective c 0).
Qed.

Lemma scaleHistory_cumulative (c t : Z) (h : list DailyStar) :
  map cumulative (scaleHistory c t h)
  = if (c <? t) && (0 <? c)
    then map (fun a => mathRound (inject_Z a * scaleFactorOf c t)) (map cumulative h)
    else map cumulative h.
Proof.
  unfold scaleHistory. destruct (_ && _); [|done]. by rewrite !map_map.
Qed.

(** ** The daily loop on any host *)

Lemma visitedDays_bounds (zone : Zone) (today : Z) (fuel : nat) (d : Z) :
  Forall (fun v => d ≤ v ≤ today) (visitedDays zone fuel d today).
Proof.
  revert d. induction fuel as [|fuel IH]; intros d; [constructor|].
  cbn [visitedDays]. destruct (Z.leb_spec d today) as [Hle|]; [|constructor].
  constructor; [lia|]. pose proof (addDays_forward zone d) as Hstep.
  eapply Forall_impl; [apply IH|]. cbn. intros v Hv. lia.
Qed.

Lemma visitedDays_sorted (zone : Zone) (today : Z) (fuel : nat) (d : Z) :
  StronglySorted Z.lt (visitedDays zone fuel d today).
Proof.
  revert d. induction fuel as [|fuel IH]; intros d; [constructor|].
  cbn [visitedDays]. destruct (Z.leb_spec d today) as [Hle|]; [|constructor].
  constructor; [apply IH|]. pose proof (addDays_forward zone d) as Hstep.
  eapply Forall_impl; [apply visitedDays_bounds|]. cbn. intros v Hv. lia.
Qed.

(** The dates of the history lie between the creation day and today's day
    and never go back. *)
Lemma visitedDates_bounds (zone : Zone) (createdAt0 today : Z) :
  Forall (fun day => createdAt0 ≤ day ≤ dateKey today) (visitedDates zone createdAt0 today).
Proof.
  unfold visitedDates. apply Forall_fmap.
  eapply Forall_impl; [apply visitedDays_bounds|]. cbn. intros v [Hlo Hhi]. split.
  - rewrite <- (dateKey_dateOfKey createdAt0). by apply dateKey_mono.
  - by apply dateKey_mono.
Qed.

Lemma sorted_lt_dateKey (l : list Z) :
  StronglySorted Z.lt l → StronglySorted Z.le (map dateKey l).
Proof.
  induction 1 as [|v l Hs IH Hv]; [constructor|]. cbn [map]. constructor; [done|].
  apply Forall_fmap. eapply Forall_impl; [exact Hv|]. cbn. intros w Hw.
  apply dateKey_mono. lia.
Qed.

Lemma visitedDates_sorted (zone : Zone) (createdAt0 today : Z) :
  StronglySorted Z.le (visitedDates zone createdAt0 today).
Proof. unfold visitedDates. apply sorted_lt_dateKey, visitedDays_sorted. Qed.

Lemma visitedDates_future (zone : Zone) (createdAt0 today : Z) :
  dateKey today < createdAt0 → visitedDates zone createdAt0 today = [].
Proof.
  intros Hfuture. pose proof (visitedDates_bounds zone createdAt0 today) as Hb.
  destruct (visitedDates zone createdAt0 today) as [|day rest]; [done|].
  apply Forall_cons in Hb as [Hday _]. lia.
Qed.

Lemma dailyLoop_running (zone : Zone) (today : Z) (m : gmap Z Z) (fuel : nat) (d c : Z) :
  dailyLoop zone fuel d today m c
  = (runningEntries m c (map dateKey (visitedDays zone fuel d today)),
     c + sumZ (map (getOr0 m) (map dateKey (visitedDays zone fuel d today)))).
Proof.
  revert d c. induction fuel as [|fuel IH]; intros d c.
  - cbn. f_equal. lia.
  - cbn [dailyLoop visitedDays]. destruct (d <=? today).
    + rewrite IH. cbn [fst snd map runningEntries sumZ foldr]. f_equal.
      fold (sumZ (map (getOr0 m)
                    (map dateKey (visitedDays zone fuel (addDays zone d 1) today)))).
      lia.
    + cbn. f_equal. lia.
Qed.

Lemma runningEntries_dates (m : gmap Z Z) (c : Z) (days : list Z) :
  map date (runningEntries m c days) = days.
Proof.
  revert c. induction days as [|day days IH]; intros c; [done|].
  cbn [runningEntries map date]. by rewrite IH.
Qed.

Lemma runningEntries_dailies (m : gmap Z Z) (c : Z) (days : list Z) :
  map daily (runningEntries m c days) = map (getOr0 m) days.
Proof.
  revert c. induction days as [|day days IH]; intros c; [done|].
  cbn [runningEntries map daily]. by rewrite IH.
Qed.

Lemma runningEntries_entry (m : gmap Z Z) (c : Z) (days : list Z) :
  Forall (fun e => daily e = getOr0 m (date e)) (runningEntries m c days).
Proof.
  revert c. induction days as [|day days IH]; intros c; [constructor|].
  cbn [runningEntries]. constructor; [done|apply IH].
Qed.

Lemma runningEntries_bounds (m : gmap Z Z) (c : Z) (days : list Z) :
  (∀ day, 0 ≤ getOr0 m day) →
  0 ≤ sumZ (map (getOr0 m) days)
  ∧ Forall (fun e => c ≤ cumulative e ≤ c + sumZ (map (getOr0 m) days))
      (runningEntries m c days).
Proof.
  intros Hm. revert c. induction days as [|day days IH]; intros c.
  - cbn. split; [lia|constructor].
  - cbn [runningEntries map sumZ foldr]. fold (sumZ (map (getOr0 m) days)).
    destruct (IH (c + getOr0 m day)) as [Hsum Hall]. specialize (Hm day).
    split; [lia|]. constructor; [cbn [cumulative]; lia|].
    eapply Forall_impl; [exact Hall|]. cbn. intros e He. lia.
Qed.

Lemma runningEntries_nondecreasing (m : gmap Z Z) (c : Z) (days : list Z) :
  (∀ day, 0 ≤ getOr0 m day) →
  nondecreasing (map cumulative (runningEntries m c days)).
Proof.
  intros Hm. revert c. induction days as [|day days IH]; intros c i j a b Hij Ha Hb.
  - done.
  - cbn [runningEntries map] in Ha, Hb. destruct i as [|i], j as [|j]; try lia.
    + cbn in Ha, Hb. injection Ha as <-. injection Hb as <-. lia.
    + change (Some (c + getOr0 m day) = Some a) in Ha.
      change (map cumulative (runningEntries m (c + getOr0 m day) days) !! j = Some b)
        in Hb.
      injection Ha as <-.
      destruct (runningEntries_bounds m (c + getOr0 m day) days Hm) as [_ Hall].
      rewrite list_lookup_fmap in Hb.
      destruct (runningEntries m (c + getOr0 m day) days !! j) as [e|] eqn:He; [|done].
      injection Hb as <-. rewrite Forall_lookup in Hall. specialize (Hall _ _ He). lia.
    + apply (IH (c + getOr0 m day) i j a b); [lia|done|done].
Qed.

Lemma runningEntries_last (m : gmap Z Z) (c : Z) (days : list Z) :
  days ≠ [] →
  cumulative <$> last (runningEntries m c days) = Some (c + sumZ (map (getOr0 m) days)).
Proof.
  revert c. induction days as [|day days IH]; intros c Hne; [done|].
  cbn [runningEntries map sumZ foldr]. fold (sumZ (map (getOr0 m) days)).
  destruct days as [|day' days'].
  - cbn. f_equal. lia.
  - change (last (?e :: runningEntries m ?c1 (day' :: days')))
      with (last (runningEntries m c1 (day' :: days'))).
    rewrite IH by done. f_equal. lia.
Qed.

(** On any host: the unscaled history is the running count of the events
    over the dates the loop visits. *)
Lemma dailyHistory_running (zone : Zone) (o r : string) (events : list StargazerWithDate)
    (total createdAt0 today : Z) :
  dailyHistory (buildAnalytics zone o r events total createdAt0 today)
  = scaleHistory (observedTotal zone events createdAt0 today) total
      (runningEntries (fst (bucketStars (addDays zone today (-7)) events)) 0
         (visitedDates zone createdAt0 today)).
Proof.
  unfold buildAnalytics, observedTotal, buildDaily, visitedDates. cbn [dailyHistory].
  rewrite dailyLoop_running. done.
Qed.

Lemma observedTotal_running (zone : Zone) (events : list StargazerWithDate)
    (createdAt0 today : Z) :
  observedTotal zone events createdAt0 today
  = sumZ (map (getOr0 (fst (bucketStars (addDays zone today (-7)) events)))
            (visitedDates zone createdAt0 today)).
Proof.
  unfold observedTotal, buildDaily, visitedDates. rewrite dailyLoop_running. cbn [snd]. lia.
Qed.

Lemma bucketStars_nonneg (since : Z) (events : list StargazerWithDate) (day : Z) :
  0 ≤ getOr0 (fst (bucketStars since events)) day.
Proof. rewrite bucketStars_date. apply countOn_nonneg. Qed.

Lemma observedTotal_nonneg (zone : Zone) (events : list StargazerWithDate)
    (createdAt0 today : Z) :
  0 ≤ observedTotal zone events createdAt0 today.
Proof.
  rewrite observedTotal_running.
  apply (runningEntries_bounds _ 0). apply bucketStars_nonneg.
Qed.

(** C1 (as amended). The cumulative counts of the daily history never
    decrease along the series, whatever the input and the host; and when the
    observed total is positive and does not exceed the reported total, the
    last entry's cumulative count is the reported total. *)
Theorem cumulative_nondecreasing_reaches_total (zone : Zone) (o r : string)
    (events : list StargazerWithDate) (total createdAt0 today : Z) :
  let h := dailyHistory (buildAnalytics zone o r events total createdAt0 today) in
  nondecreasing (map cumulative h)
  ∧ (0 < observedTotal zone events createdAt0 today →
     observedTotal zone events createdAt0 today ≤ total →
     ∃ e, last h = Some e ∧ cumulative e = total).
Proof.
  intros h. subst h. rewrite dailyHistory_running.
  set (m := fst (bucketStars (addDays zone today (-7)) events)).
  set (c := observedTotal zone events createdAt0 today).
  set (days := visitedDates zone createdAt0 today).
  assert (∀ day, 0 ≤ getOr0 m day) as Hm by (intros day; apply bucketStars_nonneg).
  assert (c = sumZ (map (getOr0 m) days)) as Hc by apply observedTotal_running.
  split.
  - rewrite scaleHistory_cumulative.
    destruct ((c <? total) && (0 <? c)) eqn:Hscale;
      [|by apply runningEntries_nondecreasing].
    apply andb_true_iff in Hscale as [Hlt%Z.ltb_lt Hpos%Z.ltb_lt].
    apply nondecreasing_map; [|by apply runningEntries_nondecreasing].
    intros a b Hab. apply scale_mono; lia.
  - intros Hpos Hle.
    assert (days ≠ []) as Hdays.
    { intros Hnil. rewrite Hnil in Hc. cbn in Hc. lia. }
    pose proof (runningEntries_last m 0 days Hdays) as Hlast.
    rewrite Z.add_0_l, <- Hc in Hlast.
    destruct (last (runningEntries m 0 days)) as [e0|] eqn:He0; [|done].
    injection Hlast as Hlast.
    unfold scaleHistory. destruct ((c <? total) && (0 <? c)) eqn:Hscale.
    + rewrite fmap_last, He0. cbn [fmap option_fmap option_map].
      eexists. split; [done|]. cbn [cumulative setCumulative].
      rewrite Hlast. apply scale_total. lia.
    + exists e0. split; [done|]. rewrite Hlast.
      apply andb_false_iff in Hscale as [H%Z.ltb_ge|H%Z.ltb_ge]; lia.
Qed.

Lemma cumulative_total_sample :
  0 < observedTotal utcZone partialSample jan1 (utc 2024 1 3 0)
  ∧ observedTotal utcZone partialSample jan1 (utc 2024 1 3 0) ≤ 4
  ∧ ∃ e, last (dailyHistory
                 (buildAnalytics utcZone "motiadev" "motia" partialSample 4 jan1
                    (utc 2024 1 3 0)))
         = Some e ∧ cumulative e = 4.
Proof.
  assert (observedTotal utcZone partialSample jan1 (utc 2024 1 3 0) = 1) as Hobs
    by (vm_compute; reflexivity).
  split; [rewrite Hobs; lia|]. split; [rewrite Hobs; lia|].
  apply (cumulative_nondecreasing_reaches_total utcZone
           "motiadev" "motia" partialSample 4 jan1 (utc 2024 1 3 0));
    rewrite Hobs; lia.
Defined.

(** With more events observed than the reported total, nothing is scaled and
    the series ends on the observed total, not on the reported one. *)
Lemma cumulative_total_surplus :
  ¬ (0 < observedTotal utcZone surplusSample jan1 (utc 2024 1 3 0) →
     let h := dailyHistory
                (buildAnalytics utcZone "motiadev" "motia" surplusSample 1 jan1
                   (utc 2024 1 3 0)) in
     nondecreasing (map cumulative h)
     ∧ ∃ e, last h = Some e ∧ cumulative e = 1).
Proof.
  intros H. destruct H as [_ (e & He & Hc)]; [by vm_compute|].
  vm_compute in He. injection He as <-. vm_compute in Hc. discriminate Hc.
Qed.

(** ** Order independence *)

Lemma foldl_permutation_comm {A B : Type} (f : B → A → B) (l1 l2 : list A) :
  (∀ acc x y, f (f acc x) y = f (f acc y) x) →
  Permutation l1 l2 → ∀ acc, foldl f acc l1 = foldl f acc l2.
Proof.
  intros Hf Hp. induction Hp as [|x l1 l2 _ IH|x y l|l1 l2 l3 _ IH1 _ IH2]; intros acc.
  - done.
  - cbn. apply IH.
  - cbn. by rewrite Hf.
  - by rewrite IH1, IH2.
Qed.

Lemma bucketStep_comm (s : Z) (acc : gmap Z Z * gmap Z Z) (a b : StargazerWithDate) :
  bucketStep s (bucketStep s acc a) b = bucketStep s (bucketStep s acc b) a.
Proof.
  unfold bucketStep.
  destruct (starred_at a) as [ta|], (starred_at b) as [tb|]; cbn [fst snd]; try done.
  f_equal; [apply bump_comm|].
  destruct (s <=? ta), (s <=? tb); try done. apply bump_comm.
Qed.

Lemma bucketStars_permutation (s : Z) (l1 l2 : list StargazerWithDate) :
  Permutation l1 l2 → bucketStars s l1 = bucketStars s l2.
Proof.
  intros Hp. unfold bucketStars.
  apply foldl_permutation_comm; [apply bucketStep_comm|done].
Qed.

(** C8. Two event sequences that are permutations of each other yield the
    same response body: daily history, hourly activity, trends, recent
    activity, completeness and every other field. *)
Theorem builder_order_independent (zone : Zone) (o r : string)
    (events1 events2 : list StargazerWithDate) (total createdAt0 today : Z) :
  Permutation events1 events2 →
  buildAnalytics zone o r events1 total createdAt0 today
  = buildAnalytics zone o r events2 total createdAt0 today.
Proof.
  intros Hp. unfold buildAnalytics.
  by rewrite (bucketStars_permutation _ _ _ Hp).
Qed.

Lemma builder_order_sample :
  Permutation surplusSample (rev surplusSample)
  ∧ buildAnalytics utcZone "motiadev" "motia" surplusSample 2 jan1 (utc 2024 1 3 0)
    = buildAnalytics utcZone "motiadev" "motia" (rev surplusSample) 2 jan1 (utc 2024 1 3 0).
Proof.
  split; [apply Permutation_rev|].
  apply builder_order_independent, Permutation_rev.
Defined.

(** ** The partial-data example *)

Lemma dataCompleteness_unfold (zone : Zone) (o r : string) (events : list StargazerWithDate)
    (total createdAt0 today : Z) :
  dataCompleteness (buildAnalytics zone o r events total createdAt0 today)
  = toFixed 1 (completenessOf (observedTotal zone events createdAt0 today) total).
Proof. reflexivity. Qed.



(** ** Trend direction *)

Lemma Qgtb_true (a b : Q) : Qgtb a b = true ↔ (b < a)%Q.
Proof.
  unfold Qgtb. rewrite negb_true_iff, <- not_true_iff_false, Qle_bool_iff.
  split; [apply Qnot_le_lt|apply Qlt_not_le].
Qed.

Lemma Qgtb_false (a b : Q) : Qgtb a b = false ↔ (a <= b)%Q.
Proof.
  unfold Qgtb. rewrite negb_false_iff. apply Qle_bool_iff.
Qed.

(** For a non-negative preceding sum the handler's test [sumPrev30 > 0] and
    the specification's case split on [sumPrev30 = 0] agree. *)
Lemma trendOf_specDirection (sum30 sumPrev30 : Z) :
  0 ≤ sumPrev30 → trendOf sum30 sumPrev30 = specDirection sum30 sumPrev30.
Proof.
  intros Hp. unfold trendOf, specDirection.
  assert ((10 # 100) == (1 # 10))%Q as Htenth by reflexivity.
  destruct (decide (sumPrev30 = 0)) as [->|Hne].
  - cbn [Z.ltb Z.compare]. destruct (Z.ltb_spec 10 sum30), (decide (10 < sum30)); done || lia.
  - destruct (Z.ltb_spec 0 sumPrev30) as [_|]; [|lia].
    set (change := (inject_Z (sum30 - sumPrev30) / inject_Z sumPrev30)%Q).
    destruct (Qlt_le_dec (10 # 100) change) as [Hup|Hnotup].
    + rewrite Htenth in Hup. apply Qgtb_true in Hup. by rewrite Hup.
    + rewrite Htenth in Hnotup. apply Qgtb_false in Hnotup. rewrite Hnotup.
      destruct (Qlt_le_dec change (- (10 # 100))) as [Hdown|Hnotdown].
      * assert (change < - (1 # 10))%Q as H by (by rewrite <- Htenth).
        apply Qgtb_true in H. by rewrite H.
      * assert (- (1 # 10) <= change)%Q as H by (by rewrite <- Htenth).
        apply Qgtb_false in H. by rewrite H.
Qed.

Lemma sumDaily_sumZ (l : list DailyStar) : sumDaily l = sumZ (map daily l).
Proof.
  unfold sumDaily.
  enough (∀ acc, foldl (fun a b => a + daily b) acc l = acc + sumZ (map daily l)) as H
    by (rewrite H; lia).
  induction l as [|e l IH]; intros acc; cbn.
  - lia.
  - rewrite IH. fold (sumZ (map daily l)). lia.
Qed.

(** [slice(-n)] is the last [n] entries. *)
Lemma jsSlice_lastN {A : Type} (n : nat) (l : list A) :
  (0 < n)%nat → jsSlice (- Z.of_nat n) None l = lastN n l.
Proof.
  intros Hn. unfold jsSlice, lastN.
  destruct (Z.ltb_spec (- Z.of_nat n) 0) as [_|]; [|lia].
  rewrite firstn_rev, rev_involutive.
  replace (Z.to_nat (Z.max (Z.of_nat (length l) + - Z.of_nat n) 0))
    with (length l - n)%nat by lia.
  apply take_ge. rewrite length_drop. lia.
Qed.

(** [slice(-2n, -n)] is the last [n] entries of what precedes the last [n]. *)
Lemma jsSlice_window {A : Type} (n : nat) (l : list A) :
  (0 < n)%nat →
  jsSlice (- Z.of_nat (2 * n)) (Some (- Z.of_nat n)) l = lastN n (dropLastN n l).
Proof.
  intros Hn. unfold jsSlice, lastN, dropLastN.
  destruct (Z.ltb_spec (- Z.of_nat (2 * n)) 0) as [_|]; [|lia].
  destruct (Z.ltb_spec (- Z.of_nat n) 0) as [_|]; [|lia].
  rewrite skipn_rev, !rev_involutive, firstn_rev, rev_involutive.
  rewrite length_take, take_drop_commute.
  f_equal; [lia|]. f_equal. lia.
Qed.

Lemma jsSlice_Forall {A : Type} (P : A → Prop) (start : Z) (stop : option Z) (l : list A) :
  Forall P l → Forall P (jsSlice start stop l).
Proof. intros H. unfold jsSlice. by apply Forall_take, Forall_drop. Qed.

Lemma dailyHistory_daily_nonneg (zone : Zone) (o r : string)
    (events : list StargazerWithDate) (total createdAt0 today : Z) :
  Forall (fun e => 0 ≤ daily e)
    (dailyHistory (buildAnalytics zone o r events total createdAt0 today)).
Proof.
  rewrite dailyHistory_running. apply Forall_lookup. intros i e He.
  apply scaleHistory_lookup in He as (e0 & He0 & _ & ->).
  pose proof (runningEntries_entry
                (fst (bucketStars (addDays zone today (-7)) events)) 0
                (visitedDates zone createdAt0 today)) as Hentry.
  rewrite Forall_lookup in Hentry. rewrite (Hentry _ _ He0).
  apply bucketStars_nonneg.
Qed.

(** C6. The reported trend is the specification's direction of the sum of
    the last 30 daily counts against the sum of the 30 before them: up when
    the relative change exceeds 0.10, down when it is below -0.10, stable
    otherwise, and with a zero preceding sum up exactly when the last sum
    exceeds 10.  From 100 to 115 is up, to 85 down, to 95 stable. *)
Theorem trend_direction_spec :
  (∀ (zone : Zone) (o r : string) (events : list StargazerWithDate)
      (total createdAt0 today : Z),
     let b := buildAnalytics zone o r events total createdAt0 today in
     trend (trends b)
     = specDirection (sum30Of (dailyHistory b)) (sumPrev30Of (dailyHistory b)))
  ∧ (∀ sum30, trendOf sum30 0 = up ↔ 10 < sum30)
  ∧ (∀ sum30, trendOf sum30 0 = up ∨ trendOf sum30 0 = stable)
  ∧ trendOf 115 100 = up
  ∧ trendOf 85 100 = down
  ∧ trendOf 95 100 = stable.
Proof.
  split; [|split; [|split; [|by vm_compute]]].
  - intros zone o r events total createdAt0 today b.
    pose proof (dailyHistory_daily_nonneg zone o r events total createdAt0 today) as Hnn.
    fold b in Hnn. unfold b at 1. unfold buildAnalytics. cbn [trends].
    fold (observedTotal zone events createdAt0 today).
    change (scaleHistory _ _ _) with (dailyHistory b).
    unfold trendsOf. cbn [trend]. rewrite !sumDaily_sumZ.
    change (-30) with (- Z.of_nat 30). change (-60) with (- Z.of_nat (2 * 30)).
    rewrite trendOf_specDirection.
    + rewrite jsSlice_lastN, jsSlice_window by lia. done.
    + apply sumZ_nonneg. apply Forall_fmap. by apply jsSlice_Forall.
  - intros sum30. unfold trendOf. cbn [Z.ltb Z.compare].
    destruct (Z.ltb_spec 10 sum30); split; done || lia.
  - intros sum30. unfold trendOf. cbn [Z.ltb Z.compare].
    destruct (10 <? sum30); auto.
Qed.

(** ** Average per day *)

Lemma Qred_inject_Z (z : Z) : Qred (inject_Z z) = inject_Z z.
Proof.
  pose proof (Qred_correct (inject_Z z)) as Heq.
  pose proof (gcd_Qred (inject_Z z)) as Hgcd.
  destruct (Qred (inject_Z z)) as [n d]. unfold Qeq in Heq. cbn in Heq, Hgcd.
  assert (Z.pos d = 1) as Hd.
  { rewrite <- Hgcd. replace n with (z * Z.pos d) by lia.
    rewrite Z.gcd_comm. symmetry. rewrite Z.mul_comm. apply Z.gcd_mul_diag_l. lia. }
  unfold inject_Z. f_equal; lia.
Qed.

Lemma pow10_pos (digits : nat) : 0 < 10 ^ Z.of_nat digits.
Proof. apply Z.pow_pos_nonneg; lia. Qed.

Lemma scaled_integer (z scale : Z) :
  0 < scale →
  (mathRound (inject_Z z * inject_Z scale) # Z.to_pos scale == inject_Z z)%Q.
Proof.
  intros Hs.
  rewrite (mathRound_compat _ (inject_Z (z * scale))) by (by rewrite inject_Z_mult).
  rewrite mathRound_inject_Z.
  replace scale with (Z.pos (Z.to_pos scale)) at 1 by lia.
  apply Qreduce_den_inject_Z_r.
Qed.

(** Rounding an integer to decimals leaves it unchanged. *)
Lemma toFixed_inject_Z (digits : nat) (z : Z) : toFixed digits (inject_Z z) = inject_Z z.
Proof.
  unfold toFixed. pose proof (pow10_pos digits) as Hs.
  transitivity (Qred (inject_Z z)); [|apply Qred_inject_Z].
  destruct (Qle_bool 0 (inject_Z z)); apply Qred_complete.
  - by apply scaled_integer.
  - change (- inject_Z z)%Q with (inject_Z (- z)).
    rewrite scaled_integer by done. rewrite inject_Z_opp. apply Qopp_involutive.
Qed.

(** C10. The quotient by [ageInDays] is taken only when [ageInDays > 0], so
    the average is defined for every input; when the creation day is today's
    day, [ageInDays] is 0 and the average is the total itself. *)
Theorem avg_per_day_guarded :
  (∀ total age : Z, is_Some (avgStarsPerDayOf total age))
  ∧ (∀ (zone : Zone) (o r : string) (events : list StargazerWithDate)
        (total createdAt0 today : Z),
       dateKey today = createdAt0 →
       let b := buildAnalytics zone o r events total createdAt0 today in
       ageInDays b = 0
       ∧ avgStarsPerDayOf total (ageInDays b) = Some (inject_Z total)
       ∧ avgStarsPerDay b = inject_Z total).
Proof.
  split.
  - intros total age. unfold avgStarsPerDayOf, checkedDiv.
    destruct (Z.ltb_spec 0 age); [|done].
    destruct (Z.eqb_spec age 0); [lia|done].
  - intros zone o r events total createdAt0 today Hday b.
    assert (ageInDays b = 0) as Hage.
    { unfold b, buildAnalytics. cbn [ageInDays]. rewrite ageInDaysOf_days. lia. }
    split; [done|]. split; [by rewrite Hage|].
    unfold b, buildAnalytics. cbn [avgStarsPerDay].
    replace (ageInDaysOf createdAt0 today) with 0
      by (rewrite ageInDaysOf_days; lia).
    cbn [avgStarsPerDayOf Z.ltb Z.compare default]. apply toFixed_inject_Z.
Qed.

Lemma avg_per_day_same_day :
  dateKey (utc 2024 1 1 15) = jan1
  ∧ avgStarsPerDay
      (buildAnalytics utcZone "motiadev" "motia" [] 42 jan1 (utc 2024 1 1 15)) = inject_Z 42.
Proof.
  split; [by vm_compute|].
  apply (proj2 avg_per_day_guarded utcZone "motiadev" "motia" [] 42 jan1 (utc 2024 1 1 15)).
  by vm_compute.
Defined.

(** ** The batch loop *)

Lemma jsSlice_batch {A : Type} (i : Z) (pages : list A) :
  0 ≤ i →
  jsSlice i (Some (i + BATCH_SIZE)) pages = take 10 (drop (Z.to_nat i) pages).
Proof.
  intros Hi. unfold jsSlice, BATCH_SIZE.
  destruct (Z.ltb_spec i 0) as [|_]; [lia|].
  destruct (Z.ltb_spec (i + 10) 0) as [|_]; [lia|].
  set (len := length pages).
  destruct (decide (Z.of_nat len ≤ i)) as [Hout|Hin].
  - rewrite !drop_ge by lia. by rewrite !take_nil.
  - replace (Z.to_nat (Z.min i (Z.of_nat len))) with (Z.to_nat i) by lia.
    destruct (decide (i + 10 ≤ Z.of_nat len)) as [Hfull|Hshort].
    + f_equal. lia.
    + rewrite !take_ge; [done| |]; rewrite length_drop; lia.
Qed.

Lemma existsb_isEmptyArray (responses : list PageResponse) :
  existsb isEmptyArray (map pageStars responses) = true
  ↔ ∃ resp, resp ∈ responses ∧ pageStars resp = [].
Proof.
  rewrite existsb_exists. split.
  - intros (x & Hx & Hlen). apply in_map_iff in Hx as (resp & <- & Hresp).
    exists resp. split; [by apply list_elem_of_In|].
    unfold isEmptyArray in Hlen. apply Nat.eqb_eq in Hlen.
    by apply length_zero_iff_nil.
  - intros (resp & Hresp & Hnil). exists (pageStars resp). split.
    + apply in_map. by apply list_elem_of_In.
    + by rewrite Hnil.
Qed.

Lemma eventsOfTrace_snoc (trace : list BatchEvent) (ev : BatchEvent) :
  eventsOfTrace (trace ++ [ev])
  = eventsOfTrace trace ++ concat (map pageStars (be_responses ev)).
Proof.
  unfold eventsOfTrace. rewrite map_app, concat_app. cbn. by rewrite app_nil_r.
Qed.

Section BatchLoop.
Variable fetchPage : Z → PageResponse.
Variable fetchRemaining : nat → option Z.
Variable pages : list Z.

Lemma loopInv_post (i : Z) (st : FetchState) :
  loopInv fetchPage pages i st → loopPost fetchPage pages st.
Proof.
  intros (Hi & Hall & Hrec & Hnostop & Hpre). repeat split; try done.
  - intros n ev Hn Hstop. rewrite Forall_lookup in Hnostop.
    specialize (Hnostop _ _ Hn). congruence.
  - by eexists.
Qed.

Lemma batchLoop_post (fuel : nat) (i : Z) (st : FetchState) :
  loopInv fetchPage pages i st →
  loopPost fetchPage pages (batchLoop fetchPage fetchRemaining fuel pages i st).
Proof.
  revert i st. induction fuel as [|fuel IH]; intros i st Hinv.
  { by apply (loopInv_post i). }
  cbn [batchLoop]. destruct (Z.ltb_spec i (Z.of_nat (length pages))) as [Hlt|Hge];
    [|by apply (loopInv_post i)].
  destruct Hinv as (Hi & Hall & Hrec & Hnostop & Hpre).
  rewrite jsSlice_batch by done.
  set (batch := take 10 (drop (Z.to_nat i) pages)).
  set (responses := map fetchPage batch).
  assert (take (Z.to_nat i) pages ++ batch = take (Z.to_nat (i + BATCH_SIZE)) pages)
    as Hprefix.
  { unfold batch, BATCH_SIZE. rewrite take_take_drop. f_equal. lia. }
  destruct (existsb isEmptyArray (map pageStars responses)) eqn:Hempty.
  - assert (batchRecorded fetchPage
              {| be_pages := batch; be_responses := responses;
                 be_rateCheck := Some (fetchRemaining (fs_rateChecks st)) |}) as Hev.
    { split; [done|]. cbn. split; [|by eauto].
      intros _. by apply existsb_isEmptyArray. }
    destruct (belowFloor (fetchRemaining (fs_rateChecks st))) eqn:Hfloor.
    + repeat split; cbn [fs_allStargazers fs_trace].
      * by rewrite eventsOfTrace_snoc, Hall.
      * apply Forall_app. split; [done|]. by constructor.
      * intros n ev Hn Hstop. rewrite length_app. cbn [length].
        destruct (decide (n < length (fs_trace st))%nat) as [Hold|Hnew].
        -- rewrite lookup_app_l in Hn by done. rewrite Forall_lookup in Hnostop.
           specialize (Hnostop _ _ Hn). congruence.
        -- apply lookup_lt_Some in Hn. rewrite length_app in Hn. cbn in Hn. lia.
      * eexists. rewrite map_app, concat_app. cbn [map concat be_pages].
        rewrite app_nil_r, Hpre. exact Hprefix.
    + apply IH. repeat split; cbn [fs_allStargazers fs_trace]; [unfold BATCH_SIZE; lia|..].
      * by rewrite eventsOfTrace_snoc, Hall.
      * apply Forall_app. split; [done|]. by constructor.
      * apply Forall_app. split; [done|]. constructor; [|done].
        unfold stopsAfter. cbn. exact Hfloor.
      * rewrite map_app, concat_app. cbn [map concat be_pages].
        rewrite app_nil_r, Hpre. exact Hprefix.
  - apply IH. repeat split; cbn [fs_allStargazers fs_trace]; [unfold BATCH_SIZE; lia|..].
    + by rewrite eventsOfTrace_snoc, Hall.
    + apply Forall_app. split; [done|]. constructor; [|done].
      split; [done|]. cbn. split; [by intros [? [=]]|].
      intros Hhas. apply existsb_isEmptyArray in Hhas. cbn in Hhas. congruence.
    + apply Forall_app. split; [done|]. by constructor.
    + rewrite map_app, concat_app. cbn [map concat be_pages].
      rewrite app_nil_r, Hpre. exact Hprefix.
Qed.

Lemma fetchAll_post : loopPost fetchPage pages (fetchAll fetchPage fetchRemaining pages).
Proof.
  unfold fetchAll. apply batchLoop_post. repeat split; cbn; try done.
Qed.

(** The batch loop ends by its own test or by [break]: more fuel changes
    nothing. *)
Lemma batchLoop_fuel_enough (fuel extra : nat) (i : Z) (st : FetchState) :
  0 ≤ i → Z.of_nat (length pages) - i ≤ Z.of_nat fuel →
  batchLoop fetchPage fetchRemaining (fuel + extra) pages i st
  = batchLoop fetchPage fetchRemaining fuel pages i st.
Proof.
  revert i st. induction fuel as [|fuel IH]; intros i st Hi Hf.
  - cbn [Nat.add batchLoop]. destruct extra as [|extra]; [done|].
    cbn [batchLoop]. destruct (Z.ltb_spec i (Z.of_nat (length pages))); [lia|done].
  - cbn [Nat.add batchLoop].
    destruct (Z.ltb_spec i (Z.of_nat (length pages))); [|done].
    destruct (existsb _ _); [destruct (belowFloor _); [done|]|];
      apply IH; unfold BATCH_SIZE; lia.
Qed.

Lemma fetchAll_fuel_enough (extra : nat) :
  batchLoop fetchPage fetchRemaining (length pages + extra) pages 0
    {| fs_allStargazers := []; fs_rateChecks := O; fs_trace := [] |}
  = fetchAll fetchPage fetchRemaining pages.
Proof. unfold fetchAll. apply batchLoop_fuel_enough; lia. Qed.
End BatchLoop.

(** ** One run of the handler *)

Lemma handler_fetch_run (w : World) (o r : string) (fetchFull : bool)
    (starCache : gmap string CacheEntry) (trace : list BatchEvent) :
  fetchTrace (handler w o r fetchFull starCache) = Some trace →
  ∃ total created_at,
    w_repo w = RepoOk total created_at
    ∧ freshEntry starCache (cacheKeyOf o r) (w_nowCheck w) = None
    ∧ loopPost (w_page w) (pagesToFetch fetchFull total)
        (fetchAll (w_page w) (w_remaining w) (pagesToFetch fetchFull total))
    ∧ trace = fs_trace (fetchAll (w_page w) (w_remaining w)
                          (pagesToFetch fetchFull total))
    ∧ fetchedEvents w fetchFull total = eventsOfTrace trace
    ∧ response (handler w o r fetchFull starCache)
      = Status200 (buildAnalytics (w_zone w) o r (eventsOfTrace trace) total
                     (dateKey created_at) (w_today w))
    ∧ cacheAfter (handler w o r fetchFull starCache)
      = if 0 <? Z.of_nat (length (eventsOfTrace trace))
        then <[cacheKeyOf o r := {| timestamp := w_nowStore w;
                                    data := eventsOfTrace trace |}]> starCache
        else starCache.
Proof.
  unfold handler. destruct (w_repo w) as [statusText|total created_at]; [done|].
  destruct (freshEntry starCache (cacheKeyOf o r) (w_nowCheck w)) as [cached|] eqn:Hfresh;
    [done|].
  cbv zeta. cbn [fetchTrace response cacheAfter]. intros [= <-].
  pose proof (fetchAll_post (w_page w) (w_remaining w) (pagesToFetch fetchFull total))
    as Hpost.
  pose proof Hpost as (Hall & _).
  exists total, created_at. unfold fetchedEvents. rewrite Hall.
  split; [done|]. split; [done|]. split; [exact Hpost|]. done.
Qed.

(** C2 (as amended). In a run that fetches, every batch is recorded with
    the answers of its pages, and the rate_limit endpoint is queried after a
    batch exactly when some page of that batch contributed an empty array,
    be it a 403, another error status or a successful empty page; it is not
    queried after a batch whose pages all returned at least one item. *)
Theorem rate_check_iff_empty_result (w : World) (o r : string) (fetchFull : bool)
    (starCache : gmap string CacheEntry) (trace : list BatchEvent) :
  fetchTrace (handler w o r fetchFull starCache) = Some trace →
  Forall (fun ev =>
            be_responses ev = map (w_page w) (be_pages ev)
            ∧ (is_Some (be_rateCheck ev)
               ↔ ∃ resp, resp ∈ be_responses ev ∧ pageStars resp = [])
            ∧ (Forbidden ∈ be_responses ev → is_Some (be_rateCheck ev))
            ∧ ((∀ resp, resp ∈ be_responses ev → pageStars resp ≠ []) →
               be_rateCheck ev = None))
    trace.
Proof.
  intros Hrun. apply handler_fetch_run in Hrun as (total & created_at & _ & _ & Hpost & -> & _).
  destruct Hpost as (_ & Hrec & _). eapply Forall_impl; [exact Hrec|].
  intros ev [Hresp Hcheck]. split; [done|]. split; [done|]. split.
  - intros Hforbidden. apply Hcheck. by exists Forbidden.
  - intros Hall. destruct (be_rateCheck ev) as [remaining|] eqn:Hrc; [|done].
    exfalso. destruct (proj1 Hcheck) as (resp & Hin & Hnil); [by eauto|].
    by apply (Hall resp).
Qed.

Lemma rate_check_after_rate_limit :
  fetchTrace (handler rateLimitedWorld "motiadev" "motia" false ∅)
  = Some [rateLimitedBatch]
  ∧ Forall (fun ev => Forbidden ∈ be_responses ev → is_Some (be_rateCheck ev))
      [rateLimitedBatch].
Proof.
  assert (fetchTrace (handler rateLimitedWorld "motiadev" "motia" false ∅)
          = Some [rateLimitedBatch]) as Hrun by (vm_compute; reflexivity).
  split; [exact Hrun|].
  eapply Forall_impl;
    [exact (rate_check_iff_empty_result rateLimitedWorld "motiadev" "motia" false ∅
              [rateLimitedBatch] Hrun)|].
  intros ev (_ & _ & H & _). exact H.
Defined.

(** The quota is also read after a batch without any rate-limited fetch:
    one whose only page failed with status 500, and one whose only page
    succeeded with no item. *)
Lemma rate_check_without_rate_limit :
  ¬ (∀ (w : World) (trace : list BatchEvent) (ev : BatchEvent),
       fetchTrace (handler w "motiadev" "motia" false ∅) = Some trace →
       ev ∈ trace → is_Some (be_rateCheck ev) → Forbidden ∈ be_responses ev).
Proof.
  intros H.
  specialize (H serverErrorWorld
                [{| be_pages := [1]; be_responses := [NotOk 500];
                    be_rateCheck := Some (Some 4000) |}]
                {| be_pages := [1]; be_responses := [NotOk 500];
                   be_rateCheck := Some (Some 4000) |}).
  cbn [be_rateCheck be_responses] in H.
  assert (Forbidden ∈ [NotOk 500]) as Hin.
  { apply H; [by vm_compute|by left|by eauto]. }
  apply list_elem_of_singleton in Hin. discriminate Hin.
Qed.

(** ** How many events a stopped run can have gathered *)

Lemma page_sum_bound (fetchPage : Z → PageResponse) (l : list Z) (p0 : Z) :
  (∀ p, (length (pageStars (fetchPage p)) ≤ 100)%nat) →
  p0 ∈ l → pageStars (fetchPage p0) = [] →
  (length (concat (map (fun p => pageStars (fetchPage p)) l)) + 100
   ≤ 100 * length l)%nat.
Proof.
  intros Hsize Hin Hnil.
  assert (∀ l', (length (concat (map (fun p => pageStars (fetchPage p)) l'))
                 ≤ 100 * length l')%nat) as Hall.
  { induction l' as [|p l' IH]; cbn; [lia|].
    rewrite length_app. specialize (Hsize p). lia. }
  induction Hin as [p0 l|p0 q l Hin IH]; cbn; rewrite length_app.
  - rewrite Hnil. cbn. specialize (Hall l). lia.
  - specialize (IH Hnil). specialize (Hsize q). lia.
Qed.

Lemma eventsOfTrace_pages (fetchPage : Z → PageResponse) (trace : list BatchEvent) :
  Forall (batchRecorded fetchPage) trace →
  eventsOfTrace trace
  = concat (map (fun p => pageStars (fetchPage p)) (concat (map be_pages trace))).
Proof.
  unfold eventsOfTrace. induction 1 as [|ev trace [Hresp _] _ IH]; [done|].
  cbn [map concat]. rewrite map_app, concat_app, IH, Hresp, map_map. done.
Qed.

Lemma indicator_sum_le_1 (x : option Z) (l : list Z) :
  NoDup l → 0 ≤ sumZ (map (fun d => if decide (x = Some d) then 1 else 0) l) ≤ 1.
Proof.
  induction 1 as [|d l Hd Hnd IH]; cbn; [lia|].
  fold (sumZ (map (fun d => if decide (x = Some d) then 1 else 0) l)).
  destruct (decide (x = Some d)) as [->|Hne]; [|lia].
  assert (sumZ (map (fun d0 => if decide (Some d = Some d0) then 1 else 0) l) = 0)
    as Hzero; [|lia].
  clear IH Hnd. induction l as [|d' l IH]; [done|]. cbn.
  rewrite decide_False.
  - apply IH. intros Hin. apply Hd. by right.
  - intros [= ->]. apply Hd. by left.
Qed.

Lemma sumZ_map_add (f g : Z → Z) (l : list Z) :
  sumZ (map (fun d => f d + g d) l) = sumZ (map f l) + sumZ (map g l).
Proof.
  induction l as [|d l IH]; cbn; [done|].
  fold (sumZ (map (fun d => f d + g d) l)) (sumZ (map f l)) (sumZ (map g l)). lia.
Qed.

(** On a host whose offset never changes, every event is counted on at most
    one day of the series. *)
Lemma observedTotal_le_length (zone : Zone) (events : list StargazerWithDate)
    (createdAt0 today : Z) :
  fixedOffset zone →
  0 ≤ observedTotal zone events createdAt0 today ≤ Z.of_nat (length events).
Proof.
  intros Hz. rewrite observedTotal_sum by done.
  pose proof (sorted_lt_NoDup _ (zrange_sorted createdAt0 (dateKey today))) as Hnd.
  induction events as [|sg events IH].
  - assert (∀ l, sumZ (map (fun day => countOn day ([] : list StargazerWithDate)) l) = 0)
      as H0 by (induction l; [done|cbn; unfold countOn; cbn; done]).
    rewrite H0. cbn. lia.
  - rewrite (map_ext _ (fun day =>
               (if decide (dateKey <$> starred_at sg = Some day) then 1 else 0)
               + countOn day events)) by (intros; apply countOn_cons).
    rewrite (sumZ_map_add
               (fun day => if decide (dateKey <$> starred_at sg = Some day) then 1 else 0)).
    pose proof (indicator_sum_le_1 (dateKey <$> starred_at sg) _ Hnd).
    cbn [length]. lia.
Qed.

Lemma plan_length_bound (fetchFull : bool) (total : Z) :
  pagesToFetch fetchFull total ≠ [] →
  100 * Z.of_nat (length (pagesToFetch fetchFull total)) - 100 < total.
Proof.
  intros Hne. unfold pagesToFetch in *. rewrite planPages_closed in *.
  pose proof (ceilDiv_spec total) as Hceil. fold (totalPagesOf total) in Hceil.
  unfold starsPerPage in Hceil.
  destruct (fetchFull || (totalPagesOf total <=? 100)) eqn:Hmode.
  - rewrite zrange_length.
    destruct (decide (totalPagesOf total < 1)) as [Hnone|Hsome]; [|lia].
    rewrite zrange_nil in Hne by lia. done.
  - apply orb_false_iff in Hmode as [_ Hbig%Z.leb_gt].
    rewrite length_app, !zrange_length. lia.
Qed.

Lemma completeness_lt_100 (observed total : Z) :
  0 ≤ observed → observed < total → (completenessOf observed total < 100)%Q.
Proof.
  intros Hobs Hlt. unfold completenessOf.
  destruct (Z.ltb_spec 0 total) as [Htot|]; [|lia].
  change 100%Q with (1 * 100)%Q at 2. apply Qmult_lt_compat_r; [done|].
  apply Qlt_shift_div_r.
  - change 0%Q with (inject_Z 0). by rewrite <- Zlt_Qlt.
  - rewrite Qmult_1_l. by rewrite <- Zlt_Qlt.
Qed.

Lemma toFixed1_completeness_le (observed total : Z) :
  0 ≤ observed → observed < total →
  (toFixed 1 (completenessOf observed total) <= 100)%Q.
Proof.
  intros Hobs Hlt. unfold completenessOf.
  destruct (Z.ltb_spec 0 total) as [Htot|]; [|lia].
  set (x := (inject_Z observed / inject_Z total * 100)%Q).
  assert (0 <= x)%Q as Hx0.
  { unfold x. apply Qmult_le_0_compat; [|done]. apply Qle_shift_div_l.
    - change 0%Q with (inject_Z 0). by rewrite <- Zlt_Qlt.
    - rewrite Qmult_0_l. change 0%Q with (inject_Z 0). by rewrite <- Zle_Qle. }
  assert (x <= 100)%Q as Hx100.
  { unfold x. change 100%Q with (1 * 100)%Q at 2. apply Qmult_le_compat_r; [|done].
    apply Qle_shift_div_r.
    - change 0%Q with (inject_Z 0). by rewrite <- Zlt_Qlt.
    - rewrite Qmult_1_l. rewrite <- Zle_Qle. lia. }
  unfold toFixed. apply Qle_bool_iff in Hx0. rewrite Hx0.
  rewrite Qred_correct.
  assert (mathRound (x * inject_Z (10 ^ Z.of_nat 1)) ≤ 1000) as Hround.
  { change 1000 with (mathRound (inject_Z 1000)).
    apply mathRound_mono. change (inject_Z 1000) with (100 * inject_Z 10)%Q.
    apply Qmult_le_compat_r; done. }
  unfold Qle. cbn [Qnum Qden]. change (Z.pos (Z.to_pos (10 ^ Z.of_nat 1))) with 10. lia.
Qed.

(** C5 (as amended). When a batch contained a rate-limited fetch and the
    quota read after it is below 10, that batch is the last one issued (the
    pages requested are a prefix of the plan ending with it) and the run
    answers with status 200 and the body built from the events gathered so
    far.  If every page holds at most 100 items and the offset of the host's
    time zone never changes, the observed total is then strictly below the
    reported total, the completeness ratio of line 228 is strictly below 100,
    and the reported completeness, which is that ratio rounded to one
    decimal, is at most 100. *)
Theorem rate_limit_stop_partial_result (w : World) (o r : string) (fetchFull : bool)
    (starCache : gmap string CacheEntry) (trace : list BatchEvent)
    (n : nat) (ev : BatchEvent) (remaining : Z) :
  fetchTrace (handler w o r fetchFull starCache) = Some trace →
  trace !! n = Some ev →
  Forbidden ∈ be_responses ev →
  be_rateCheck ev = Some (Some remaining) →
  remaining < 10 →
  length trace = S n
  ∧ ∃ total created_at body,
      w_repo w = RepoOk total created_at
      ∧ (∃ k, concat (map be_pages trace) = take k (pagesToFetch fetchFull total))
      ∧ response (handler w o r fetchFull starCache) = Status200 body
      ∧ body = buildAnalytics (w_zone w) o r (eventsOfTrace trace) total
                 (dateKey created_at) (w_today w)
      ∧ dataCompleteness body
        = toFixed 1 (completenessOf
                       (observedTotal (w_zone w) (eventsOfTrace trace)
                          (dateKey created_at) (w_today w)) total)
      ∧ ((∀ p, (length (pageStars (w_page w p)) ≤ 100)%nat) →
         fixedOffset (w_zone w) →
         observedTotal (w_zone w) (eventsOfTrace trace) (dateKey created_at) (w_today w)
         < total
         ∧ (completenessOf
              (observedTotal (w_zone w) (eventsOfTrace trace) (dateKey created_at)
                 (w_today w))
              total < 100)%Q
         ∧ (dataCompleteness body <= 100)%Q).
Proof.
  intros Hrun Hn Hforbidden Hcheck Hlow.
  apply handler_fetch_run in Hrun
    as (total & created_at & Hrepo & _ & Hpost & Htrace & _ & Hresp & _).
  destruct Hpost as (_ & Hrec & Hstop & (k & Hprefix)). rewrite <- Htrace in *.
  split.
  { apply (Hstop n ev Hn). unfold stopsAfter. rewrite Hcheck. cbn.
    by apply Z.ltb_lt. }
  exists total, created_at, (buildAnalytics (w_zone w) o r (eventsOfTrace trace) total
                               (dateKey created_at) (w_today w)).
  split; [done|]. split; [by exists k|]. split; [done|]. split; [done|].
  split; [apply dataCompleteness_unfold|].
  intros Hsize Hz.
  pose proof (observedTotal_le_length (w_zone w) (eventsOfTrace trace) (dateKey created_at)
                (w_today w) Hz) as [Hobs0 Hobs].
  assert (observedTotal (w_zone w) (eventsOfTrace trace) (dateKey created_at) (w_today w)
          < total) as Hshort.
  { rewrite Forall_lookup in Hrec. destruct (Hrec n ev Hn) as [Hresponses _].
    rewrite Hresponses in Hforbidden.
    apply list_elem_of_fmap in Hforbidden as (p0 & Hp0 & Hin).
    assert (p0 ∈ concat (map be_pages trace)) as Hfetched.
    { apply list_elem_of_In, in_concat. exists (be_pages ev). split.
      - apply in_map, list_elem_of_In. by eapply list_elem_of_lookup_2.
      - by apply list_elem_of_In. }
    assert (Forall (batchRecorded (w_page w)) trace) as Hrec'
      by (by apply Forall_lookup).
    pose proof (page_sum_bound (w_page w) _ p0 Hsize Hfetched) as Hsum.
    rewrite <- Hp0 in Hsum. specialize (Hsum eq_refl).
    rewrite <- (eventsOfTrace_pages _ _ Hrec') in Hsum.
    assert (pagesToFetch fetchFull total ≠ []) as Hplan.
    { intros Hnil. rewrite Hprefix, Hnil, take_nil in Hfetched.
      by apply not_elem_of_nil in Hfetched. }
    pose proof (plan_length_bound fetchFull total Hplan) as Hbound.
    assert (length (concat (map be_pages trace))
            ≤ length (pagesToFetch fetchFull total))%nat as Hlen.
    { rewrite Hprefix, length_take. lia. }
    lia. }
  split; [done|]. split; [by apply completeness_lt_100|].
  rewrite dataCompleteness_unfold. by apply toFixed1_completeness_le.
Qed.

(** On a host that repeats a date, an event of that date is counted on both
    entries: one event against a reported total of 1 is reported as 200
    percent complete. *)
Example completeness_double_counted :
  dataCompleteness
    (buildAnalytics easternSpring2024 "motiadev" "motia" [starAt (utc 2024 3 10 12)] 1
       mar8 (utc 2024 3 12 12)) = 200%Q.
Proof. by vm_compute. Qed.

Lemma rate_limit_stop_sample :
  fetchTrace (handler rateLimitedWorld "motiadev" "motia" false ∅)
  = Some [rateLimitedBatch]
  ∧ length [rateLimitedBatch] = 1%nat.
Proof.
  assert (fetchTrace (handler rateLimitedWorld "motiadev" "motia" false ∅)
          = Some [rateLimitedBatch]) as Hrun by (vm_compute; reflexivity).
  split; [exact Hrun|].
  refine (proj1 (rate_limit_stop_partial_result rateLimitedWorld "motiadev" "motia"
                   false ∅ [rateLimitedBatch] 0 rateLimitedBatch 3 Hrun
                   eq_refl _ eq_refl _)).
  - right. left.
  - reflexivity.
Defined.

(** With 2000 of 2001 stars gathered before the quota ran out, the run stops
    on the rate-limited batch, yet the completeness it reports is 100. *)
Lemma rate_limit_stop_reports_100 :
  let out := handler nearlyCompleteWorld "motiadev" "motia" false ∅ in
  (be_responses <$> (fetchTrace out ≫= last)) = Some [Forbidden]
  ∧ (be_rateCheck <$> (fetchTrace out ≫= last)) = Some (Some (Some 0))
  ∧ (dataCompleteness <$> bodyOf (response out)) = Some 100%Q
  ∧ ∀ body, bodyOf (response out) = Some body → ¬ (dataCompleteness body < 100)%Q.
Proof.
  intros out.
  assert ((dataCompleteness <$> bodyOf (response out)) = Some 100%Q) as Hdc
    by (vm_compute; reflexivity).
  split; [by vm_compute|]. split; [by vm_compute|]. split; [exact Hdc|].
  intros body Hbody. rewrite Hbody in Hdc. cbn in Hdc. injection Hdc as ->.
  intros Hlt. by vm_compute in Hlt.
Qed.

(** ** The cache *)

Lemma freshEntry_later (starCache : gmap string CacheEntry) (key : string) (now later : Z) :
  freshEntry starCache key now = None → now ≤ later →
  freshEntry starCache key later = None.
Proof.
  unfold freshEntry. destruct (starCache !! key) as [cached|]; [|done].
  destruct (Z.ltb_spec (now - timestamp cached) CACHE_TTL); [done|].
  intros _ Hlater. destruct (Z.ltb_spec (later - timestamp cached) CACHE_TTL); [lia|done].
Qed.

Lemma handler_miss_fetches (w : World) (o r : string) (fetchFull : bool)
    (starCache : gmap string CacheEntry) (total created_at : Z) :
  w_repo w = RepoOk total created_at →
  freshEntry starCache (cacheKeyOf o r) (w_nowCheck w) = None →
  is_Some (fetchTrace (handler w o r fetchFull starCache)).
Proof. intros Hrepo Hmiss. unfold handler. rewrite Hrepo, Hmiss. cbn. eauto. Qed.

Lemma cacheAfter_cases (w : World) (o r : string) (fetchFull : bool)
    (starCache : gmap string CacheEntry) :
  cacheAfter (handler w o r fetchFull starCache) = starCache
  ∨ ∃ trace, fetchTrace (handler w o r fetchFull starCache) = Some trace
             ∧ eventsOfTrace trace ≠ []
             ∧ cacheAfter (handler w o r fetchFull starCache)
               = <[cacheKeyOf o r := {| timestamp := w_nowStore w;
                                        data := eventsOfTrace trace |}]> starCache.
Proof.
  destruct (fetchTrace (handler w o r fetchFull starCache)) as [trace|] eqn:Hrun.
  - pose proof (handler_fetch_run _ _ _ _ _ _ Hrun)
      as (total & created_at & _ & _ & _ & _ & _ & _ & Hcache).
    rewrite Hcache. destruct (eventsOfTrace trace) as [|sg events] eqn:Hev.
    + by left.
    + right. exists trace. rewrite Hev. cbn. done.
  - left. unfold handler in *. destruct (w_repo w); [done|].
    destruct (freshEntry _ _ _); [done|discriminate Hrun].
Qed.

(** C9. A run whose fetch phase gathers no event leaves the cache as it
    was, so every later request for the same repository fetches again; and
    whenever a run changes the cache, its fetch phase gathered at least one
    event, stored under the repository's key. *)
Theorem cache_written_only_with_events (w : World) (o r : string) (fetchFull : bool)
    (starCache : gmap string CacheEntry) :
  let out := handler w o r fetchFull starCache in
  (∀ trace, fetchTrace out = Some trace → eventsOfTrace trace = [] →
     cacheAfter out = starCache
     ∧ cacheAfter out !! cacheKeyOf o r = starCache !! cacheKeyOf o r
     ∧ ∀ (w' : World) (fetchFull' : bool) (total' created_at' : Z),
         w_repo w' = RepoOk total' created_at' →
         w_nowCheck w ≤ w_nowCheck w' →
         is_Some (fetchTrace (handler w' o r fetchFull' (cacheAfter out))))
  ∧ (cacheAfter out ≠ starCache →
     ∃ trace, fetchTrace out = Some trace
              ∧ eventsOfTrace trace ≠ []
              ∧ cacheAfter out
                = <[cacheKeyOf o r := {| timestamp := w_nowStore w;
                                         data := eventsOfTrace trace |}]> starCache).
Proof.
  intros out. split.
  - intros trace Hrun Hempty.
    pose proof (handler_fetch_run _ _ _ _ _ _ Hrun)
      as (total & created_at & _ & Hmiss & _ & _ & _ & _ & Hcache).
    fold out in Hcache. rewrite Hempty in Hcache. cbn in Hcache.
    split; [done|]. split; [by rewrite Hcache|].
    intros w' fetchFull' total' created_at' Hrepo' Hlater.
    eapply handler_miss_fetches; [exact Hrepo'|].
    rewrite Hcache. by eapply freshEntry_later.
  - intros Hchanged. destruct (cacheAfter_cases w o r fetchFull starCache) as [Hsame|Hput].
    + done.
    + exact Hput.
Qed.

Lemma cache_untouched_sample :
  fetchTrace (handler (noStarsWorld (utc 2024 1 3 0)) "motiadev" "motia" false ∅)
  = Some []
  ∧ cacheAfter (handler (noStarsWorld (utc 2024 1 3 0)) "motiadev" "motia" false ∅) = ∅
  ∧ is_Some (fetchTrace
               (handler (noStarsWorld (utc 2024 1 4 0)) "motiadev" "motia" false
                  (cacheAfter (handler (noStarsWorld (utc 2024 1 3 0))
                                 "motiadev" "motia" false ∅)))).
Proof.
  assert (fetchTrace (handler (noStarsWorld (utc 2024 1 3 0)) "motiadev" "motia" false ∅)
          = Some []) as Hrun by (vm_compute; reflexivity).
  destruct (proj1 (cache_written_only_with_events
                     (noStarsWorld (utc 2024 1 3 0)) "motiadev" "motia" false ∅)
              [] Hrun eq_refl) as (Hsame & _ & Hnext).
  split; [exact Hrun|]. split; [exact Hsame|].
  apply (Hnext (noStarsWorld (utc 2024 1 4 0)) false 0 (utc 2024 1 1 0)).
  - reflexivity.
  - by vm_compute.
Defined.

(** A successful but empty page also triggers the quota request. *)
Example empty_page_triggers_rate_check :
  fetchTrace (handler emptyPageWorld "motiadev" "motia" false ∅)
  = Some [{| be_pages := [1]; be_responses := [OkJson []];
             be_rateCheck := Some (Some 4000) |}].
Proof. by vm_compute. Qed.

(** ** Remaining checks on the loops and the samples *)

Lemma daily_history_dense_sample :
  fixedOffset utcZone
  ∧ jan1 ≤ dateKey (utc 2024 1 3 12)
  ∧ Z.of_nat (length (dailyHistory
                        (buildAnalytics utcZone "motiadev" "motia" partialSample 4 jan1
                           (utc 2024 1 3 12)))) = 3.
Proof.
  assert (jan1 ≤ dateKey (utc 2024 1 3 12)) as Hle by (by vm_compute).
  split; [apply fixedOffset_utc|]. split; [exact Hle|].
  rewrite (proj1 (daily_history_dense utcZone "motiadev" "motia" partialSample 4 jan1
                    (utc 2024 1 3 12) fixedOffset_utc Hle)).
  by vm_compute.
Defined.

(** On any host the hourly loop stops by its own test: more fuel changes
    nothing. *)
Lemma hourlyLoop_fuel_enough (zone : Zone) (today : Z) (m : gmap Z Z) (fuel extra : nat)
    (h : Z) :
  (today - h) / (MS_PER_HOUR / 2) + 1 ≤ Z.of_nat fuel →
  hourlyLoop zone (fuel + extra) h today m = hourlyLoop zone fuel h today m.
Proof.
  revert h. induction fuel as [|fuel IH]; intros h Hf.
  - cbn [Nat.add hourlyLoop]. destruct extra as [|extra]; [done|]. cbn [hourlyLoop].
    destruct (Z.leb_spec h today) as [Hle|]; [|done].
    assert (0 ≤ (today - h) / (MS_PER_HOUR / 2)) by (apply Z.div_pos; [lia|done]). lia.
  - cbn [Nat.add hourlyLoop]. destruct (Z.leb_spec h today) as [Hle|]; [|done].
    f_equal. apply IH. pose proof (addHours_forward zone h) as Hstep.
    change (MS_PER_HOUR / 2) with 1800000 in *.
    assert ((today - addHours zone h 1) / 1800000 ≤ (today - h) / 1800000 - 1); [|lia].
    transitivity ((today - h + (-1) * 1800000) / 1800000).
    + apply Z.div_le_mono; lia.
    + rewrite Z.div_add by done. lia.
Qed.

Lemma buildHourly_fuel_enough (zone : Zone) (sevenDaysAgo today : Z) (m : gmap Z Z)
    (extra : nat) :
  hourlyLoop zone (hourlyFuel sevenDaysAgo today + extra) sevenDaysAgo today m
  = buildHourly zone sevenDaysAgo today m.
Proof.
  unfold buildHourly. apply hourlyLoop_fuel_enough. unfold hourlyFuel.
  destruct (Z.le_gt_cases 0 ((today - sevenDaysAgo) / (MS_PER_HOUR / 2) + 1)); lia.
Qed.

(** The complete-data example: both events of 2024-01-02 observed, reported
    total 2. *)
Example complete_data_example :
  let b := buildAnalytics utcZone "motiadev" "motia" surplusSample 2 jan1 (utc 2024 1 3 0) in
  dailyHistory b = [ {| date := jan1; daily := 0; cumulative := 0 |};
                     {| date := jan2; daily := 2; cumulative := 2 |};
                     {| date := jan3; daily := 0; cumulative := 2 |} ]
  ∧ dataCompleteness b = 100%Q.
Proof. by vm_compute. Qed.

(** Fifty pages in partial mode are all fetched. *)
Example plan_fifty_pages : planPages false 50 = zrange 1 50.
Proof. by vm_compute. Qed.

(** * Further properties of the handler *)

(** ** Rounding to decimals is monotone *)

Lemma mathRound_nonneg (x : Q) : (0 <= x)%Q → 0 ≤ mathRound x.
Proof.
  intros H. rewrite <- (mathRound_inject_Z 0). by apply mathRound_mono.
Qed.

Lemma scaled_round_mono (scale : Z) (x y : Q) :
  0 < scale → (x <= y)%Q →
  mathRound (x * inject_Z scale) ≤ mathRound (y * inject_Z scale).
Proof.
  intros Hs Hxy. apply mathRound_mono, Qmult_le_compat_r; [done|].
  change 0%Q with (inject_Z 0). rewrite <- Zle_Qle. lia.
Qed.

Lemma toFixed_mono (digits : nat) (x y : Q) :
  (x <= y)%Q → (toFixed digits x <= toFixed digits y)%Q.
Proof.
  intros Hxy. unfold toFixed. pose proof (pow10_pos digits) as Hs.
  set (scale := 10 ^ Z.of_nat digits) in *.
  assert (0 <= inject_Z scale)%Q as Hs'.
  { change 0%Q with (inject_Z 0). rewrite <- Zle_Qle. lia. }
  destruct (Qle_bool 0 x) eqn:Hx, (Qle_bool 0 y) eqn:Hy; rewrite !Qred_correct.
  - pose proof (scaled_round_mono scale x y Hs Hxy).
    unfold Qle. cbn [Qnum Qden]. nia.
  - exfalso. apply Qle_bool_iff in Hx. apply not_true_iff_false in Hy. apply Hy.
    apply Qle_bool_iff. by eapply Qle_trans.
  - apply Qle_bool_iff in Hy. apply not_true_iff_false in Hx.
    rewrite Qle_bool_iff in Hx. apply Qnot_le_lt in Hx.
    assert (0 ≤ mathRound (- x * inject_Z scale)) as Ha.
    { apply mathRound_nonneg, Qmult_le_0_compat; [|done].
      apply (Qopp_le_compat x 0). by apply Qlt_le_weak. }
    assert (0 ≤ mathRound (y * inject_Z scale)) as Hb
      by (by apply mathRound_nonneg, Qmult_le_0_compat).
    unfold Qle. cbn [Qnum Qden Qopp]. nia.
  - pose proof (scaled_round_mono scale (- y) (- x) Hs (Qopp_le_compat _ _ Hxy)).
    unfold Qle. cbn [Qnum Qden Qopp]. nia.
Qed.

Lemma toFixed_between (digits : nat) (lo hi : Z) (x : Q) :
  (inject_Z lo <= x)%Q → (x <= inject_Z hi)%Q →
  (inject_Z lo <= toFixed digits x)%Q ∧ (toFixed digits x <= inject_Z hi)%Q.
Proof.
  intros Hlo Hhi. split.
  - rewrite <- (toFixed_inject_Z digits lo). by apply toFixed_mono.
  - rewrite <- (toFixed_inject_Z digits hi). by apply toFixed_mono.
Qed.

Lemma ratio_bounds (a b : Z) :
  0 ≤ a → a ≤ b → 0 < b →
  (0 <= inject_Z a / inject_Z b * 100)%Q ∧ (inject_Z a / inject_Z b * 100 <= 100)%Q.
Proof.
  intros Ha Hab Hb.
  assert (0 < inject_Z b)%Q as Hb' by (change 0%Q with (inject_Z 0); by rewrite <- Zlt_Qlt).
  split.
  - apply Qmult_le_0_compat; [|done]. apply Qle_shift_div_l; [done|].
    rewrite Qmult_0_l. change 0%Q with (inject_Z 0). by rewrite <- Zle_Qle.
  - change 100%Q with (1 * 100)%Q at 2. apply Qmult_le_compat_r; [|done].
    apply Qle_shift_div_r; [done|]. rewrite Qmult_1_l. by rewrite <- Zle_Qle.
Qed.

(** X1. Whenever the observed total does not exceed the reported total, the
    reported completeness lies between 0 and 100; it is exactly 100 when the
    reported total is not positive. *)
Theorem completeness_within_bounds (zone : Zone) (o r : string) (events : list StargazerWithDate)
    (total createdAt0 today : Z) :
  observedTotal zone events createdAt0 today ≤ total →
  let b := buildAnalytics zone o r events total createdAt0 today in
  (0 <= dataCompleteness b)%Q
  ∧ (dataCompleteness b <= 100)%Q
  ∧ (total ≤ 0 → dataCompleteness b = 100%Q).
Proof.
  intros Hle b. unfold b. rewrite dataCompleteness_unfold.
  pose proof (observedTotal_nonneg zone events createdAt0 today) as Hobs.
  unfold completenessOf. destruct (Z.ltb_spec 0 total) as [Hpos|Hzero].
  - destruct (ratio_bounds _ _ Hobs Hle Hpos) as [H0 H100].
    destruct (toFixed_between 1 0 100 _ H0 H100) as [H1 H2].
    split; [exact H1|]. split; [exact H2|]. lia.
  - change 100%Q with (inject_Z 100). rewrite toFixed_inject_Z. done.
Qed.

Lemma completeness_within_bounds_sample :
  observedTotal utcZone partialSample jan1 (utc 2024 1 3 0) ≤ 4
  ∧ (dataCompleteness
       (buildAnalytics utcZone "motiadev" "motia" partialSample 4 jan1 (utc 2024 1 3 0)) <= 100)%Q.
Proof.
  assert (observedTotal utcZone partialSample jan1 (utc 2024 1 3 0) ≤ 4) as Hle
    by (by vm_compute).
  split; [exact Hle|].
  apply (completeness_within_bounds utcZone "motiadev" "motia" partialSample 4 jan1
           (utc 2024 1 3 0) Hle).
Defined.

(** ** What the daily counts add up to *)

Lemma indicator_sum_zero (x : option Z) (l : list Z) :
  (∀ d, d ∈ l → x ≠ Some d) →
  sumZ (map (fun d => if decide (x = Some d) then 1 else 0) l) = 0.
Proof.
  induction l as [|d l IH]; intros Hl; [done|]. cbn.
  rewrite decide_False by (apply Hl; by left).
  apply IH. intros d' Hd'. apply Hl. by right.
Qed.

Lemma indicator_sum_window (sg : StargazerWithDate) (lo hi : Z) :
  sumZ (map (fun d => if decide (dateKey <$> starred_at sg = Some d) then 1 else 0)
          (zrange lo hi))
  = if inWindow lo hi sg then 1 else 0.
Proof.
  unfold inWindow. destruct (starred_at sg) as [t|]; cbn [fmap option_fmap option_map].
  - destruct (Z.leb_spec lo (dateKey t)) as [Hlo|Hlo];
      [destruct (Z.leb_spec (dateKey t) hi) as [Hhi|Hhi]|]; cbn [andb].
    + rewrite (zrange_app lo (dateKey t - 1) hi) by lia.
      replace (dateKey t - 1 + 1) with (dateKey t) by lia.
      rewrite (zrange_cons (dateKey t) hi) by done.
      rewrite map_app, sumZ_app. cbn [map sumZ foldr].
      rewrite decide_True by done.
      fold (sumZ (map (fun d => if decide (Some (dateKey t) = Some d) then 1 else 0)
                    (zrange (dateKey t + 1) hi))).
      rewrite !indicator_sum_zero; [lia| |];
        intros d Hd%zrange_elem [= Heq]; lia.
    + apply indicator_sum_zero. intros d Hd%zrange_elem [= Heq]. lia.
    + apply indicator_sum_zero. intros d Hd%zrange_elem [= Heq]. lia.
  - apply indicator_sum_zero. intros d _. done.
Qed.

Lemma countWhere_cons (p : StargazerWithDate → bool) (sg : StargazerWithDate)
    (events : list StargazerWithDate) :
  countWhere p (sg :: events) = (if p sg then 1 else 0) + countWhere p events.
Proof.
  unfold countWhere. rewrite filter_cons.
  destruct (p sg); [rewrite decide_True by done|rewrite decide_False by done];
    cbn [length]; lia.
Qed.

Lemma countWhere_bounds (p : StargazerWithDate → bool) (events : list StargazerWithDate) :
  0 ≤ countWhere p events ≤ Z.of_nat (length events).
Proof.
  induction events as [|sg events IH]; [done|].
  rewrite countWhere_cons. cbn [length]. destruct (p sg); lia.
Qed.

Lemma countWhere_all (p : StargazerWithDate → bool) (events : list StargazerWithDate) :
  Forall (fun sg => p sg = true) events → countWhere p events = Z.of_nat (length events).
Proof.
  induction 1 as [|sg events Hsg _ IH]; [done|].
  rewrite countWhere_cons, Hsg, IH. cbn [length]. lia.
Qed.

Lemma observedTotal_window (zone : Zone) (events : list StargazerWithDate)
    (createdAt0 today : Z) :
  fixedOffset zone →
  observedTotal zone events createdAt0 today
  = countWhere (inWindow createdAt0 (dateKey today)) events.
Proof.
  intros Hz. rewrite observedTotal_sum by done. induction events as [|sg events IH].
  - induction (zrange createdAt0 (dateKey today)) as [|d l IHl]; [done|].
    cbn [map sumZ foldr]. fold (sumZ (map (fun day => countOn day []) l)).
    rewrite IHl. done.
  - rewrite (map_ext _ (fun day =>
               (if decide (dateKey <$> starred_at sg = Some day) then 1 else 0)
               + countOn day events)) by (intros; apply countOn_cons).
    rewrite (sumZ_map_add
               (fun day => if decide (dateKey <$> starred_at sg = Some day) then 1 else 0)).
    rewrite indicator_sum_window, IH, countWhere_cons. done.
Qed.

Lemma dailyHistory_daily_sum (zone : Zone) (o r : string) (events : list StargazerWithDate)
    (total createdAt0 today : Z) :
  sumZ (map daily (dailyHistory (buildAnalytics zone o r events total createdAt0 today)))
  = observedTotal zone events createdAt0 today.
Proof.
  rewrite dailyHistory_running, scaleHistory_dailies, runningEntries_dailies.
  by rewrite observedTotal_running.
Qed.

(** X2. The daily counts of the history add up to the observed total,
    scaled or not, on any host.  On a host whose offset never changes the
    observed total is the number of events dated from the creation day
    through today's day, so it never exceeds the number of events and equals
    it when every event is dated in that window. *)
Theorem daily_counts_add_up (zone : Zone) (o r : string) (events : list StargazerWithDate)
    (total createdAt0 today : Z) :
  let b := buildAnalytics zone o r events total createdAt0 today in
  sumZ (map daily (dailyHistory b)) = observedTotal zone events createdAt0 today
  ∧ 0 ≤ observedTotal zone events createdAt0 today
  ∧ (fixedOffset zone →
     observedTotal zone events createdAt0 today
     = countWhere (inWindow createdAt0 (dateKey today)) events
     ∧ observedTotal zone events createdAt0 today ≤ Z.of_nat (length events)
     ∧ (Forall (fun sg => inWindow createdAt0 (dateKey today) sg = true) events →
        observedTotal zone events createdAt0 today = Z.of_nat (length events))).
Proof.
  intros b. split; [|split].
  - apply dailyHistory_daily_sum.
  - apply observedTotal_nonneg.
  - intros Hz. split; [|split].
    + by apply observedTotal_window.
    + by apply observedTotal_le_length.
    + intros Hall. rewrite observedTotal_window by done. by apply countWhere_all.
Qed.

Lemma daily_counts_add_up_sample :
  fixedOffset utcZone
  ∧ Forall (fun sg => inWindow jan1 (dateKey (utc 2024 1 3 0)) sg = true) surplusSample
  ∧ observedTotal utcZone surplusSample jan1 (utc 2024 1 3 0) = 2.
Proof.
  assert (Forall (fun sg => inWindow jan1 (dateKey (utc 2024 1 3 0)) sg = true)
            surplusSample) as Hall by (repeat constructor).
  split; [apply fixedOffset_utc|]. split; [exact Hall|].
  apply (daily_counts_add_up utcZone "motiadev" "motia" surplusSample 2 jan1
           (utc 2024 1 3 0)); [apply fixedOffset_utc|exact Hall].
Defined.

(** ** The hourly series *)

Lemma hourKeyOf_shift (h k : Z) : hourKeyOf (h + k * MS_PER_HOUR) = hourKeyOf h + k.
Proof. unfold hourKeyOf. apply Z.div_add. done. Qed.

(** On a host whose offset never changes, the hourly loop that ends within
    the n-th hour after [h] pushes [n] consecutive hours. *)
Lemma hourlyLoop_closed (zone : Zone) (today : Z) (m : gmap Z Z) (n fuel : nat) (h : Z) :
  fixedOffset zone →
  (n ≤ fuel)%nat →
  h + (Z.of_nat n - 1) * MS_PER_HOUR ≤ today < h + Z.of_nat n * MS_PER_HOUR →
  hourlyLoop zone fuel h today m
  = map (fun k => {| hour := hourKeyOf h + Z.of_nat k;
                     stars := getOr0 m (hourKeyOf h + Z.of_nat k) |})
        (seq 0 n).
Proof.
  intros Hz. revert fuel h. induction n as [|n IH]; intros fuel h Hfuel Hn.
  - destruct fuel as [|fuel]; [done|]. cbn [hourlyLoop seq map].
    destruct (Z.leb_spec h today) as [Hle|]; [|done]. unfold MS_PER_HOUR in Hn. lia.
  - destruct fuel as [|fuel]; [lia|]. cbn [hourlyLoop seq map].
    destruct (Z.leb_spec h today) as [_|Hgt].
    + f_equal; [by rewrite Z.add_0_r|].
      rewrite addHours_fixed by done.
      rewrite (IH fuel (h + 1 * MS_PER_HOUR)) by (unfold MS_PER_HOUR in *; lia).
      rewrite <- seq_shift, map_map. apply map_ext. intros k.
      rewrite hourKeyOf_shift. f_equal; [lia|f_equal; lia].
    + unfold MS_PER_HOUR in Hn. lia.
Qed.

Lemma bucket_fold_hour (since : Z) (events : list StargazerWithDate)
    (acc : gmap Z Z * gmap Z Z) (h : Z) :
  getOr0 (snd (foldl (bucketStep since) acc events)) h
  = getOr0 (snd acc) h + countWhere (recentInHour since h) events.
Proof.
  revert acc. induction events as [|sg events IH]; intros acc.
  - cbn. unfold countWhere. cbn. lia.
  - cbn [foldl]. rewrite IH, countWhere_cons. unfold bucketStep, recentInHour.
    destruct (starred_at sg) as [t|]; cbn [snd]; [|lia].
    destruct (Z.leb_spec since t) as [Hin|Hout]; cbn [andb]; [|lia].
    rewrite getOr0_bump. destruct (Z.eqb_spec (hourKeyOf t) h) as [->|Hne].
    + rewrite decide_True by done. lia.
    + rewrite decide_False by done. lia.
Qed.

(** X3. On a host whose offset never changes, the hourly activity has 169
    entries, one per hour from the hour of (today - 7 days) to the hour of
    today, consecutive; each entry counts the events of its hour that are
    not older than (today - 7 days), so an event of the first hour that
    precedes that instant is left out. *)
Theorem hourly_activity_dense (zone : Zone) (o r : string) (events : list StargazerWithDate)
    (total createdAt0 today : Z) :
  fixedOffset zone →
  let b := buildAnalytics zone o r events total createdAt0 today in
  let since := addDays zone today (-7) in
  length (hourlyActivity b) = 169%nat
  ∧ map hour (hourlyActivity b) = zrange (hourKeyOf since) (hourKeyOf today)
  ∧ hourKeyOf today = hourKeyOf since + 168
  ∧ Forall (fun e => stars e = countWhere (recentInHour since (hour e)) events)
      (hourlyActivity b).
Proof.
  intros Hz b since.
  assert (since = today - 7 * MS_PER_DAY) as Hsince
    by (unfold since; rewrite addDays_fixed by done; lia).
  assert (today = since + 168 * MS_PER_HOUR) as Htoday
    by (rewrite Hsince; unfold MS_PER_DAY, MS_PER_HOUR; lia).
  assert (hourKeyOf today = hourKeyOf since + 168) as Hlast
    by (rewrite Htoday at 1; apply hourKeyOf_shift).
  assert (hourlyActivity b
          = map (fun k => {| hour := hourKeyOf since + Z.of_nat k;
                             stars := getOr0 (snd (bucketStars since events))
                                        (hourKeyOf since + Z.of_nat k) |})
                (seq 0 169)) as Hclosed.
  { unfold b, buildAnalytics. cbn [hourlyActivity]. fold since. unfold buildHourly.
    apply hourlyLoop_closed; [done| |].
    - unfold hourlyFuel. rewrite Htoday.
      replace (since + 168 * MS_PER_HOUR - since) with (336 * (MS_PER_HOUR / 2))
        by (change (MS_PER_HOUR / 2) with 1800000; unfold MS_PER_HOUR; lia).
      rewrite Z.div_mul by done. lia.
    - rewrite Htoday. unfold MS_PER_HOUR. lia. }
  rewrite Hclosed. split; [by rewrite length_map, length_seq|].
  split; [|split; [done|]].
  - rewrite map_map. cbn [hour]. rewrite Hlast. unfold zrange.
    by replace (Z.to_nat (hourKeyOf since + 168 - hourKeyOf since + 1)) with 169%nat by lia.
  - apply Forall_forall. intros e (k & -> & _)%list_elem_of_fmap. cbn [stars hour].
    unfold bucketStars. rewrite bucket_fold_hour. done.
Qed.

Lemma hourly_activity_dense_sample :
  fixedOffset utcZone
  ∧ length (hourlyActivity
              (buildAnalytics utcZone "motiadev" "motia" partialSample 4 jan1
                 (utc 2024 1 3 12))) = 169%nat.
Proof.
  split; [apply fixedOffset_utc|].
  apply (hourly_activity_dense utcZone "motiadev" "motia" partialSample 4 jan1
           (utc 2024 1 3 12) fixedOffset_utc).
Defined.

(** On a host that moves its clock forward within the last seven days, the
    hourly activity has one entry less. *)
Example hourly_activity_spring :
  length (hourlyActivity
            (buildAnalytics easternSpring2024 "motiadev" "motia" [] 0 mar8
               (utc 2024 3 12 12))) = 168%nat.
Proof. by vm_compute. Qed.

(** ** Entries of the daily history *)

Lemma dailyHistory_dates (zone : Zone) (o r : string) (events : list StargazerWithDate)
    (total createdAt0 today : Z) :
  fixedOffset zone →
  map date (dailyHistory (buildAnalytics zone o r events total createdAt0 today))
  = zrange createdAt0 (dateKey today).
Proof.
  intros Hz. rewrite dailyHistory_unfold by done.
  rewrite scaleHistory_dates, map_map. cbn [date denseEntry]. apply map_id.
Qed.

(** On any host the dates of the history are those the loop visits. *)
Lemma dailyHistory_visited (zone : Zone) (o r : string) (events : list StargazerWithDate)
    (total createdAt0 today : Z) :
  map date (dailyHistory (buildAnalytics zone o r events total createdAt0 today))
  = visitedDates zone createdAt0 today.
Proof. by rewrite dailyHistory_running, scaleHistory_dates, runningEntries_dates. Qed.

Lemma dailyHistory_entry (zone : Zone) (o r : string) (events : list StargazerWithDate)
    (total createdAt0 today : Z) (i : nat) (e : DailyStar) :
  dailyHistory (buildAnalytics zone o r events total createdAt0 today) !! i = Some e →
  createdAt0 ≤ date e ≤ dateKey today
  ∧ daily e = countOn (date e) events.
Proof.
  intros He.
  assert (map date (dailyHistory (buildAnalytics zone o r events total createdAt0 today))
            !! i = Some (date e)) as Hdate
    by (by rewrite list_lookup_fmap, He).
  rewrite dailyHistory_visited in Hdate.
  pose proof (visitedDates_bounds zone createdAt0 today) as Hb.
  rewrite Forall_lookup in Hb. split; [exact (Hb _ _ Hdate)|].
  rewrite dailyHistory_running in He.
  apply scaleHistory_lookup in He as (e0 & He0 & -> & ->).
  pose proof (runningEntries_entry
                (fst (bucketStars (addDays zone today (-7)) events)) 0
                (visitedDates zone createdAt0 today)) as Hentry.
  rewrite Forall_lookup in Hentry. rewrite (Hentry _ _ He0).
  apply bucketStars_date.
Qed.

Lemma sorted_le_lookup (l : list Z) (i j : nat) (a b : Z) :
  StronglySorted Z.le l → (i < j)%nat → l !! i = Some a → l !! j = Some b → a ≤ b.
Proof.
  intros Hs. revert i j. induction Hs as [|x l Hs IH Hx]; intros i j Hij Ha Hb; [done|].
  destruct j as [|j]; [lia|]. destruct i as [|i].
  - injection Ha as <-. rewrite Forall_lookup in Hx. exact (Hx _ _ Hb).
  - apply (IH i j); [lia|done|done].
Qed.

(** The dates of the history never go back. *)
Lemma dailyHistory_order (zone : Zone) (o r : string) (events : list StargazerWithDate)
    (total createdAt0 today : Z) (i j : nat) (e1 e2 : DailyStar) :
  (i < j)%nat →
  dailyHistory (buildAnalytics zone o r events total createdAt0 today) !! i = Some e1 →
  dailyHistory (buildAnalytics zone o r events total createdAt0 today) !! j = Some e2 →
  date e1 ≤ date e2.
Proof.
  intros Hij H1 H2.
  apply (sorted_le_lookup (visitedDates zone createdAt0 today) i j);
    [apply visitedDates_sorted|done| |];
    rewrite <- (dailyHistory_visited zone o r events total), list_lookup_fmap.
  - by rewrite H1.
  - by rewrite H2.
Qed.

Lemma dailyHistory_cumulative_bounds (zone : Zone) (o r : string)
    (events : list StargazerWithDate) (total createdAt0 today : Z) :
  Forall (fun e => 0 ≤ cumulative e
                   ∧ (observedTotal zone events createdAt0 today ≤ total →
                      cumulative e ≤ total))
    (dailyHistory (buildAnalytics zone o r events total createdAt0 today)).
Proof.
  rewrite dailyHistory_running.
  set (m := fst (bucketStars (addDays zone today (-7)) events)).
  set (c := observedTotal zone events createdAt0 today).
  set (days := visitedDates zone createdAt0 today).
  assert (∀ day, 0 ≤ getOr0 m day) as Hm by (intros day; apply bucketStars_nonneg).
  assert (c = sumZ (map (getOr0 m) days)) as Hc by apply observedTotal_running.
  assert (Forall (fun e => 0 ≤ cumulative e ≤ c) (runningEntries m 0 days)) as Hraw.
  { destruct (runningEntries_bounds m 0 days Hm) as [_ Hall].
    eapply Forall_impl; [exact Hall|]. cbn. intros e He. lia. }
  unfold scaleHistory. destruct ((c <? total) && (0 <? c)) eqn:Hscale.
  - apply andb_true_iff in Hscale as [Hlt%Z.ltb_lt Hpos%Z.ltb_lt].
    apply Forall_fmap. eapply Forall_impl; [exact Hraw|].
    intros e [H0 Hle]. cbn [cumulative setCumulative]. split.
    + rewrite <- (mathRound_inject_Z 0).
      rewrite (mathRound_compat (inject_Z 0) (inject_Z 0 * scaleFactorOf c total))
        by (by rewrite Qmult_0_l).
      apply scale_mono; lia.
    + intros _. rewrite <- (scale_total c total) at 2 by lia.
      apply scale_mono; lia.
  - eapply Forall_impl; [exact Hraw|]. intros e [H0 Hle]. split; [done|]. lia.
Qed.

(** ** The peak day *)

Lemma peak_fold (h : list DailyStar) (best0 : DailyStar) :
  let p := foldl (fun best day => if daily best <? daily day then day else best)
             best0 h in
  (∀ e, e ∈ h → daily e ≤ daily p)
  ∧ ((p = best0 ∧ ∀ e, e ∈ h → daily e ≤ daily best0)
     ∨ (daily best0 < daily p
        ∧ ∃ i, h !! i = Some p
               ∧ ∀ j e, (j < i)%nat → h !! j = Some e → daily e < daily p)).
Proof.
  revert best0. induction h as [|e h IH]; intros best0 p.
  - split; [by intros e Hin%not_elem_of_nil|]. left. split; [done|].
    by intros e Hin%not_elem_of_nil.
  - unfold p. cbn [foldl]. destruct (Z.ltb_spec (daily best0) (daily e)) as [Hlt|Hge].
    + destruct (IH e) as [Hmax Hcase]. cbv zeta in Hmax, Hcase.
      set (q := foldl _ e h) in *.
      assert (daily e ≤ daily q) as Heq.
      { destruct Hcase as [[-> _]|[Hlt' _]]; lia. }
      split.
      * intros e' [->|Hin]%elem_of_cons; [done|by apply Hmax].
      * right. split; [lia|]. destruct Hcase as [[Hq Hall]|[Hlt' (i & Hi & Hbefore)]].
        -- exists O. split; [by rewrite Hq|]. intros j e' Hj. lia.
        -- exists (S i). split; [done|]. intros [|j] e' Hj He'.
           ++ injection He' as <-. done.
           ++ apply (Hbefore j); [lia|done].
    + destruct (IH best0) as [Hmax Hcase]. cbv zeta in Hmax, Hcase.
      set (q := foldl _ best0 h) in *.
      assert (daily best0 ≤ daily q) as Hbq.
      { destruct Hcase as [[-> _]|[Hlt' _]]; lia. }
      split.
      * intros e' [->|Hin]%elem_of_cons; [lia|by apply Hmax].
      * destruct Hcase as [[Hq Hall]|[Hlt' (i & Hi & Hbefore)]].
        -- left. split; [done|]. intros e' [->|Hin]%elem_of_cons; [done|by apply Hall].
        -- right. split; [done|]. exists (S i). split; [done|].
           intros [|j] e' Hj He'.
           ++ injection He' as <-. lia.
           ++ apply (Hbefore j); [lia|done].
Qed.

(** X4. The peak day carries the largest daily count of the history.  When
    no event falls in the history it is the creation day with 0 stars;
    otherwise it is the earliest day reaching that count (every earlier day
    has strictly fewer stars), and its stars are the events of that day. *)
Theorem peak_day_is_earliest_maximum (zone : Zone) (o r : string) (events : list StargazerWithDate)
    (total createdAt0 today : Z) :
  let b := buildAnalytics zone o r events total createdAt0 today in
  let t := trends b in
  Forall (fun e => daily e ≤ peakDay_stars t) (dailyHistory b)
  ∧ ((peakDay_stars t = 0 ∧ peakDay_date t = createdAt0
      ∧ observedTotal zone events createdAt0 today = 0)
     ∨ (0 < peakDay_stars t
        ∧ peakDay_stars t = countOn (peakDay_date t) events
        ∧ createdAt0 ≤ peakDay_date t ≤ dateKey today
        ∧ Forall (fun e => date e < peakDay_date t → daily e < peakDay_stars t)
            (dailyHistory b))).
Proof.
  intros b t.
  pose proof (dailyHistory_daily_nonneg zone o r events total createdAt0 today) as Hnn.
  fold b in Hnn.
  assert (peakDay_stars t = daily (peakOf createdAt0 (dailyHistory b))
          ∧ peakDay_date t = date (peakOf createdAt0 (dailyHistory b))) as [Hs Hd]
    by done.
  rewrite Hs, Hd. unfold peakOf.
  destruct (peak_fold (dailyHistory b) {| date := createdAt0; daily := 0; cumulative := 0 |})
    as [Hmax Hcase]. cbv zeta in Hmax, Hcase.
  set (p := foldl _ _ (dailyHistory b)) in *.
  split; [apply Forall_forall; exact Hmax|].
  destruct Hcase as [[Hp Hall]|[Hpos (i & Hi & Hbefore)]].
  - left. rewrite Hp. cbn [daily date]. split; [done|]. split; [done|].
    rewrite <- (dailyHistory_daily_sum zone o r events total createdAt0 today).
    fold b. rewrite Forall_forall in Hnn.
    assert (∀ l, (∀ e, e ∈ l → daily e = 0) → sumZ (map daily l) = 0) as Hzero.
    { induction l as [|e l IHl]; intros Hl; [done|]. cbn.
      rewrite (Hl e) by (by left). apply IHl. intros e' He'. apply Hl. by right. }
    apply Hzero. intros e He. specialize (Hall e He). specialize (Hnn e He).
    cbn [daily] in Hall. lia.
  - right. cbn [daily] in Hpos. split; [done|].
    destruct (dailyHistory_entry _ _ _ _ _ _ _ _ _ Hi) as (Hrange & Hcount).
    split; [done|]. split; [done|].
    apply Forall_lookup. intros j e Hj Hearlier.
    apply (Hbefore j); [|done].
    destruct (decide (j < i)%nat) as [Hlt|Hge]; [done|]. exfalso.
    destruct (decide (j = i)) as [->|Hne].
    + rewrite Hi in Hj. injection Hj as <-. lia.
    + pose proof (dailyHistory_order zone o r events total createdAt0 today i j p e
                    ltac:(lia) Hi Hj). lia.
Qed.

(** ** Averages and growth *)

Lemma sumZ_bounds (hi : Z) (l : list Z) :
  Forall (fun x => 0 ≤ x ≤ hi) l → 0 ≤ sumZ l ≤ hi * Z.of_nat (length l).
Proof.
  induction 1 as [|x l Hx _ IH]; cbn [sumZ foldr length]; [lia|].
  fold (sumZ l). lia.
Qed.

Lemma average_bounds (hi : Z) (l : list DailyStar) :
  0 ≤ hi → Forall (fun e => 0 ≤ daily e ≤ hi) l →
  (inject_Z 0 <= average (sumDaily l) l)%Q ∧ (average (sumDaily l) l <= inject_Z hi)%Q.
Proof.
  intros Hhi Hl. unfold average. rewrite sumDaily_sumZ.
  assert (0 ≤ sumZ (map daily l) ≤ hi * Z.of_nat (length l)) as [Hs0 Hs1].
  { rewrite <- (length_map daily l). apply sumZ_bounds. by apply Forall_fmap. }
  destruct (Z.ltb_spec 0 (Z.of_nat (length l))) as [Hlen|Hlen].
  - assert (0 < inject_Z (Z.of_nat (length l)))%Q as Hlen'
      by (change 0%Q with (inject_Z 0); by rewrite <- Zlt_Qlt).
    split.
    + apply Qle_shift_div_l; [done|]. rewrite <- inject_Z_mult, <- Zle_Qle. lia.
    + apply Qle_shift_div_r; [done|]. rewrite <- inject_Z_mult, <- Zle_Qle. lia.
  - split; [done|]. change 0%Q with (inject_Z 0). by rewrite <- Zle_Qle.
Qed.

(** X5. The 7-day and 30-day averages lie between 0 and the peak day's
    stars, the velocity is the 7-day average, and with an empty history (no
    day to divide by) both averages are 0. *)
Theorem averages_between_zero_and_peak (zone : Zone) (o r : string)
    (events : list StargazerWithDate) (total createdAt0 today : Z) :
  let b := buildAnalytics zone o r events total createdAt0 today in
  let t := trends b in
  (0 <= avg7d t)%Q ∧ (avg7d t <= inject_Z (peakDay_stars t))%Q
  ∧ (0 <= avg30d t)%Q ∧ (avg30d t <= inject_Z (peakDay_stars t))%Q
  ∧ velocity t = avg7d t
  ∧ (dateKey today < createdAt0 → avg7d t = 0%Q ∧ avg30d t = 0%Q).
Proof.
  intros b t.
  pose proof (dailyHistory_daily_nonneg zone o r events total createdAt0 today) as Hnn.
  fold b in Hnn.
  assert (peakDay_stars t = daily (peakOf createdAt0 (dailyHistory b))) as Hs by done.
  destruct (peak_fold (dailyHistory b) {| date := createdAt0; daily := 0; cumulative := 0 |})
    as [Hmax Hcase]. cbv zeta in Hmax, Hcase.
  fold (peakOf createdAt0 (dailyHistory b)) in Hmax, Hcase. rewrite <- Hs in Hmax, Hcase.
  assert (0 ≤ peakDay_stars t) as Hpeak.
  { destruct Hcase as [[Hp _]|[Hlt _]]; [|cbn [daily] in Hlt; lia].
    rewrite Hs, Hp. done. }
  assert (Forall (fun e => 0 ≤ daily e ≤ peakDay_stars t) (dailyHistory b)) as Hall.
  { rewrite Forall_forall in Hnn. apply Forall_forall. intros e He.
    split; [by apply Hnn|by apply Hmax]. }
  assert (∀ start,
            (0 <= toFixed 2 (average (sumDaily (jsSlice start None (dailyHistory b)))
                               (jsSlice start None (dailyHistory b))))%Q
            ∧ (toFixed 2 (average (sumDaily (jsSlice start None (dailyHistory b)))
                            (jsSlice start None (dailyHistory b)))
               <= inject_Z (peakDay_stars t))%Q) as Havg.
  { intros start. apply (toFixed_between 2 0 (peakDay_stars t)).
    - apply (average_bounds (peakDay_stars t)); [done|by apply jsSlice_Forall].
    - apply (average_bounds (peakDay_stars t)); [done|by apply jsSlice_Forall]. }
  split; [apply (Havg (-7))|]. split; [apply (Havg (-7))|].
  split; [apply (Havg (-30))|]. split; [apply (Havg (-30))|]. split; [done|].
  intros Hfuture.
  assert (dailyHistory b = []) as Hempty.
  { pose proof (dailyHistory_visited zone o r events total createdAt0 today) as Hd.
    fold b in Hd. rewrite visitedDates_future in Hd by done.
    by destruct (dailyHistory b). }
  unfold t, b, buildAnalytics. cbn [trends].
  fold (observedTotal zone events createdAt0 today).
  change (scaleHistory _ _ _) with (dailyHistory b). rewrite Hempty. by vm_compute.
Qed.

Lemma averages_future_sample :
  dateKey (utc 2024 1 1 0) < jan3
  ∧ avg7d (trends (buildAnalytics utcZone "motiadev" "motia" [] 5 jan3 (utc 2024 1 1 0))) = 0%Q.
Proof.
  assert (dateKey (utc 2024 1 1 0) < jan3) as Hlt by (by vm_compute).
  split; [exact Hlt|].
  apply (averages_between_zero_and_peak utcZone "motiadev" "motia" [] 5 jan3
           (utc 2024 1 1 0)).
  exact Hlt.
Defined.

(** X6. When the observed total does not exceed the reported total, the
    growth rate is never negative: the cumulative count that opens the last
    30 days is at most the reported total. *)
Theorem growth_rate_nonnegative (zone : Zone) (o r : string) (events : list StargazerWithDate)
    (total createdAt0 today : Z) :
  observedTotal zone events createdAt0 today ≤ total →
  let b := buildAnalytics zone o r events total createdAt0 today in
  (0 <= growthRate (trends b))%Q
  ∧ Forall (fun e => 0 ≤ cumulative e ≤ total) (dailyHistory b).
Proof.
  intros Hle b.
  pose proof (dailyHistory_cumulative_bounds zone o r events total createdAt0 today) as Hcum.
  fold b in Hcum.
  assert (Forall (fun e => 0 ≤ cumulative e ≤ total) (dailyHistory b)) as Hall.
  { eapply Forall_impl; [exact Hcum|]. intros e [H0 H1]. split; [done|by apply H1]. }
  split; [|done].
  assert (growthRate (trends b)
          = toFixed 2 (growthRateOf total (jsSlice (-30) None (dailyHistory b)))) as ->
    by done.
  change 0%Q with (inject_Z 0). rewrite <- (toFixed_inject_Z 2 0).
  apply toFixed_mono. unfold growthRateOf.
  assert (∀ start, 0 < start → start ≤ total →
            (inject_Z 0 <= inject_Z (total - start) / inject_Z start * 100)%Q) as Hrate.
  { intros start Hpos Hst. apply Qmult_le_0_compat; [|done].
    apply Qle_shift_div_l.
    - change 0%Q with (inject_Z 0). by rewrite <- Zlt_Qlt.
    - rewrite Qmult_0_l. change 0%Q with (inject_Z 0). rewrite <- Zle_Qle. lia. }
  pose proof (jsSlice_Forall _ (-30) None _ Hall) as Hlast.
  destruct (jsSlice (-30) None (dailyHistory b)) as [|d rest].
  - destruct (Z.ltb_spec 0 total); [|done]. apply Hrate; lia.
  - apply Forall_cons in Hlast as [[H0 H1] _].
    destruct (Z.ltb_spec 0 (cumulative d)); [|done]. by apply Hrate.
Qed.

Lemma growth_rate_sample :
  observedTotal utcZone partialSample jan1 (utc 2024 1 3 0) ≤ 4
  ∧ (0 <= growthRate
            (trends (buildAnalytics utcZone "motiadev" "motia" partialSample 4 jan1
                       (utc 2024 1 3 0))))%Q.
Proof.
  assert (observedTotal utcZone partialSample jan1 (utc 2024 1 3 0) ≤ 4) as Hle
    by (by vm_compute).
  split; [exact Hle|].
  apply (growth_rate_nonnegative utcZone "motiadev" "motia" partialSample 4 jan1
           (utc 2024 1 3 0) Hle).
Defined.

(** ** The recent-activity window *)

Lemma zrange_drop (lo hi : Z) (k : nat) :
  drop k (zrange lo hi) = zrange (lo + Z.of_nat k) hi.
Proof.
  revert lo. induction k as [|k IH]; intros lo.
  - rewrite drop_0. f_equal. lia.
  - destruct (Z.le_gt_cases lo hi) as [Hle|Hgt].
    + rewrite zrange_cons by done. cbn [drop]. rewrite IH. f_equal. lia.
    + rewrite !zrange_nil by lia. done.
Qed.

(** X7. The recent activity is the last 30 entries of the daily history
    (all of them when there are fewer).  On a host whose offset never changes
    its dates run from the later of the creation day and (today's day - 29)
    through today's day. *)
Theorem recent_activity_window (zone : Zone) (o r : string) (events : list StargazerWithDate)
    (total createdAt0 today : Z) :
  let b := buildAnalytics zone o r events total createdAt0 today in
  recentActivity b = lastN 30 (dailyHistory b)
  ∧ recentActivity b = drop (length (dailyHistory b) - 30) (dailyHistory b)
  ∧ (length (recentActivity b) ≤ 30)%nat
  ∧ (fixedOffset zone →
     map date (recentActivity b)
     = zrange (Z.max createdAt0 (dateKey today - 29)) (dateKey today)).
Proof.
  intros b.
  assert (recentActivity b = jsSlice (-30) None (dailyHistory b)) as Hdef by done.
  assert (recentActivity b = lastN 30 (dailyHistory b)) as Hlast.
  { rewrite Hdef. change (-30) with (- Z.of_nat 30). apply jsSlice_lastN. lia. }
  assert (recentActivity b = drop (length (dailyHistory b) - 30) (dailyHistory b))
    as Hdrop.
  { rewrite Hlast. unfold lastN. by rewrite firstn_rev, rev_involutive. }
  split; [done|]. split; [done|]. split.
  - rewrite Hdrop, length_drop. lia.
  - intros Hz.
    pose proof (dailyHistory_dates zone o r events total createdAt0 today Hz) as Hdates.
    fold b in Hdates.
    assert (length (dailyHistory b) = Z.to_nat (dateKey today - createdAt0 + 1)) as Hlen.
    { rewrite <- (length_map date), Hdates. apply zrange_length. }
    rewrite Hdrop, <- (skipn_map date), Hdates, zrange_drop, Hlen.
    destruct (Z.le_gt_cases createdAt0 (dateKey today)) as [Hle|Hgt].
    + f_equal. lia.
    + rewrite !zrange_nil by lia. done.
Qed.

(** ** The cache across runs *)

Lemma handler_hit (w : World) (o r : string) (fetchFull : bool)
    (starCache : gmap string CacheEntry) (total created_at : Z) (cached : CacheEntry) :
  w_repo w = RepoOk total created_at →
  freshEntry starCache (cacheKeyOf o r) (w_nowCheck w) = Some cached →
  fetchTrace (handler w o r fetchFull starCache) = None
  ∧ cacheAfter (handler w o r fetchFull starCache) = starCache
  ∧ response (handler w o r fetchFull starCache)
    = Status200 (buildAnalytics (w_zone w) o r (data cached) total (dateKey created_at)
                   (w_today w)).
Proof. intros Hrepo Hfresh. unfold handler. rewrite Hrepo, Hfresh. done. Qed.

Lemma handler_stores (w : World) (o r : string) (fetchFull : bool)
    (starCache : gmap string CacheEntry) (trace : list BatchEvent) :
  fetchTrace (handler w o r fetchFull starCache) = Some trace →
  eventsOfTrace trace ≠ [] →
  cacheAfter (handler w o r fetchFull starCache)
  = <[cacheKeyOf o r := {| timestamp := w_nowStore w; data := eventsOfTrace trace |}]>
      starCache.
Proof.
  intros Hrun Hne.
  apply handler_fetch_run in Hrun as (total & created_at & _ & _ & _ & _ & _ & _ & ->).
  destruct (eventsOfTrace trace); [done|]. done.
Qed.

(** X8. Store then look up: after a run that gathered at least one event,
    any request for the same repository made less than 7 days after the store
    issues no page request, leaves the cache as it is and builds its body from
    the stored events, whatever its [full] flag asks for. *)
Theorem cache_hit_after_store (w w' : World) (o r : string) (fetchFull fetchFull' : bool)
    (starCache : gmap string CacheEntry) (trace : list BatchEvent)
    (total' created_at' : Z) :
  fetchTrace (handler w o r fetchFull starCache) = Some trace →
  eventsOfTrace trace ≠ [] →
  w_repo w' = RepoOk total' created_at' →
  w_nowCheck w' - w_nowStore w < CACHE_TTL →
  let run1 := handler w o r fetchFull starCache in
  let run2 := handler w' o r fetchFull' (cacheAfter run1) in
  cacheAfter run1 !! cacheKeyOf o r
  = Some {| timestamp := w_nowStore w; data := eventsOfTrace trace |}
  ∧ fetchTrace run2 = None
  ∧ cacheAfter run2 = cacheAfter run1
  ∧ response run2
    = Status200 (buildAnalytics (w_zone w') o r (eventsOfTrace trace) total'
                   (dateKey created_at') (w_today w')).
Proof.
  intros Hrun Hne Hrepo' Hyoung run1 run2.
  assert (cacheAfter run1
          = <[cacheKeyOf o r := {| timestamp := w_nowStore w;
                                   data := eventsOfTrace trace |}]> starCache) as Hstore
    by (by apply handler_stores).
  assert (cacheAfter run1 !! cacheKeyOf o r
          = Some {| timestamp := w_nowStore w; data := eventsOfTrace trace |}) as Hlook
    by (rewrite Hstore; apply lookup_insert_eq).
  split; [done|].
  apply (handler_hit w' o r fetchFull' (cacheAfter run1) total' created_at'
           {| timestamp := w_nowStore w; data := eventsOfTrace trace |}); [done|].
  unfold freshEntry. rewrite Hlook. cbn [timestamp].
  by destruct (Z.ltb_spec (w_nowCheck w' - w_nowStore w) CACHE_TTL); [|lia].
Qed.

Lemma cache_hit_after_store_sample :
  fetchTrace (handler (oneStarWorld (utc 2024 1 3 0)) "motiadev" "motia" false ∅)
  = Some oneStarTrace
  ∧ fetchTrace
      (handler (oneStarWorld (utc 2024 1 9 0)) "motiadev" "motia" true
         (cacheAfter (handler (oneStarWorld (utc 2024 1 3 0)) "motiadev" "motia" false ∅)))
    = None.
Proof.
  assert (fetchTrace (handler (oneStarWorld (utc 2024 1 3 0)) "motiadev" "motia" false ∅)
          = Some oneStarTrace) as Hrun by (vm_compute; reflexivity).
  split; [exact Hrun|].
  refine (proj1 (proj2 (cache_hit_after_store
                          (oneStarWorld (utc 2024 1 3 0)) (oneStarWorld (utc 2024 1 9 0))
                          "motiadev" "motia" false true ∅ oneStarTrace
                          1 (utc 2024 1 1 0) Hrun _ eq_refl _))).
  - discriminate.
  - reflexivity.
Defined.

(** X9. A run touches at most the entry of its own repository, and it never
    stores an empty event list: a cache whose entries all hold events keeps
    that property. *)
Theorem cache_run_is_local (w : World) (o r : string) (fetchFull : bool)
    (starCache : gmap string CacheEntry) :
  let out := handler w o r fetchFull starCache in
  (∀ key, key ≠ cacheKeyOf o r → cacheAfter out !! key = starCache !! key)
  ∧ (cacheNonEmpty starCache → cacheNonEmpty (cacheAfter out)).
Proof.
  intros out.
  destruct (cacheAfter_cases w o r fetchFull starCache) as [Hsame|(trace & _ & Hne & Hput)];
    fold out in Hsame || fold out in Hput.
  - rewrite Hsame. done.
  - rewrite Hput. split.
    + intros key Hkey. by rewrite lookup_insert_ne.
    + intros Hinv key entry. rewrite lookup_insert. case_decide as Hk.
      * intros [= <-]. done.
      * apply Hinv.
Qed.

Lemma cache_run_is_local_sample :
  "other/repo" ≠ cacheKeyOf "motiadev" "motia"
  ∧ cacheAfter (handler (oneStarWorld (utc 2024 1 3 0)) "motiadev" "motia" false ∅)
      !! "other/repo" = (∅ : gmap string CacheEntry) !! "other/repo".
Proof.
  assert ("other/repo" ≠ cacheKeyOf "motiadev" "motia") as Hne by discriminate.
  split; [exact Hne|].
  apply (proj1 (cache_run_is_local (oneStarWorld (utc 2024 1 3 0)) "motiadev" "motia"
                  false ∅) "other/repo" Hne).
Defined.

(** X10. An existing entry is used exactly while its age is below 7 days:
    from an age of exactly 7 days on the run fetches again.  The stale entry
    then stays as it is when the fetch gathers nothing, and is replaced, with
    the time of the store, when it gathers events. *)
Theorem cache_entry_expires (w : World) (o r : string) (fetchFull : bool)
    (starCache : gmap string CacheEntry) (total created_at : Z) (entry : CacheEntry) :
  w_repo w = RepoOk total created_at →
  starCache !! cacheKeyOf o r = Some entry →
  let out := handler w o r fetchFull starCache in
  (fetchTrace out = None ↔ w_nowCheck w - timestamp entry < CACHE_TTL)
  ∧ (∀ trace, fetchTrace out = Some trace →
       CACHE_TTL ≤ w_nowCheck w - timestamp entry
       ∧ cacheAfter out !! cacheKeyOf o r
         = Some (match eventsOfTrace trace with
                 | [] => entry
                 | _ :: _ => {| timestamp := w_nowStore w; data := eventsOfTrace trace |}
                 end)).
Proof.
  intros Hrepo Hentry out.
  destruct (Z.ltb_spec (w_nowCheck w - timestamp entry) CACHE_TTL) as [Hyoung|Hold].
  - assert (freshEntry starCache (cacheKeyOf o r) (w_nowCheck w) = Some entry) as Hfresh.
    { unfold freshEntry. rewrite Hentry.
      by destruct (Z.ltb_spec (w_nowCheck w - timestamp entry) CACHE_TTL); [|lia]. }
    destruct (handler_hit w o r fetchFull starCache total created_at entry Hrepo Hfresh)
      as (Hnone & _). fold out in Hnone.
    split; [done|]. intros trace Hrun. congruence.
  - assert (freshEntry starCache (cacheKeyOf o r) (w_nowCheck w) = None) as Hmiss.
    { unfold freshEntry. rewrite Hentry.
      by destruct (Z.ltb_spec (w_nowCheck w - timestamp entry) CACHE_TTL); [lia|]. }
    destruct (handler_miss_fetches w o r fetchFull starCache total created_at Hrepo Hmiss)
      as [trace0 Htrace0]. fold out in Htrace0.
    split; [split; [congruence|lia]|].
    intros trace Hrun. split; [done|].
    destruct (eventsOfTrace trace) as [|sg rest] eqn:Hev.
    + destruct (handler_fetch_run _ _ _ _ _ _ Hrun)
        as (total' & created' & _ & _ & _ & _ & _ & _ & Hcache).
      fold out in Hcache. rewrite Hcache, Hev. done.
    + rewrite <- Hev. unfold out. rewrite (handler_stores _ _ _ _ _ _ Hrun) by congruence.
      apply lookup_insert_eq.
Qed.

Lemma cache_entry_expires_sample :
  w_repo (noStarsWorld (utc 2024 1 10 0)) = RepoOk 0 (utc 2024 1 1 0)
  ∧ ¬ (fetchTrace
         (handler (noStarsWorld (utc 2024 1 10 0)) "motiadev" "motia" false
            {[ cacheKeyOf "motiadev" "motia"
               := {| timestamp := utc 2024 1 3 0; data := partialSample |} ]}) = None).
Proof.
  split; [reflexivity|].
  intros Hnone.
  apply (proj1 (cache_entry_expires (noStarsWorld (utc 2024 1 10 0)) "motiadev" "motia"
                  false
                  {[ cacheKeyOf "motiadev" "motia"
                     := {| timestamp := utc 2024 1 3 0; data := partialSample |} ]}
                  0 (utc 2024 1 1 0)
                  {| timestamp := utc 2024 1 3 0; data := partialSample |}
                  eq_refl (lookup_singleton_eq _ _))) in Hnone.
  by vm_compute in Hnone.
Defined.

(** ** The request budget *)

Section BatchBudget.
Variable fetchPage : Z → PageResponse.
Variable fetchRemaining : nat → option Z.
Variable pages : list Z.

Lemma batchLoop_budget (fuel : nat) (i : Z) (st : FetchState) :
  budgetInv fetchRemaining pages i st →
  Z.of_nat (length pages) - i ≤ Z.of_nat fuel →
  budgetPost fetchRemaining pages (batchLoop fetchPage fetchRemaining fuel pages i st).
Proof.
  revert i st. induction fuel as [|fuel IH]; intros i st Hinv Hfuel.
  { destruct Hinv as (Hi & Hpre & Hsize & _ & Hread & Hcount).
    cbn [batchLoop]. split; [done|]. split; [done|]. split; [done|]. left.
    rewrite Hpre. apply take_ge. lia. }
  cbn [batchLoop]. destruct Hinv as (Hi & Hpre & Hsize & Hnostop & Hread & Hcount).
  destruct (Z.ltb_spec i (Z.of_nat (length pages))) as [Hlt|Hge].
  2:{ split; [done|]. split; [done|]. split; [done|]. left.
      rewrite Hpre. apply take_ge. lia. }
  assert (0 ≤ i) as Hi0 by lia.
  rewrite jsSlice_batch by done.
  set (batch := take 10 (drop (Z.to_nat i) pages)).
  set (responses := map fetchPage batch).
  assert (take (Z.to_nat i) pages ++ batch = take (Z.to_nat (i + BATCH_SIZE)) pages)
    as Hprefix.
  { unfold batch, BATCH_SIZE. rewrite take_take_drop. f_equal. lia. }
  assert (1 ≤ length batch ≤ 10)%nat as Hbatch.
  { unfold batch. rewrite length_take, length_drop. lia. }
  assert (∀ rc, concat (map be_pages (fs_trace st ++
                   [{| be_pages := batch; be_responses := responses;
                       be_rateCheck := rc |}]))
                = take (Z.to_nat (i + BATCH_SIZE)) pages) as Hpre'.
  { intros rc. rewrite map_app, concat_app. cbn [map concat be_pages].
    by rewrite app_nil_r, Hpre. }
  assert (∀ rc, Forall batchSized (fs_trace st ++
                   [{| be_pages := batch; be_responses := responses;
                       be_rateCheck := rc |}])) as Hsize'.
  { intros rc. apply Forall_app. split; [done|]. by constructor. }
  assert (∀ rc, 10 * Z.of_nat (length (fs_trace st ++
                   [{| be_pages := batch; be_responses := responses;
                       be_rateCheck := rc |}]))
                < Z.of_nat (length pages) + 10) as Hcount'.
  { intros rc. rewrite length_app. cbn [length]. lia. }
  assert (∀ rc, i + BATCH_SIZE
                = 10 * Z.of_nat (length (fs_trace st ++
                   [{| be_pages := batch; be_responses := responses;
                       be_rateCheck := rc |}]))) as Hi'.
  { intros rc. rewrite length_app. cbn [length]. unfold BATCH_SIZE. lia. }
  destruct (existsb isEmptyArray (map pageStars responses)).
  - assert (Forall (rateCheckRead fetchRemaining)
              (fs_trace st ++
                 [{| be_pages := batch; be_responses := responses;
                     be_rateCheck := Some (fetchRemaining (fs_rateChecks st)) |}]))
      as Hread'.
    { apply Forall_app. split; [done|]. constructor; [|done].
      unfold rateCheckRead. cbn. by eexists. }
    destruct (belowFloor (fetchRemaining (fs_rateChecks st))) eqn:Hfloor.
    + split; [apply Hsize'|]. split; [exact Hread'|]. split; [apply Hcount'|].
      right. eexists. cbn [fs_trace]. split; [apply last_snoc|].
      unfold stopsAfter. cbn. exact Hfloor.
    + apply IH; [|unfold BATCH_SIZE; lia].
      split; [apply Hi'|]. split; [apply Hpre'|]. split; [apply Hsize'|].
      split; [|split; [exact Hread'|apply Hcount']].
      apply Forall_app. split; [done|]. constructor; [|done].
      unfold stopsAfter. cbn. exact Hfloor.
  - apply IH; [|unfold BATCH_SIZE; lia].
    split; [apply Hi'|]. split; [apply Hpre'|]. split; [apply Hsize'|].
    split; [|split; [|apply Hcount']].
    + apply Forall_app. split; [done|]. by constructor.
    + apply Forall_app. split; [done|]. constructor; [|done]. by unfold rateCheckRead.
Qed.

Lemma fetchAll_budget :
  budgetPost fetchRemaining pages (fetchAll fetchPage fetchRemaining pages).
Proof.
  unfold fetchAll. apply batchLoop_budget; [|lia].
  split; [done|]. split; [done|]. split; [done|]. split; [done|]. split; [done|].
  cbn. lia.
Qed.
End BatchBudget.

Lemma plan_sorted (fetchFull : bool) (total : Z) :
  StronglySorted Z.lt (pagesToFetch fetchFull total).
Proof.
  unfold pagesToFetch. rewrite planPages_closed.
  destruct (fetchFull || (totalPagesOf total <=? 100)) eqn:Hmode.
  - apply zrange_sorted.
  - apply orb_false_iff in Hmode as [_ Hbig%Z.leb_gt].
    apply sorted_app_lt; [apply zrange_sorted..|].
    intros x y Hx%zrange_elem Hy%zrange_elem. lia.
Qed.

Lemma plan_length (fetchFull : bool) (total : Z) :
  (length (pagesToFetch fetchFull total) ≤ Z.to_nat (totalPagesOf total))%nat
  ∧ (fetchFull = false → (length (pagesToFetch fetchFull total) ≤ 100)%nat).
Proof.
  unfold pagesToFetch. rewrite planPages_closed.
  destruct fetchFull; cbn [orb].
  - rewrite zrange_length. split; [lia|done].
  - destruct (Z.leb_spec (totalPagesOf total) 100) as [Hle|Hgt].
    + rewrite zrange_length. split; lia.
    + rewrite length_app, !zrange_length. split; lia.
Qed.

(** X11. In a run that fetches, every batch requests between 1 and 10 pages,
    the pages requested are a prefix of the plan without repetition, and there
    are at most ceil(plan / 10) batches, each followed by at most one
    rate_limit request.  Without the [full] flag this means at most 100 page
    requests in at most 10 batches, whatever the size of the repository. *)
Theorem request_budget (w : World) (o r : string) (fetchFull : bool)
    (starCache : gmap string CacheEntry) (trace : list BatchEvent) :
  fetchTrace (handler w o r fetchFull starCache) = Some trace →
  ∃ total created_at,
    w_repo w = RepoOk total created_at
    ∧ Forall (fun ev => (1 ≤ length (be_pages ev) ≤ 10)%nat) trace
    ∧ (∃ k, concat (map be_pages trace) = take k (pagesToFetch fetchFull total))
    ∧ NoDup (concat (map be_pages trace))
    ∧ 10 * Z.of_nat (length trace)
      < Z.of_nat (length (pagesToFetch fetchFull total)) + 10
    ∧ (length (concat (map be_pages trace)) ≤ Z.to_nat (totalPagesOf total))%nat
    ∧ (fetchFull = false →
       (length (concat (map be_pages trace)) ≤ 100)%nat ∧ (length trace ≤ 10)%nat).
Proof.
  intros Hrun.
  apply handler_fetch_run in Hrun
    as (total & created_at & Hrepo & _ & Hpost & -> & _).
  destruct Hpost as (_ & _ & _ & (k & Hprefix)).
  pose proof (fetchAll_budget (w_page w) (w_remaining w) (pagesToFetch fetchFull total))
    as (Hsize & _ & Hcount & _).
  pose proof (plan_length fetchFull total) as [Hlen Hpartial].
  exists total, created_at. split; [done|]. split; [exact Hsize|].
  split; [by exists k|]. split.
  { rewrite Hprefix. eapply sublist_NoDup; [|apply sublist_take].
    apply sorted_lt_NoDup, plan_sorted. }
  split; [exact Hcount|]. split.
  { rewrite Hprefix, length_take. lia. }
  intros Hmode. specialize (Hpartial Hmode). split.
  - rewrite Hprefix, length_take. lia.
  - lia.
Qed.

Lemma request_budget_sample :
  fetchTrace (handler rateLimitedWorld "motiadev" "motia" false ∅)
  = Some [rateLimitedBatch]
  ∧ ∃ total created_at, w_repo rateLimitedWorld = RepoOk total created_at.
Proof.
  assert (fetchTrace (handler rateLimitedWorld "motiadev" "motia" false ∅)
          = Some [rateLimitedBatch]) as Hrun by (vm_compute; reflexivity).
  split; [exact Hrun|].
  destruct (request_budget rateLimitedWorld "motiadev" "motia" false ∅
              [rateLimitedBatch] Hrun) as (total & created_at & Hrepo & _).
  by exists total, created_at.
Defined.

(** X12. When no reading of the quota is below 10 (an undefined reading
    counts as not below), the run requests every planned page exactly once,
    in plan order, and gathers what those pages hold; failed pages count for
    nothing and do not stop it. *)
Theorem full_coverage_without_stop (w : World) (o r : string) (fetchFull : bool)
    (starCache : gmap string CacheEntry) (trace : list BatchEvent) :
  fetchTrace (handler w o r fetchFull starCache) = Some trace →
  (∀ k, belowFloor (w_remaining w k) = false) →
  ∃ total created_at,
    w_repo w = RepoOk total created_at
    ∧ concat (map be_pages trace) = pagesToFetch fetchFull total
    ∧ eventsOfTrace trace
      = concat (map (fun p => pageStars (w_page w p)) (pagesToFetch fetchFull total)).
Proof.
  intros Hrun Hquota.
  apply handler_fetch_run in Hrun
    as (total & created_at & Hrepo & _ & Hpost & -> & _).
  destruct Hpost as (_ & Hrec & _).
  pose proof (fetchAll_budget (w_page w) (w_remaining w) (pagesToFetch fetchFull total))
    as (_ & Hread & _ & Hend).
  exists total, created_at. split; [done|].
  assert (concat (map be_pages
                    (fs_trace (fetchAll (w_page w) (w_remaining w)
                                 (pagesToFetch fetchFull total))))
          = pagesToFetch fetchFull total) as Hall.
  { destruct Hend as [Hall|(ev & Hlast & Hstop)]; [done|]. exfalso.
    apply last_Some in Hlast as (rest & Hlast). rewrite Hlast in Hread.
    apply Forall_app in Hread as [_ Hev]. apply Forall_cons in Hev as [Hev _].
    unfold stopsAfter in Hstop. unfold rateCheckRead in Hev.
    destruct (be_rateCheck ev) as [remaining|]; [|done].
    destruct Hev as (k & ->). rewrite Hquota in Hstop. done. }
  split; [exact Hall|]. rewrite (eventsOfTrace_pages _ _ Hrec), Hall. done.
Qed.

Lemma full_coverage_sample :
  fetchTrace (handler (oneStarWorld (utc 2024 1 3 0)) "motiadev" "motia" false ∅)
  = Some oneStarTrace
  ∧ ∃ total created_at,
      w_repo (oneStarWorld (utc 2024 1 3 0)) = RepoOk total created_at
      ∧ concat (map be_pages oneStarTrace) = pagesToFetch false total.
Proof.
  assert (fetchTrace (handler (oneStarWorld (utc 2024 1 3 0)) "motiadev" "motia" false ∅)
          = Some oneStarTrace) as Hrun by (vm_compute; reflexivity).
  split; [exact Hrun|].
  destruct (full_coverage_without_stop (oneStarWorld (utc 2024 1 3 0)) "motiadev" "motia"
              false ∅ oneStarTrace Hrun (fun _ => eq_refl))
    as (total & created_at & Hrepo & Hpages & _).
  by exists total, created_at.
Defined.

(** ** Which status a run answers with *)

Lemma includes_after_prefix (statusText : string) :
  includes "rate limit" ("Failed to fetch repo: " +:+ statusText)
  = includes "rate limit" statusText.
Proof.
  unfold includes. cbv [String.append]. cbn.
  destruct (String.index 0 "rate limit" statusText); reflexivity.
Qed.

(** X13. When the repository summary request answers with a status that is
    not ok, no page is requested and the cache is untouched; the run answers
    with the 403 message exactly when the status text contains "rate limit",
    and otherwise with a 500 that carries "Failed to fetch repo: " followed
    by the status text. *)
Theorem response_status (w : World) (o r : string) (fetchFull : bool)
    (starCache : gmap string CacheEntry) (statusText : string) :
  w_repo w = RepoNotOk statusText →
  let out := handler w o r fetchFull starCache in
  fetchTrace out = None
  ∧ cacheAfter out = starCache
  ∧ response out
    = (if includes "rate limit" statusText
       then Status403 "GitHub API rate limit exceeded. Please provide a token."
       else Status500 ("Failed to fetch repo: " +:+ statusText))
  ∧ (includes "rate limit" statusText = true ↔ ∃ message, response out = Status403 message).
Proof.
  intros Hrepo out. unfold out, handler. rewrite Hrepo.
  cbn [response cacheAfter fetchTrace]. rewrite includes_after_prefix.
  split; [done|]. split; [done|]. split; [done|].
  destruct (includes "rate limit" statusText); split; try done.
  - by eexists.
  - by intros [message Hm].
Qed.

Lemma response_status_sample :
  w_repo (repoFailureWorld "rate limit exceeded") = RepoNotOk "rate limit exceeded"
  ∧ response (handler (repoFailureWorld "rate limit exceeded") "motiadev" "motia" false ∅)
    = Status403 "GitHub API rate limit exceeded. Please provide a token.".
Proof.
  split; [reflexivity|].
  destruct (response_status (repoFailureWorld "rate limit exceeded")
              "motiadev" "motia" false ∅ "rate limit exceeded" eq_refl)
    as (_ & _ & Hresp & _).
  exact Hresp.
Defined.

(** * The callers of the handler *)

(** ** The chart *)

Lemma jsSlice_short {A : Type} (n : Z) (l : list A) :
  0 < n → Z.of_nat (length l) ≤ n → jsSlice (- n) None l = l.
Proof.
  intros Hn Hlen. unfold jsSlice.
  destruct (Z.ltb_spec (- n) 0) as [_|]; [|lia].
  replace (Z.to_nat (Z.max (Z.of_nat (length l) + - n) 0)) with O by lia.
  rewrite drop_0. apply take_ge. lia.
Qed.

Lemma recentActivity_short (zone : Zone) (o r : string) (events : list StargazerWithDate)
    (total createdAt0 today : Z) :
  (length (recentActivity (buildAnalytics zone o r events total createdAt0 today)) ≤ 30)%nat.
Proof.
  change (recentActivity (buildAnalytics zone o r events total createdAt0 today))
    with (jsSlice (-30) None
            (dailyHistory (buildAnalytics zone o r events total createdAt0 today))).
  unfold jsSlice. rewrite length_take, length_drop.
  destruct (Z.ltb_spec (-30) 0); lia.
Qed.

(** X14. The chart shows at most 30 days: for each of the selectable ranges
    (30, 60 and 90 days, and any range of at least 30) the charted data is the
    whole recent activity the handler returned, so the 60-day and 90-day
    ranges chart the same bars as the 30-day one. *)
Theorem chart_shows_recent_activity (zone : Zone) (o r : string) (events : list StargazerWithDate)
    (total createdAt0 today timeRange : Z) :
  30 ≤ timeRange →
  let b := buildAnalytics zone o r events total createdAt0 today in
  chartData (Some b) timeRange = recentActivity b
  ∧ chartData (Some b) timeRange = chartData (Some b) 30
  ∧ (length (chartData (Some b) timeRange) ≤ 30)%nat.
Proof.
  intros Hrange b.
  pose proof (recentActivity_short zone o r events total createdAt0 today) as Hshort.
  fold b in Hshort.
  assert (∀ n, 30 ≤ n → chartData (Some b) n = recentActivity b) as Hall.
  { intros n Hn. unfold chartData. apply jsSlice_short; lia. }
  split; [by apply Hall|]. split; [by rewrite !Hall by lia|].
  by rewrite Hall.
Qed.

Lemma chart_shows_recent_activity_sample :
  30 ≤ 90
  ∧ chartData (Some (buildAnalytics utcZone "motiadev" "motia" partialSample 4 jan1
                       (utc 2024 1 3 0))) 90
    = chartData (Some (buildAnalytics utcZone "motiadev" "motia" partialSample 4 jan1
                         (utc 2024 1 3 0))) 30.
Proof.
  assert (30 ≤ 90) as Hle by lia.
  split; [exact Hle|].
  apply (chart_shows_recent_activity utcZone "motiadev" "motia" partialSample 4 jan1
           (utc 2024 1 3 0) 90 Hle).
Defined.

Lemma maxDailyStars_spec (chart : list DailyStar) :
  1 ≤ maxDailyStars chart
  ∧ Forall (fun d => daily d ≤ maxDailyStars chart) chart
  ∧ (maxDailyStars chart = 1 ∨ ∃ d, d ∈ chart ∧ daily d = maxDailyStars chart).
Proof.
  unfold maxDailyStars. induction chart as [|d chart (IH1 & IH2 & IH3)].
  - cbn. split; [lia|]. split; [constructor|by left].
  - cbn [map foldr]. set (m := foldr Z.max 1 (map daily chart)) in *.
    split; [lia|]. split.
    + constructor; [lia|]. eapply Forall_impl; [exact IH2|]. intros e He. cbn in He. lia.
    + destruct (Z.max_spec (daily d) m) as [[Hlt ->]|[Hge ->]].
      * destruct IH3 as [H1|(e & He & Hd)]; [by left|].
        right. exists e. split; [by right|done].
      * right. exists d. split; [by left|done].
Qed.

Lemma filter_date_none (peak : Z) (l : list DailyStar) :
  peak ∉ map date l → filter (fun day => (date day =? peak) = true) l = [].
Proof.
  induction l as [|e l IH]; intros Hout; [done|].
  rewrite filter_cons, decide_False.
  - apply IH. intros Hin. apply Hout. cbn [map]. by right.
  - intros Hpeak%Z.eqb_eq. apply Hout. cbn [map]. rewrite Hpeak. by left.
Qed.

Lemma filter_date_unique (peak : Z) (l : list DailyStar) :
  NoDup (map date l) →
  (length (filter (fun day => (date day =? peak)%Z = true) l) ≤ 1)%nat.
Proof.
  induction l as [|d l IH]; intros Hnd; [cbn; lia|].
  cbn [map] in Hnd. apply NoDup_cons in Hnd as [Hd Hnd]. rewrite filter_cons.
  destruct (Z.eqb_spec (date d) peak) as [Heq|Hne].
  - rewrite decide_True by done. cbn [length].
    rewrite filter_date_none by (by rewrite <- Heq). done.
  - rewrite decide_False by done. by apply IH.
Qed.

(** X15. The scale of the chart is at least 1, so no bar height divides by
    zero; every bar of the charted data has a height between 0 and 100, is
    drawn at least 2 high, and a day that reaches the scale gets exactly 100.
    When the handler ran on a host whose offset never changes, at most one
    bar is highlighted as the peak day. *)
Theorem chart_bar_heights (zone : Zone) (o r : string) (events : list StargazerWithDate)
    (total createdAt0 today timeRange : Z) :
  let b := buildAnalytics zone o r events total createdAt0 today in
  let chart := chartData (Some b) timeRange in
  1 ≤ maxDailyStars chart
  ∧ Forall (fun day =>
              (0 <= barHeight day (maxDailyStars chart))%Q
              ∧ (barHeight day (maxDailyStars chart) <= 100)%Q
              ∧ (2 <= barStyleHeight (barHeight day (maxDailyStars chart)))%Q
              ∧ (barStyleHeight (barHeight day (maxDailyStars chart)) <= 100)%Q
              ∧ (daily day = maxDailyStars chart →
                 (barHeight day (maxDailyStars chart) == 100)%Q))
      chart
  ∧ (fixedOffset zone →
     (length (filter (fun day => isPeak b day = true) chart) ≤ 1)%nat).
Proof.
  intros b chart.
  destruct (maxDailyStars_spec chart) as (Hone & Hmax & _).
  assert (Forall (fun e => 0 ≤ daily e) chart) as Hnn.
  { unfold chart, chartData. apply jsSlice_Forall.
    change (recentActivity b) with (jsSlice (-30) None (dailyHistory b)).
    apply jsSlice_Forall, dailyHistory_daily_nonneg. }
  split; [done|]. split.
  - rewrite Forall_forall in Hnn, Hmax. apply Forall_forall. intros day Hday.
    specialize (Hnn day Hday). specialize (Hmax day Hday).
    destruct (ratio_bounds (daily day) (maxDailyStars chart)) as [H0 H100]; [lia..|].
    fold (barHeight day (maxDailyStars chart)) in H0, H100.
    split; [done|]. split; [done|]. unfold barStyleHeight.
    destruct (Qle_bool (barHeight day (maxDailyStars chart)) 2) eqn:Hsmall.
    + split; [done|]. split; [done|]. intros Heq. unfold barHeight. rewrite Heq.
      unfold Qdiv. rewrite Qmult_inv_r; [done|].
      intros Hz. apply (inject_Z_injective (maxDailyStars chart) 0) in Hz. lia.
    + split.
      * apply not_true_iff_false in Hsmall. rewrite Qle_bool_iff in Hsmall.
        by apply Qlt_le_weak, Qnot_le_lt.
      * split; [done|]. intros Heq. unfold barHeight. rewrite Heq.
        unfold Qdiv. rewrite Qmult_inv_r; [done|].
        intros Hz. apply (inject_Z_injective (maxDailyStars chart) 0) in Hz. lia.
  - intros Hz. assert (NoDup (map date chart)) as Hnd.
    { assert (chart `sublist_of` dailyHistory b) as Hsub.
      { unfold chart, chartData, jsSlice.
        etrans; [apply sublist_take|]. etrans; [apply sublist_drop|].
        change (recentActivity b) with (jsSlice (-30) None (dailyHistory b)).
        unfold jsSlice. etrans; [apply sublist_take|]. apply sublist_drop. }
      assert (NoDup (map date (dailyHistory b))) as Hall.
      { unfold b. rewrite dailyHistory_dates by done.
        apply sorted_lt_NoDup, zrange_sorted. }
      eapply sublist_NoDup; [exact Hall|]. by apply (fmap_sublist date). }
    unfold isPeak. by apply filter_date_unique.
Qed.

(** On a host that repeats a date, both entries of the date are highlighted
    when it is the peak day. *)
Example chart_two_peak_bars :
  let b := buildAnalytics easternSpring2024 "motiadev" "motia"
             [starAt (utc 2024 3 10 12)] 1 mar8 (utc 2024 3 12 12) in
  length (filter (fun day => isPeak b day = true) (chartData (Some b) 30)) = 2%nat.
Proof. by vm_compute. Qed.

(** ** The [full] flag from the client to the planner *)

Lemma queryParam_full (token : option string) (fullHistory : JsArg) :
  queryParam "full" (starAnalyticsParams token fullHistory)
  = if truthy fullHistory then Some "true" else None.
Proof.
  unfold starAnalyticsParams. destruct token as [t|]; cbn [app].
  - destruct (String.eqb t ""); cbn [app queryParam]; [by destruct (truthy _)|].
    change (String.eqb "token" "full") with false. cbn iota.
    by destruct (truthy _).
  - by destruct (truthy _).
Qed.

(** X16. The handler reads the [full] flag as the client sent it:
    [fetchFull] is the truthiness of the [fullHistory] argument, whatever the
    token.  The component passes its time range (30, 60 or 90) in that place,
    so each of its requests plans the full scan [1..totalPages], however
    large the repository. *)
Theorem full_flag_round_trip (token : option string) :
  (∀ fullHistory, fetchFullOf (starAnalyticsParams token fullHistory) = truthy fullHistory)
  ∧ (∀ b, fetchFullOf (starAnalyticsParams token (ArgBool b)) = b)
  ∧ fetchFullOf (starAnalyticsParams token ArgUndefined) = false
  ∧ (∀ timeRange total,
       timeRange ≠ 0 →
       fetchFullOf (componentParams token timeRange) = true
       ∧ pagesToFetch (fetchFullOf (componentParams token timeRange)) total
         = zrange 1 (totalPagesOf total)).
Proof.
  assert (∀ fullHistory,
            fetchFullOf (starAnalyticsParams token fullHistory) = truthy fullHistory)
    as Hflag.
  { intros fullHistory. unfold fetchFullOf. rewrite queryParam_full.
    by destruct (truthy fullHistory). }
  split; [exact Hflag|]. split; [intros b; apply Hflag|]. split; [apply Hflag|].
  intros timeRange total Hrange. unfold componentParams. rewrite Hflag.
  assert (truthy (ArgNumber timeRange) = true) as ->.
  { cbn. by destruct (Z.eqb_spec timeRange 0). }
  split; [done|]. unfold pagesToFetch. by rewrite planPages_closed.
Qed.

Lemma full_flag_component_sample :
  60 ≠ 0
  ∧ pagesToFetch (fetchFullOf (componentParams (Some "ghp_token") 60)) 25000
    = zrange 1 (totalPagesOf 25000).
Proof.
  assert (60 ≠ 0) as Hne by lia.
  split; [exact Hne|].
  apply (proj2 (proj2 (proj2 (full_flag_round_trip (Some "ghp_token")))) 60 25000 Hne).
Defined.

(** * The contributions handler *)

(** ** Substrings *)

Lemma substring_skip (pre s : string) (n : nat) :
  String.substring (String.length pre) n (pre +:+ s) = String.substring 0 n s.
Proof.
  induction pre as [|c pre IH]; [done|].
  change (String c pre +:+ s) with (String c (pre +:+ s)).
  cbn [String.length String.substring]. exact IH.
Qed.

Lemma substring_prefix (p post : string) :
  String.substring 0 (String.length p) (p +:+ post) = p.
Proof.
  induction p as [|c p IH].
  - by destruct post.
  - change (String c p +:+ post) with (String c (p +:+ post)).
    cbn [String.length String.substring]. by rewrite IH.
Qed.

Lemma substring_head_split (n : nat) (s t : string) :
  String.substring 0 n s = t → String.length t = n → ∃ post, s = t +:+ post.
Proof.
  revert s t. induction n as [|n IH]; intros s t Hsub Hlen.
  - destruct t; [|done]. by exists s.
  - destruct s as [|c s]; cbn in Hsub.
    + subst t. done.
    + destruct t as [|c' t]; [done|]. injection Hsub as -> Hsub.
      destruct (IH s t Hsub) as [post ->]; [by injection Hlen|].
      by exists post.
Qed.

Lemma substring_split (m n : nat) (s t : string) :
  String.substring m n s = t → String.length t = n → ∃ pre post, s = pre +:+ t +:+ post.
Proof.
  revert s. induction m as [|m IH]; intros s Hsub Hlen.
  - destruct (substring_head_split n s t Hsub Hlen) as [post ->].
    by exists EmptyString, post.
  - destruct s as [|c s].
    + assert (t = EmptyString) as -> by (by destruct n; cbn in Hsub).
      by exists EmptyString, EmptyString.
    + cbn in Hsub. destruct (IH s Hsub Hlen) as (pre & post & ->).
      by exists (String c pre), post.
Qed.

Lemma includes_intro (needle pre post : string) :
  needle ≠ EmptyString → includes needle (pre +:+ needle +:+ post) = true.
Proof.
  intros Hne. unfold includes.
  destruct (String.index 0 needle (pre +:+ needle +:+ post)) eqn:Hidx; [done|].
  exfalso. apply (String.index_correct3 0 (String.length pre) _ _ Hidx Hne); [lia|].
  rewrite substring_skip. apply substring_prefix.
Qed.

Lemma includes_elim (needle s : string) :
  includes needle s = true → ∃ pre post, s = pre +:+ needle +:+ post.
Proof.
  unfold includes. destruct (String.index 0 needle s) as [m|] eqn:Hidx; [|done].
  intros _. apply String.index_correct1 in Hidx. by eapply substring_split.
Qed.

Lemma endsWith_includes (suffix s : string) :
  suffix ≠ EmptyString → endsWith suffix s = true → includes suffix s = true.
Proof.
  intros Hne [_ Hsub%String.eqb_eq]%andb_true_iff.
  destruct (substring_split _ _ _ _ Hsub eq_refl) as (pre & post & ->).
  by apply includes_intro.
Qed.

(** ** Lower case *)

Lemma lowerAscii_idem (c : Ascii.ascii) : lowerAscii (lowerAscii c) = lowerAscii c.
Proof. by destruct c as [[] [] [] [] [] [] [] []]. Qed.

Lemma toLowerCase_idem (s : string) : toLowerCase (toLowerCase s) = toLowerCase s.
Proof.
  induction s as [|c s IH]; [done|]. cbn. by rewrite lowerAscii_idem, IH.
Qed.

Lemma toLowerCase_app (s1 s2 : string) :
  toLowerCase (s1 +:+ s2) = toLowerCase s1 +:+ toLowerCase s2.
Proof.
  induction s1 as [|c s1 IH]; [done|].
  change (String c s1 +:+ s2) with (String c (s1 +:+ s2)).
  cbn [toLowerCase]. rewrite IH. done.
Qed.

Lemma BOT_PATTERNS_lower :
  Forall (fun pattern => toLowerCase pattern = pattern ∧ pattern ≠ EmptyString)
    BOT_PATTERNS.
Proof. repeat constructor; done. Qed.

(** X17. A login is a bot exactly when its lower-case form contains one of
    the patterns somewhere: matching is by substring and blind to letter case,
    so a login that merely contains a pattern (such as "claude" or "stale") is
    filtered out; the separate test for the ending "[bot]" never changes the
    result. *)
Theorem isBot_by_substring :
  (∀ login,
     isBot login = true
     ↔ ∃ pattern pre post,
         pattern ∈ BOT_PATTERNS ∧ toLowerCase login = pre +:+ pattern +:+ post)
  ∧ (∀ pre mid post,
       toLowerCase mid ∈ BOT_PATTERNS → isBot (pre +:+ mid +:+ post) = true)
  ∧ (∀ login, isBot (toLowerCase login) = isBot login)
  ∧ (∀ login,
       isBot login
       = existsb (fun pattern => includes pattern (toLowerCase login)) BOT_PATTERNS).
Proof.
  pose proof BOT_PATTERNS_lower as Hpat. rewrite Forall_forall in Hpat.
  assert (∀ login,
            isBot login = true
            ↔ ∃ pattern pre post,
                pattern ∈ BOT_PATTERNS ∧ toLowerCase login = pre +:+ pattern +:+ post)
    as Hchar.
  { intros login. unfold isBot. rewrite existsb_exists. split.
    - intros (pattern & Hin%list_elem_of_In & Hmatch).
      destruct (Hpat pattern Hin) as [Hlow Hne]. rewrite Hlow in Hmatch.
      apply orb_true_iff in Hmatch as [Hinc|Hends].
      + destruct (includes_elim _ _ Hinc) as (pre & post & Heq).
        by exists pattern, pre, post.
      + apply endsWith_includes in Hends; [|done].
        destruct (includes_elim _ _ Hends) as (pre & post & Heq).
        exists "[bot]", pre, post. split; [|done].
        unfold BOT_PATTERNS. do 22 right. left.
    - intros (pattern & pre & post & Hin & Heq).
      destruct (Hpat pattern Hin) as [Hlow Hne].
      exists pattern. split; [by apply list_elem_of_In|].
      rewrite Hlow, Heq, includes_intro by done. done. }
  split; [exact Hchar|]. split; [|split].
  - intros pre mid post Hin. apply Hchar.
    exists (toLowerCase mid), (toLowerCase pre), (toLowerCase post).
    split; [done|]. by rewrite !toLowerCase_app.
  - intros login. unfold isBot. by rewrite toLowerCase_idem.
  - intros login. destruct (isBot login) eqn:Hbot.
    + apply Hchar in Hbot as (pattern & pre & post & Hin & Heq).
      symmetry. apply existsb_exists. exists pattern.
      split; [by apply list_elem_of_In|].
      destruct (Hpat pattern Hin) as [_ Hne]. rewrite Heq. by apply includes_intro.
    + symmetry. apply not_true_iff_false. intros Hex.
      apply existsb_exists in Hex as (pattern & Hin%list_elem_of_In & Hinc).
      apply not_true_iff_false in Hbot. apply Hbot, Hchar.
      destruct (includes_elim _ _ Hinc) as (pre & post & Heq).
      by exists pattern, pre, post.
Qed.

Example isBot_samples :
  isBot "dependabot[bot]" = true
  ∧ isBot "Claudette" = true
  ∧ isBot "stalemate" = true
  ∧ isBot "octocat" = false.
Proof. by vm_compute. Qed.

(** ** Hourly and weekday distributions *)

Lemma sumZ_increment (i : nat) (arr : list Z) :
  (i < length arr)%nat → sumZ (increment i arr) = sumZ arr + 1.
Proof.
  unfold increment. revert i. induction arr as [|x arr IH]; intros i Hi; [cbn in Hi; lia|].
  destruct i as [|i]; cbn.
  - fold (sumZ arr). lia.
  - fold (sumZ (alter (fun x => x + 1) i arr)) (sumZ arr).
    rewrite IH by (cbn in Hi; lia). lia.
Qed.

Lemma increment_lookup (i j : nat) (arr : list Z) :
  increment i arr !! j
  = (fun x => if decide (i = j) then x + 1 else x) <$> arr !! j.
Proof.
  unfold increment. destruct (decide (i = j)) as [->|Hne].
  - by rewrite list_lookup_alter_eq.
  - rewrite list_lookup_alter_ne by done. by destruct (arr !! j).
Qed.

Lemma increment_length (i : nat) (arr : list Z) : length (increment i arr) = length arr.
Proof. apply length_alter. Qed.

Lemma getHours_lt (zone : Zone) (t : Z) : (getHours zone t < 24)%nat.
Proof.
  unfold getHours. pose proof (Z.mod_pos_bound (toLocal zone t / MS_PER_HOUR) 24 ltac:(lia)). lia.
Qed.

Lemma getDay_lt (zone : Zone) (t : Z) : (getDay zone t < 7)%nat.
Proof.
  unfold getDay. pose proof (Z.mod_pos_bound (toLocal zone t / MS_PER_DAY + 4) 7 ltac:(lia)). lia.
Qed.

Lemma countCommits_cons (p : Z → bool) (c : Commit) (commits : list Commit) :
  countCommits p (c :: commits)
  = (if datedWith p c then 1 else 0) + countCommits p commits.
Proof.
  unfold countCommits. rewrite filter_cons.
  destruct (datedWith p c); [rewrite decide_True by done|rewrite decide_False by done];
    cbn [length]; lia.
Qed.

Lemma distributions_fold (zone : Zone) (commits : list Commit) (acc : list Z * list Z) :
  length (fst acc) = 24%nat → length (snd acc) = 7%nat →
  let out := foldl (activityStep zone) acc commits in
  length (fst out) = 24%nat
  ∧ length (snd out) = 7%nat
  ∧ (∀ h, fst out !! h
          = (fun x => x + countCommits (fun t => Nat.eqb (getHours zone t) h) commits)
              <$> fst acc !! h)
  ∧ (∀ d, snd out !! d
          = (fun x => x + countCommits (fun t => Nat.eqb (getDay zone t) d) commits)
              <$> snd acc !! d)
  ∧ sumZ (fst out) = sumZ (fst acc) + countCommits (fun _ => true) commits
  ∧ sumZ (snd out) = sumZ (snd acc) + countCommits (fun _ => true) commits.
Proof.
  revert acc. induction commits as [|c commits IH]; intros acc Hh Hd out.
  - unfold out. cbn [foldl]. split; [done|]. split; [done|].
    split; [|split; [|split]].
    + intros h. destruct (fst acc !! h); cbn; [f_equal; unfold countCommits; cbn; lia|done].
    + intros d. destruct (snd acc !! d); cbn; [f_equal; unfold countCommits; cbn; lia|done].
    + unfold countCommits. cbn. lia.
    + unfold countCommits. cbn. lia.
  - unfold out. cbn [foldl]. destruct (commitInstant c) as [t|] eqn:Hc.
    + assert (activityStep zone acc c
              = (increment (getHours zone t) (fst acc), increment (getDay zone t) (snd acc))) as ->
        by (unfold activityStep; by rewrite Hc).
      assert (∀ p, countCommits p (c :: commits)
                   = (if p t then 1 else 0) + countCommits p commits) as Hcons
        by (intros p; rewrite countCommits_cons; unfold datedWith; by rewrite Hc).
      destruct (IH (increment (getHours zone t) (fst acc), increment (getDay zone t) (snd acc)))
        as (H1 & H2 & H3 & H4 & H5 & H6);
        [cbn [fst]; by rewrite increment_length
        |cbn [snd]; by rewrite increment_length|].
      cbn [fst snd] in H3, H4, H5, H6.
      split; [done|]. split; [done|]. split; [|split; [|split]].
      * intros h. rewrite H3, increment_lookup, Hcons.
        destruct (fst acc !! h) as [x|]; [|done]. cbn. f_equal.
        destruct (Nat.eqb_spec (getHours zone t) h).
        -- rewrite decide_True by done. lia.
        -- rewrite decide_False by done. lia.
      * intros d. rewrite H4, increment_lookup, Hcons.
        destruct (snd acc !! d) as [x|]; [|done]. cbn. f_equal.
        destruct (Nat.eqb_spec (getDay zone t) d).
        -- rewrite decide_True by done. lia.
        -- rewrite decide_False by done. lia.
      * rewrite H5, Hcons, sumZ_increment by (rewrite Hh; apply getHours_lt). lia.
      * rewrite H6, Hcons, sumZ_increment by (rewrite Hd; apply getDay_lt). lia.
    + assert (activityStep zone acc c = acc) as ->
        by (unfold activityStep; by rewrite Hc).
      assert (∀ p, countCommits p (c :: commits) = countCommits p commits) as Hcons
        by (intros p; rewrite countCommits_cons; unfold datedWith; by rewrite Hc).
      destruct (IH acc Hh Hd) as (H1 & H2 & H3 & H4 & H5 & H6).
      split; [done|]. split; [done|]. split; [|split; [|split]].
      * intros h. by rewrite H3, Hcons.
      * intros d. by rewrite H4, Hcons.
      * by rewrite H5, Hcons.
      * by rewrite H6, Hcons.
Qed.

(** X18. The hourly distribution keeps its 24 slots and the weekday one its
    7: slot [h] counts the commits with a valid date in hour [h] of the
    host's local clock, slot [d] those on local weekday [d]; commits without
    a usable date (an unparsable author date, even beside a valid committer
    date) are skipped, and both distributions add up to the number of commits
    with a valid date. *)
Theorem activity_distributions (zone : Zone) (commits : list Commit) :
  let hourly := fst (distributions zone commits) in
  let weekday := snd (distributions zone commits) in
  length hourly = 24%nat
  ∧ length weekday = 7%nat
  ∧ (∀ h, (h < 24)%nat →
       hourly !! h = Some (countCommits (fun t => Nat.eqb (getHours zone t) h) commits))
  ∧ (∀ d, (d < 7)%nat →
       weekday !! d = Some (countCommits (fun t => Nat.eqb (getDay zone t) d) commits))
  ∧ sumZ hourly = countCommits (fun _ => true) commits
  ∧ sumZ weekday = countCommits (fun _ => true) commits
  ∧ 0 ≤ countCommits (fun _ => true) commits ≤ Z.of_nat (length commits).
Proof.
  intros hourly weekday.
  destruct (distributions_fold zone commits (replicate 24 0, replicate 7 0) eq_refl eq_refl)
    as (H1 & H2 & H3 & H4 & H5 & H6).
  fold (distributions zone commits) in H1, H2, H3, H4, H5, H6.
  split; [done|]. split; [done|]. split; [|split; [|split; [|split]]].
  - intros h Hh. unfold hourly. rewrite H3. cbn [fst].
    rewrite lookup_replicate_2 by done. cbn [fmap option_fmap option_map].
    f_equal; lia.
  - intros d Hd. unfold weekday. rewrite H4. cbn [snd].
    rewrite lookup_replicate_2 by done. cbn [fmap option_fmap option_map].
    f_equal; lia.
  - unfold hourly. rewrite H5.
    change (sumZ (fst (replicate 24 0, replicate 7 0))) with 0. lia.
  - unfold weekday. rewrite H6.
    change (sumZ (snd (replicate 24 0, replicate 7 0))) with 0. lia.
  - unfold countCommits. split; [lia|].
    apply Nat2Z.inj_le, length_filter.
Qed.

Lemma activity_distributions_sample :
  (10 < 24)%nat
  ∧ fst (distributions utcZone [ {| author_login := None; author_avatar_url := None;
                            author_name := None;
                            author_date := GoodDate (utc 2024 1 2 10);
                            committer_date := NoDate |};
                         {| author_login := None; author_avatar_url := None;
                            author_name := None;
                            author_date := BadDate;
                            committer_date := GoodDate (utc 2024 1 2 10) |} ]) !! 10%nat
    = Some 1.
Proof.
  assert (10 < 24)%nat as Hlt by lia.
  split; [exact Hlt|].
  rewrite (proj1 (proj2 (proj2 (activity_distributions utcZone _))) 10%nat Hlt).
  by vm_compute.
Defined.

(** ** The busiest day *)

Lemma foldl_max_spec (l : list Z) (a : Z) :
  a ≤ foldl Z.max a l
  ∧ Forall (fun c => c ≤ foldl Z.max a l) l
  ∧ (foldl Z.max a l = a ∨ foldl Z.max a l ∈ l).
Proof.
  revert a. induction l as [|x l IH]; intros a; cbn [foldl].
  - split; [lia|]. split; [constructor|by left].
  - destruct (IH (Z.max a x)) as (H1 & H2 & H3).
    split; [lia|]. split; [constructor; [lia|done]|].
    destruct H3 as [H3|H3]; [|by right; right].
    destruct (Z.max_spec a x) as [[_ Hm]|[_ Hm]].
    + right. rewrite H3, Hm. by left.
    + left. by rewrite H3.
Qed.

Lemma mathMax_spec (l : list Z) :
  l ≠ [] → ∃ m, mathMax l = Some m ∧ m ∈ l ∧ Forall (fun c => c ≤ m) l.
Proof.
  destruct l as [|x l]; [done|]. intros _. cbn [mathMax].
  destruct (foldl_max_spec l x) as (H1 & H2 & H3).
  exists (foldl Z.max x l). split; [done|]. split.
  - destruct H3 as [H3|H3]; [rewrite H3; by left|by right].
  - constructor; done.
Qed.

Lemma indexOf_spec (x : Z) (l : list Z) :
  x ∈ l →
  ∃ i : nat, indexOf x l = Z.of_nat i
             ∧ l !! i = Some x
             ∧ ∀ (j : nat) y, (j < i)%nat → l !! j = Some y → y ≠ x.
Proof.
  induction l as [|y l IH]; intros Hin; [by apply not_elem_of_nil in Hin|].
  cbn [indexOf]. destruct (Z.eqb_spec y x) as [->|Hne].
  - exists O. split; [done|]. split; [done|]. intros j z Hj. lia.
  - apply elem_of_cons in Hin as [->|Hin]; [done|].
    destruct (IH Hin) as (i & -> & Hi & Hfirst).
    destruct (Z.ltb_spec (Z.of_nat i) 0) as [|_]; [lia|].
    exists (S i). split; [lia|]. split; [done|].
    intros [|j] z Hj Hz.
    + by injection Hz as <-.
    + apply (Hfirst j); [lia|done].
Qed.

(** X19. The busiest day is a weekday with the largest count, its reported
    count is that maximum, and on a tie it is the earliest such weekday
    counting from Sunday; without any dated commit it is Sunday with 0. *)
Theorem busiest_day_is_first_maximum (zone : Zone) (commits : list Commit) :
  let weekday := snd (distributions zone commits) in
  let busiest := busiestDayOf weekday in
  ∃ (i : nat) (name : string) (m : Z),
    (i < 7)%nat
    ∧ busiestDayIndex weekday = Z.of_nat i
    ∧ dayNames !! i = Some name
    ∧ dc_day busiest = Some name
    ∧ dc_count busiest = Some m
    ∧ m = countCommits (fun t => Nat.eqb (getDay zone t) i) commits
    ∧ Forall (fun c => c ≤ m) weekday
    ∧ (∀ (j : nat) c, (j < i)%nat → weekday !! j = Some c → c < m)
    ∧ (countCommits (fun _ => true) commits = 0 → i = O ∧ m = 0 ∧ name = "Sunday").
Proof.
  intros weekday busiest.
  destruct (distributions_fold zone commits (replicate 24 0, replicate 7 0) eq_refl eq_refl)
    as (_ & Hlen & _ & Hday & _ & Hsum).
  fold (distributions zone commits) in Hlen, Hday, Hsum. fold weekday in Hlen, Hday, Hsum.
  change (sumZ (snd (replicate 24 0, replicate 7 0))) with 0 in Hsum.
  assert (∀ d, (d < 7)%nat →
            weekday !! d = Some (countCommits (fun t => Nat.eqb (getDay zone t) d) commits))
    as Hslot.
  { intros d Hd. rewrite Hday. cbn [snd]. rewrite lookup_replicate_2 by done.
    cbn [fmap option_fmap option_map]. f_equal; lia. }
  assert (Forall (fun c => 0 ≤ c) weekday) as Hnn.
  { apply Forall_lookup. intros d c Hc.
    pose proof (lookup_lt_Some _ _ _ Hc) as Hd. rewrite Hlen in Hd.
    rewrite Hslot in Hc by done. injection Hc as <-. unfold countCommits. lia. }
  assert (weekday ≠ []) as Hne by (by destruct weekday).
  destruct (mathMax_spec weekday Hne) as (m & Hmax & Hin & Hle).
  assert (∀ (i : nat), (i < 7)%nat → ∃ name, dayNames !! i = Some name) as Hname.
  { intros i Hi. do 7 (destruct i as [|i]; [by eexists|]). lia. }
  assert (∃ i : nat, busiestDayIndex weekday = Z.of_nat i
                     ∧ weekday !! i = Some m
                     ∧ (∀ (j : nat) c, (j < i)%nat → weekday !! j = Some c → c < m)
                     ∧ (m = 0 → i = O)) as (i & Hidx & Hi & Hfirst & Hzero).
  { unfold busiestDayIndex. rewrite Hmax. destruct (Z.ltb_spec 0 m) as [Hpos|Hnonpos].
    - destruct (indexOf_spec m weekday Hin) as (i & -> & Hi & Hfirst).
      exists i. split; [done|]. split; [done|]. split; [|lia].
      intros j c Hj Hc. rewrite Forall_lookup in Hle. specialize (Hle j c Hc).
      specialize (Hfirst j c Hj Hc). lia.
    - exists O. split; [done|].
      destruct weekday as [|c0 rest]; [done|]. cbn [lookup list_lookup].
      apply Forall_cons in Hnn as [Hc0 _]. apply Forall_cons in Hle as [Hc0' _].
      split; [f_equal; lia|]. split; [intros j c Hj; lia|done]. }
  pose proof (lookup_lt_Some _ _ _ Hi) as Hi7. rewrite Hlen in Hi7.
  destruct (Hname i Hi7) as [name Hn].
  exists i, name, m. split; [done|]. split; [done|]. split; [done|].
  assert (∀ A (l : list A), jsIndex l (Z.of_nat i) = l !! i) as Hjs.
  { intros A l. unfold jsIndex. destruct (Z.ltb_spec (Z.of_nat i) 0); [lia|].
    by rewrite Nat2Z.id. }
  unfold busiest, busiestDayOf. cbn [dc_day dc_count]. rewrite Hidx, !Hjs.
  split; [done|]. split; [done|]. split.
  { rewrite Hslot in Hi by done. by injection Hi. }
  split; [done|]. split; [done|].
  intros Hnone. rewrite Hnone in Hsum.
  assert (m = 0) as Hm0.
  { assert (∀ l, Forall (fun c => 0 ≤ c) l → sumZ l = 0 → ∀ c, c ∈ l → c = 0) as Hz.
    { induction 1 as [|c l Hc Hl IHl]; intros Hs c' Hin'; [by apply not_elem_of_nil in Hin'|].
      cbn in Hs. fold (sumZ l) in Hs. pose proof (sumZ_nonneg l Hl).
      apply elem_of_cons in Hin' as [->|Hin']; [lia|]. apply IHl; [lia|done]. }
    by apply (Hz weekday Hnn). }
  specialize (Hzero Hm0). subst i. split; [done|]. split; [done|].
  cbn in Hn. by injection Hn.
Qed.

(** ** The peak hours *)

Lemma insertSorted_perm {A : Type} (cmp : A → A → Z) (x : A) (l : list A) :
  Permutation (insertSorted cmp x l) (x :: l).
Proof.
  induction l as [|y l IH]; [done|]. cbn [insertSorted].
  destruct (0 <? cmp x y); [|done].
  rewrite IH. apply perm_swap.
Qed.

Lemma jsSort_perm {A : Type} (cmp : A → A → Z) (l : list A) :
  Permutation (jsSort cmp l) l.
Proof.
  unfold jsSort. induction l as [|x l IH]; [done|]. cbn [foldr].
  rewrite insertSorted_perm. by constructor.
Qed.

Lemma insertSorted_ranked (x : HourCount) (l : list HourCount) :
  StronglySorted rankedBefore l →
  Forall (fun y => hc_hour x < hc_hour y) l →
  StronglySorted rankedBefore
    (insertSorted (fun a b => hc_count b - hc_count a) x l).
Proof.
  induction 1 as [|y l Hsorted IH Hy]; intros Hx; [by repeat constructor|].
  apply Forall_cons in Hx as [Hxy Hxl]. cbn [insertSorted].
  destruct (Z.ltb_spec 0 (hc_count y - hc_count x)) as [Hless|Hgeq].
  - constructor; [by apply IH|].
    rewrite insertSorted_perm. constructor; [|done]. left. lia.
  - constructor; [by constructor|]. constructor.
    + unfold rankedBefore. lia.
    + rewrite Forall_forall in Hy, Hxl. apply Forall_forall. intros z Hz.
      specialize (Hy z Hz). specialize (Hxl z Hz). unfold rankedBefore in *. lia.
Qed.

Lemma mapWithIndex_hours (i : Z) (dist : list Z) :
  StronglySorted (fun a b => hc_hour a < hc_hour b)
    (mapWithIndex (fun count hour => {| hc_hour := hour; hc_count := count |}) i dist)
  ∧ Forall (fun e => i ≤ hc_hour e
                     ∧ dist !! Z.to_nat (hc_hour e - i) = Some (hc_count e))
      (mapWithIndex (fun count hour => {| hc_hour := hour; hc_count := count |}) i dist)
  ∧ length (mapWithIndex (fun count hour => {| hc_hour := hour; hc_count := count |})
              i dist) = length dist.
Proof.
  revert i. induction dist as [|c dist IH]; intros i; cbn [mapWithIndex].
  - split; [constructor|]. split; [constructor|done].
  - destruct (IH (i + 1)) as (Hs & Hf & Hl). split; [|split].
    + constructor; [done|]. eapply Forall_impl; [exact Hf|].
      intros e [He _]. cbn. lia.
    + constructor.
      * cbn. split; [lia|]. by rewrite Z.sub_diag.
      * eapply Forall_impl; [exact Hf|]. intros e [He Hlook]. split; [lia|].
        replace (Z.to_nat (hc_hour e - i)) with (S (Z.to_nat (hc_hour e - (i + 1))))
          by lia. done.
    + cbn [length]. by rewrite Hl.
Qed.

Lemma jsSort_ranked (l : list HourCount) :
  StronglySorted (fun a b => hc_hour a < hc_hour b) l →
  StronglySorted rankedBefore (jsSort (fun a b => hc_count b - hc_count a) l).
Proof.
  unfold jsSort. induction 1 as [|x l Hsorted IH Hx]; [constructor|].
  cbn [foldr]. apply insertSorted_ranked; [done|].
  fold (jsSort (fun a b => hc_count b - hc_count a) l).
  by rewrite jsSort_perm.
Qed.

Lemma drop_elem {A : Type} (n : nat) (l : list A) (q : A) : q ∈ drop n l → q ∈ l.
Proof.
  revert n. induction l as [|x l IH]; intros n Hq.
  - by rewrite drop_nil in Hq.
  - destruct n as [|n]; [done|]. right. by apply (IH n).
Qed.

Lemma sorted_take {A : Type} (R : A → A → Prop) (n : nat) (l : list A) :
  StronglySorted R l → StronglySorted R (take n l).
Proof.
  intros Hs. revert n. induction Hs as [|x l Hs IH Hx]; intros n.
  - rewrite take_nil. constructor.
  - destruct n as [|n]; [constructor|]. cbn [take].
    constructor; [apply IH|by apply Forall_take].
Qed.

Lemma sorted_take_drop {A : Type} (R : A → A → Prop) (n : nat) (l : list A) :
  StronglySorted R l → ∀ p q, p ∈ take n l → q ∈ drop n l → R p q.
Proof.
  intros Hs. revert n. induction Hs as [|x l Hs IH Hx]; intros n p q Hp Hq.
  - rewrite take_nil in Hp. by apply not_elem_of_nil in Hp.
  - destruct n as [|n]; [by apply not_elem_of_nil in Hp|].
    cbn [take drop] in Hp, Hq. apply elem_of_cons in Hp as [->|Hp].
    + rewrite Forall_forall in Hx. apply Hx. by apply (drop_elem n).
    + by apply (IH n).
Qed.

Lemma jsSlice_take {A : Type} (n : nat) (l : list A) :
  jsSlice 0 (Some (Z.of_nat n)) l = take n l.
Proof.
  unfold jsSlice. cbn [Z.ltb Z.compare].
  destruct (Z.ltb_spec (Z.of_nat n) 0) as [|_]; [lia|].
  replace (Z.to_nat (Z.min 0 (Z.of_nat (length l)))) with O by lia.
  rewrite drop_0. destruct (decide (n ≤ length l)%nat) as [Hle|Hgt].
  - f_equal. lia.
  - rewrite !take_ge by lia. done.
Qed.

(** X20. The peak hours are the first three of the 24 hours ranked by commit
    count, largest first and, among equal counts, earliest hour first: three
    distinct hours carrying their own counts, each ranked before every hour
    that is left out. *)
Theorem peak_hours_are_top_three (zone : Zone) (commits : list Commit) :
  let hourly := fst (distributions zone commits) in
  let ranking := jsSort (fun a b => hc_count b - hc_count a) (hourlyDataOf hourly) in
  let peak := peakHoursOf hourly in
  peak = take 3 ranking
  ∧ length peak = 3%nat
  ∧ Permutation ranking (hourlyDataOf hourly)
  ∧ StronglySorted rankedBefore peak
  ∧ NoDup (map hc_hour peak)
  ∧ Forall (fun p => 0 ≤ hc_hour p < 24
                     ∧ hc_count p
                       = countCommits (fun t => Nat.eqb (getHours zone t)
                                                  (Z.to_nat (hc_hour p))) commits)
      peak
  ∧ Forall (fun p => Forall (fun q => rankedBefore p q) (drop 3 ranking)) peak.
Proof.
  intros hourly ranking peak.
  destruct (distributions_fold zone commits (replicate 24 0, replicate 7 0) eq_refl eq_refl)
    as (Hlen & _ & Hhour & _).
  fold (distributions zone commits) in Hlen, Hhour. fold hourly in Hlen, Hhour.
  destruct (mapWithIndex_hours 0 hourly) as (Hhours & Hdata & Hdlen).
  fold (hourlyDataOf hourly) in Hhours, Hdata, Hdlen.
  pose proof (jsSort_perm (fun a b => hc_count b - hc_count a) (hourlyDataOf hourly))
    as Hperm. fold ranking in Hperm.
  pose proof (jsSort_ranked _ Hhours) as Hranked. fold ranking in Hranked.
  assert (peak = take 3 ranking) as Hpeak.
  { unfold peak, peakHoursOf. fold ranking. apply (jsSlice_take 3). }
  assert (length ranking = 24%nat) as Hrlen.
  { by rewrite (Permutation_length Hperm), Hdlen. }
  assert (Forall (fun e => 0 ≤ hc_hour e < 24
                           ∧ hc_count e
                             = countCommits (fun t => Nat.eqb (getHours zone t)
                                                        (Z.to_nat (hc_hour e))) commits)
            (hourlyDataOf hourly)) as Hentries.
  { eapply Forall_impl; [exact Hdata|]. intros e [He Hlook].
    rewrite Z.sub_0_r in Hlook.
    pose proof (lookup_lt_Some _ _ _ Hlook) as Hlt. rewrite Hlen in Hlt.
    split; [lia|]. rewrite Hhour in Hlook. cbn [fst] in Hlook.
    rewrite lookup_replicate_2 in Hlook by done.
    cbn [fmap option_fmap option_map] in Hlook. injection Hlook as <-. lia. }
  split; [done|]. split; [rewrite Hpeak, length_take; lia|]. split; [done|].
  split; [|split; [|split]].
  - rewrite Hpeak. by apply sorted_take.
  - assert (NoDup (map hc_hour (hourlyDataOf hourly))) as Hnd.
    { assert (StronglySorted Z.lt (map hc_hour (hourlyDataOf hourly))) as Hs.
      { clear -Hhours. induction Hhours as [|x l Hs IH Hx]; [constructor|].
        cbn [map]. constructor; [done|]. by apply Forall_fmap. }
      by apply sorted_lt_NoDup. }
    assert (NoDup (map hc_hour ranking)) as Hnd'.
    { assert (map hc_hour ranking ≡ₚ map hc_hour (hourlyDataOf hourly)) as ->
        by (by apply (fmap_Permutation hc_hour)).
      exact Hnd. }
    rewrite Hpeak, <- firstn_map.
    eapply sublist_NoDup; [exact Hnd'|apply sublist_take].
  - rewrite Hpeak. apply Forall_take. by rewrite Hperm.
  - apply Forall_forall. intros p Hp. apply Forall_forall. intros q Hq.
    rewrite Hpeak in Hp. by apply (sorted_take_drop rankedBefore 3 ranking).
Qed.

Example activity_samples :
  peakHoursOf (fst (distributions utcZone []))
  = [ {| hc_hour := 0; hc_count := 0 |}; {| hc_hour := 1; hc_count := 0 |};
      {| hc_hour := 2; hc_count := 0 |} ]
  ∧ civilFromDays (daysFromCivil 2024 2 29) = (2024, 2, 29)
  ∧ civilFromDays (daysFromCivil 1969 12 31) = (1969, 12, 31)
  ∧ getDay utcZone (utc 2024 11 3 0) = O.
Proof. by vm_compute. Qed.

(** ** The peak month *)

Lemma monthCount_bump (key k : Z * Z) (entries : list (Z * Z * Z)) :
  monthCount k (bumpMonth key entries)
  = monthCount k entries + (if decide (key = k) then 1 else 0).
Proof.
  induction entries as [|[k0 v] entries IH]; cbn [bumpMonth monthCount].
  - destruct (decide (key = k)); lia.
  - destruct (decide (k0 = key)) as [->|Hne]; cbn [monthCount].
    + destruct (decide (key = k)); lia.
    + destruct (decide (k0 = k)) as [->|Hne'].
      * rewrite decide_False by done. lia.
      * exact IH.
Qed.

Lemma bumpMonth_keys (key : Z * Z) (entries : list (Z * Z * Z)) :
  map fst (bumpMonth key entries)
  = if decide (key ∈ map fst entries) then map fst entries
    else map fst entries ++ [key].
Proof.
  induction entries as [|[k0 v] entries IH]; cbn [bumpMonth map fst].
  - rewrite decide_False by apply not_elem_of_nil. done.
  - destruct (decide (k0 = key)) as [->|Hne]; cbn [map fst].
    + rewrite decide_True by (by left). done.
    + rewrite IH. destruct (decide (key ∈ map fst entries)) as [Hin|Hout].
      * rewrite decide_True by (by right). done.
      * rewrite decide_False; [done|]. intros [Heq|Hin]%elem_of_cons; done.
Qed.

Lemma bumpMonth_values (key : Z * Z) (entries : list (Z * Z * Z)) :
  Forall (fun e => 1 ≤ snd e) entries →
  Forall (fun e => 1 ≤ snd e) (bumpMonth key entries)
  ∧ sumZ (map snd (bumpMonth key entries)) = sumZ (map snd entries) + 1.
Proof.
  induction 1 as [|[k0 v] entries Hv Hrest [IH1 IH2]]; cbn [bumpMonth].
  - split; [by repeat constructor|done].
  - destruct (decide (k0 = key)); cbn [map snd sumZ foldr] in *.
    + split; [constructor; [cbn; lia|done]|]. fold (sumZ (map snd entries)). lia.
    + split; [by constructor|].
      fold (sumZ (map snd (bumpMonth key entries))) (sumZ (map snd entries)). lia.
Qed.

Lemma monthCount_entry (k : Z * Z) (v : Z) (entries : list (Z * Z * Z)) :
  NoDup (map fst entries) → (k, v) ∈ entries → monthCount k entries = v.
Proof.
  induction entries as [|[k0 v0] entries IH]; intros Hnd Hin;
    [by apply not_elem_of_nil in Hin|].
  cbn [map fst] in Hnd. apply NoDup_cons in Hnd as [Hk0 Hnd]. cbn [monthCount].
  apply elem_of_cons in Hin as [[= -> ->]|Hin].
  - by rewrite decide_True.
  - rewrite decide_False; [by apply IH|].
    intros ->. apply Hk0. apply list_elem_of_fmap. by exists (k, v).
Qed.

Lemma months_fold (zone : Zone) (commits : list Commit) (acc : list (Z * Z * Z)) :
  NoDup (map fst acc) → Forall (fun e => 1 ≤ snd e) acc →
  let out := foldl (monthStep zone) acc commits in
  NoDup (map fst out)
  ∧ Forall (fun e => 1 ≤ snd e) out
  ∧ (∀ k, monthCount k out = monthCount k acc + countCommits (inMonth zone k) commits)
  ∧ sumZ (map snd out) = sumZ (map snd acc) + countCommits (fun _ => true) commits.
Proof.
  revert acc. induction commits as [|c commits IH]; intros acc Hnd Hv out.
  - unfold out. cbn [foldl]. split; [done|]. split; [done|]. split.
    + intros k. change (countCommits (inMonth zone k) []) with 0. lia.
    + change (countCommits (fun _ => true) []) with 0. lia.
  - unfold out. cbn [foldl]. destruct (commitInstant c) as [t|] eqn:Hc.
    + assert (monthStep zone acc c = bumpMonth (monthKeyOf zone t) acc) as ->
        by (unfold monthStep; by rewrite Hc).
      assert (∀ p, countCommits p (c :: commits)
                   = (if p t then 1 else 0) + countCommits p commits) as Hcons
        by (intros p; rewrite countCommits_cons; unfold datedWith; by rewrite Hc).
      destruct (bumpMonth_values (monthKeyOf zone t) acc Hv) as [Hv' Hsum'].
      destruct (IH (bumpMonth (monthKeyOf zone t) acc)) as (H1 & H2 & H3 & H4); [|done|].
      { rewrite bumpMonth_keys. destruct (decide (monthKeyOf zone t ∈ map fst acc)); [done|].
        apply NoDup_app. split; [done|]. split; [|apply NoDup_singleton].
        intros k Hk ->%list_elem_of_singleton. done. }
      split; [done|]. split; [done|]. split.
      * intros k. rewrite H3, monthCount_bump, Hcons. unfold inMonth.
        destruct (decide (monthKeyOf zone t = k)).
        -- rewrite bool_decide_eq_true_2 by done. lia.
        -- rewrite bool_decide_eq_false_2 by done. lia.
      * rewrite H4, Hsum', Hcons. lia.
    + assert (monthStep zone acc c = acc) as -> by (unfold monthStep; by rewrite Hc).
      assert (∀ p, countCommits p (c :: commits) = countCommits p commits) as Hcons
        by (intros p; rewrite countCommits_cons; unfold datedWith; by rewrite Hc).
      destruct (IH acc Hnd Hv) as (H1 & H2 & H3 & H4).
      split; [done|]. split; [done|]. split; [intros k; by rewrite H3, Hcons|].
      by rewrite H4, Hcons.
Qed.

Lemma last_max_fold (rest : list (Z * Z * Z)) (first : Z * Z * Z) :
  let best := foldl (fun a b => if snd b <? snd a then a else b) first rest in
  ∃ i : nat, (first :: rest) !! i = Some best
             ∧ Forall (fun e => snd e ≤ snd best) (first :: rest)
             ∧ ∀ (j : nat) e, (i < j)%nat → (first :: rest) !! j = Some e →
                              snd e < snd best.
Proof.
  revert first. induction rest as [|b rest IH]; intros first best.
  - exists O. split; [done|]. split; [by repeat constructor|].
    intros [|j] e Hj He; [lia|done].
  - unfold best. cbn [foldl]. destruct (Z.ltb_spec (snd b) (snd first)) as [Hlt|Hge].
    + destruct (IH first) as (i & Hi & Hmax & Hafter). cbv zeta in Hi, Hmax, Hafter.
      set (q := foldl _ first rest) in *.
      apply Forall_cons in Hmax as [Hfirst Hmax].
      destruct i as [|i].
      * injection Hi as Hq. exists O. split; [by rewrite Hq|]. split.
        -- constructor; [done|]. constructor; [rewrite <- Hq; lia|done].
        -- intros [|[|j]] e Hj He; [lia| |].
           ++ injection He as <-. rewrite <- Hq. lia.
           ++ apply (Hafter (S j)); [lia|done].
      * exists (S (S i)). split; [done|]. split.
        -- constructor; [done|]. constructor; [lia|done].
        -- intros [|[|j]] e Hj He; [lia..|]. apply (Hafter (S j)); [lia|done].
    + destruct (IH b) as (i & Hi & Hmax & Hafter). cbv zeta in Hi, Hmax, Hafter.
      set (q := foldl _ b rest) in *.
      exists (S i). split; [done|]. split.
      * constructor; [|done]. apply Forall_cons in Hmax as [Hb _]. lia.
      * intros [|j] e Hj He; [lia|]. apply (Hafter j); [lia|done].
Qed.

(** X21. The monthly distribution lists every month once, in the order of
    its first commit, with the number of dated commits of that month, and
    adds up to the number of dated commits.  The peak month holds the largest
    of these counts, and among months with that count the one listed last;
    without any dated commit it is 'N/A' with 0. *)
Theorem peak_month_is_last_maximum (zone : Zone) (commits : list Commit) :
  let months := monthlyDistributionOf zone commits in
  let peak := peakMonthOf months in
  NoDup (map fst months)
  ∧ Forall (fun e => 1 ≤ snd e ∧ snd e = countCommits (inMonth zone (fst e)) commits) months
  ∧ sumZ (map snd months) = countCommits (fun _ => true) commits
  ∧ Forall (fun e => snd e ≤ snd peak) months
  ∧ (countCommits (fun _ => true) commits = 0 → peak = (None, 0))
  ∧ (0 < countCommits (fun _ => true) commits →
     ∃ (i : nat) key,
       peak = (Some key, countCommits (inMonth zone key) commits)
       ∧ months !! i = Some (key, snd peak)
       ∧ ∀ (j : nat) e, (i < j)%nat → months !! j = Some e → snd e < snd peak).
Proof.
  intros months peak.
  destruct (months_fold zone commits [] (NoDup_nil_2) (Forall_nil_2 _))
    as (Hnd & Hv & Hcount & Hsum).
  fold (monthlyDistributionOf zone commits) in Hnd, Hv, Hcount, Hsum.
  fold months in Hnd, Hv, Hcount, Hsum. cbn [monthCount map sumZ foldr] in Hcount, Hsum.
  assert (Forall (fun e => 1 ≤ snd e ∧ snd e = countCommits (inMonth zone (fst e)) commits)
            months) as Hentries.
  { rewrite Forall_forall in Hv. apply Forall_forall. intros [k v] He.
    split; [by apply Hv|]. cbn [fst snd].
    rewrite <- (monthCount_entry k v months Hnd He), Hcount. lia. }
  split; [done|]. split; [done|]. split; [lia|].
  destruct months as [|first rest] eqn:Hmonths.
  - cbn in Hsum. split; [constructor|]. split; [done|]. intros Hpos. lia.
  - destruct (last_max_fold rest first) as (i & Hi & Hmax & Hafter).
    cbv zeta in Hi, Hmax, Hafter.
    assert (peak = (Some (fst (foldl (fun a b => if snd b <? snd a then a else b)
                                 first rest)),
                    snd (foldl (fun a b => if snd b <? snd a then a else b)
                           first rest))) as Hpeak by done.
    set (best := foldl _ first rest) in *.
    rewrite Hpeak. cbn [snd]. split; [done|]. split.
    + intros Hzero. exfalso. apply Forall_cons in Hv as [Hfirst Hrest].
      pose proof (sumZ_nonneg (map snd rest)) as Hnn.
      cbn [map sumZ foldr] in Hsum. fold (sumZ (map snd rest)) in Hsum.
      assert (0 ≤ sumZ (map snd rest)); [|lia].
      apply Hnn, Forall_fmap. eapply Forall_impl; [exact Hrest|]. cbn. lia.
    + intros _. exists i, (fst best). split.
      * f_equal. rewrite Forall_lookup in Hentries.
        destruct (Hentries i best Hi) as [_ Hbest]. exact Hbest.
      * split; [by destruct best|]. exact Hafter.
Qed.

(** ** Top contributors *)

Lemma authorCount_bump (k login : string) (entries : list (string * Z)) :
  authorCount k (bumpAuthor login entries)
  = authorCount k entries + (if String.eqb login k then 1 else 0).
Proof.
  induction entries as [|[k' v] entries IH]; cbn [bumpAuthor authorCount].
  - rewrite (String.eqb_sym login k). destruct (String.eqb k login); lia.
  - destruct (String.eqb k' login) eqn:Hk'; cbn [authorCount].
    + apply String.eqb_eq in Hk' as ->.
      rewrite (String.eqb_sym login k). destruct (String.eqb k login); lia.
    + destruct (String.eqb k' k) eqn:Hkk; [|exact IH].
      apply String.eqb_eq in Hkk as ->. rewrite String.eqb_sym, Hk'. lia.
Qed.

Lemma countItems_cons (k : string) (item : ItemJson) (items : list ItemJson) :
  countItems k (item :: items)
  = (if authoredBy k item then 1 else 0) + countItems k items.
Proof.
  unfold countItems. rewrite filter_cons.
  destruct (authoredBy k item); [rewrite decide_True by done|rewrite decide_False by done];
    cbn [length]; lia.
Qed.

Lemma countAuthors_fold (k : string) (items : list ItemJson) (acc : list (string * Z)) :
  authorCount k
    (foldl (fun acc item =>
              let login := orElse (item_login item) "Unknown" in
              if isBot login then acc else bumpAuthor login acc) acc items)
  = authorCount k acc + countItems k items.
Proof.
  revert acc. induction items as [|item items IH]; intros acc.
  - unfold countItems. cbn. lia.
  - cbn [foldl]. rewrite IH, countItems_cons. cbv zeta. unfold authoredBy.
    destruct (String.eqb (orElse (item_login item) "Unknown") k) eqn:Hk.
    + apply String.eqb_eq in Hk. rewrite Hk.
      destruct (isBot k); cbn [negb andb]; [lia|].
      rewrite authorCount_bump, String.eqb_refl. lia.
    + cbn [andb]. destruct (isBot (orElse (item_login item) "Unknown")); [lia|].
      rewrite authorCount_bump, Hk. lia.
Qed.

Lemma authorCount_countItems (k : string) (items : list ItemJson) :
  authorCount k (countAuthors items) = countItems k items.
Proof. unfold countAuthors. by rewrite countAuthors_fold. Qed.

Lemma countAuthors_keys_fold (items : list ItemJson) (acc : list (string * Z)) :
  Forall (fun e => 0 < snd e ∧ isBot (fst e) = false) acc →
  Forall (fun e => 0 < snd e ∧ isBot (fst e) = false)
    (foldl (fun acc item =>
              let login := orElse (item_login item) "Unknown" in
              if isBot login then acc else bumpAuthor login acc) acc items).
Proof.
  revert acc. induction items as [|item items IH]; intros acc Hacc; [done|].
  cbn [foldl]. apply IH. cbv beta zeta.
  destruct (isBot (orElse (item_login item) "Unknown")) eqn:Hbot; [done|].
  clear IH. induction Hacc as [|[k v] acc [Hv Hk] Hacc IH']; cbn [bumpAuthor].
  - constructor; [|constructor]. split; [cbn; lia|done].
  - cbn in Hv, Hk. destruct (String.eqb k (orElse (item_login item) "Unknown"));
      constructor; try done; split; cbn; try lia; done.
Qed.

Lemma authorCount_key (k : string) (entries : list (string * Z)) :
  Forall (fun e => 0 < snd e ∧ isBot (fst e) = false) entries →
  k ∈ map fst entries → 0 < authorCount k entries ∧ isBot k = false.
Proof.
  induction 1 as [|[k' v] entries [Hv Hk'] H IH]; cbn [map fst authorCount]; intros Hk.
  - by apply elem_of_nil in Hk.
  - cbn in Hv, Hk'. destruct (String.eqb k' k) eqn:Heq.
    + apply String.eqb_eq in Heq as <-. done.
    + apply elem_of_cons in Hk as [->|Hk]; [by rewrite String.eqb_refl in Heq|].
      by apply IH.
Qed.

Lemma authorCount_positive_key (k : string) (entries : list (string * Z)) :
  0 < authorCount k entries → k ∈ map fst entries.
Proof.
  induction entries as [|[k' v] entries IH]; cbn [map fst authorCount]; [lia|].
  destruct (String.eqb k' k) eqn:Heq.
  - apply String.eqb_eq in Heq as <-. intros _. apply elem_of_cons. by left.
  - intros H. apply elem_of_cons. right. by apply IH.
Qed.

Lemma countAuthors_key (k : string) (items : list ItemJson) :
  k ∈ map fst (countAuthors items) ↔ 0 < countItems k items.
Proof.
  rewrite <- authorCount_countItems. split.
  - intros Hk. eapply authorCount_key; [|exact Hk].
    unfold countAuthors. by apply countAuthors_keys_fold.
  - apply authorCount_positive_key.
Qed.

Lemma countItems_bot (k : string) (items : list ItemJson) :
  isBot k = true → countItems k items = 0.
Proof.
  intros Hbot. induction items as [|item items IH]; [done|].
  rewrite countItems_cons, IH. unfold authoredBy. rewrite Hbot.
  by rewrite andb_false_r.
Qed.

Lemma objectEntries_perm {V : Type} (entries : list (string * V)) :
  Permutation (objectEntries entries) entries.
Proof.
  unfold objectEntries.
  rewrite (Permutation_map snd (jsSort_perm _ _)).
  induction entries as [|e entries IH]; [done|]. cbn [flat_map].
  destruct (arrayIndexOf (fst e)); cbn [app map snd].
  - by constructor.
  - by rewrite <- Permutation_middle, IH.
Qed.

Lemma objectKeys_elem {V : Type} (entries : list (string * V)) (k : string) :
  k ∈ objectKeys entries ↔ k ∈ map fst entries.
Proof.
  unfold objectKeys. by rewrite (Permutation_map fst (objectEntries_perm entries)).
Qed.

Lemma insertSorted_desc {A : Type} (f : A → Z) (x : A) (l : list A) :
  StronglySorted (fun a b => f b ≤ f a) l →
  StronglySorted (fun a b => f b ≤ f a) (insertSorted (fun a b => f b - f a) x l).
Proof.
  induction 1 as [|y l Hsorted IH Hy]; cbn [insertSorted]; [by repeat constructor|].
  destruct (Z.ltb_spec 0 (f y - f x)).
  - constructor; [done|]. rewrite insertSorted_perm. constructor; [lia|done].
  - constructor; [by constructor|]. constructor; [lia|].
    eapply Forall_impl; [exact Hy|]. cbn. intros z Hz. lia.
Qed.

Lemma jsSort_desc {A : Type} (f : A → Z) (l : list A) :
  StronglySorted (fun a b => f b ≤ f a) (jsSort (fun a b => f b - f a) l).
Proof.
  unfold jsSort. induction l as [|x l IH]; [constructor|].
  cbn [foldr]. by apply insertSorted_desc.
Qed.

(** What an entry of the contributor data must look like. *)
Lemma contributorData_entries (contributors : list ContributorJson)
    (prItems issueItems : list ItemJson) :
  Forall (fun e =>
            isBot (ce_login e) = false
            ∧ ce_pullRequests e = countItems (ce_login e) prItems
            ∧ ce_issues e = countItems (ce_login e) issueItems
            ∧ (hasCommits contributors (ce_login e) (ce_commits e)
               ∨ (ce_commits e = 0 ∧ 0 < ce_pullRequests e)))
    (contributorDataOf contributors prItems issueItems).
Proof.
  unfold contributorDataOf. cbv zeta. rewrite jsSort_perm.
  assert (Hkeys : Forall (fun k => k ∈ map fst (countAuthors prItems))
                    (objectKeys (countAuthors prItems))).
  { apply Forall_forall. intros k. by rewrite objectKeys_elem. }
  revert Hkeys. generalize (objectKeys (countAuthors prItems)). intros keys Hkeys.
  assert (Hmerged :
    Forall (fun e =>
              isBot (ce_login e) = false
              ∧ ce_pullRequests e = countItems (ce_login e) prItems
              ∧ ce_issues e = countItems (ce_login e) issueItems
              ∧ (hasCommits contributors (ce_login e) (ce_commits e)
                 ∨ (ce_commits e = 0 ∧ 0 < ce_pullRequests e)))
      (map (mergeCounts (countAuthors prItems) (countAuthors issueItems))
         (contributorsWithCommits contributors))).
  { apply Forall_forall. intros e He.
    apply list_elem_of_In, in_map_iff in He as [e0 [<- He0]].
    unfold contributorsWithCommits in He0. apply in_flat_map in He0 as [c [Hc He0]].
    cbv zeta in He0.
    destruct (isBot (orElse (cj_login c) "Unknown")) eqn:Hbot; [by destruct He0|].
    destruct He0 as [<-|[]]. cbn.
    rewrite !authorCount_countItems. repeat split; try done.
    left. exists c. by rewrite list_elem_of_In. }
  revert Hmerged.
  generalize (map (mergeCounts (countAuthors prItems) (countAuthors issueItems))
                (contributorsWithCommits contributors)).
  induction Hkeys as [|k keys Hk Hkeys IH]; intros data Hdata; [done|].
  cbn [foldl]. apply IH. unfold addPrOnly.
  destruct (negb (existsb _ data) && negb (isBot k)) eqn:Hadd; [|done].
  apply Forall_app. split; [done|]. constructor; [|done]. cbn.
  apply andb_true_iff in Hadd as [_ Hbot]. apply negb_true_iff in Hbot.
  rewrite !authorCount_countItems. repeat split; try done.
  right. split; [done|]. by apply countAuthors_key.
Qed.

(** Who is in the contributor data. *)
Lemma contributorData_complete (contributors : list ContributorJson)
    (prItems issueItems : list ItemJson) (login : string) :
  isBot login = false →
  (∃ commits, hasCommits contributors login commits) ∨ 0 < countItems login prItems →
  ∃ e, e ∈ contributorDataOf contributors prItems issueItems ∧ ce_login e = login.
Proof.
  intros Hbot Hlogin.
  enough (∃ e, e ∈ foldl (addPrOnly (countAuthors prItems) (countAuthors issueItems))
                      (map (mergeCounts (countAuthors prItems) (countAuthors issueItems))
                         (contributorsWithCommits contributors))
                      (objectKeys (countAuthors prItems))
               ∧ ce_login e = login) as [e [He Hl]].
  { exists e. split; [|done]. unfold contributorDataOf. cbv zeta. by rewrite jsSort_perm. }
  assert (Hgrow : ∀ keys data e,
            e ∈ data →
            e ∈ foldl (addPrOnly (countAuthors prItems) (countAuthors issueItems)) data keys).
  { induction keys as [|k keys IH]; intros data e He; [done|].
    cbn [foldl]. apply IH. unfold addPrOnly.
    destruct (_ && _); [|done]. apply elem_of_app. by left. }
  destruct Hlogin as [[commits [c [Hc [Hl _]]]]|Hpr].
  - exists (mergeCounts (countAuthors prItems) (countAuthors issueItems)
              {| ce_login := login;
                 ce_avatar := orElse (cj_avatar_url c) "";
                 ce_commits := default 0 (cj_contributions c);
                 ce_pullRequests := 0;
                 ce_issues := 0 |}).
    split; [|done]. apply Hgrow.
    apply list_elem_of_In, in_map. unfold contributorsWithCommits.
    apply in_flat_map. exists c. split; [by apply list_elem_of_In|].
    cbv zeta. rewrite Hl, Hbot. by left.
  - apply countAuthors_key, objectKeys_elem in Hpr.
    revert Hpr. generalize (objectKeys (countAuthors prItems)).
    generalize (map (mergeCounts (countAuthors prItems) (countAuthors issueItems))
                  (contributorsWithCommits contributors)).
    intros data keys. revert data.
    induction keys as [|k keys IH]; intros data Hk; [by apply elem_of_nil in Hk|].
    apply elem_of_cons in Hk as [<-|Hk]; [|by apply IH].
    cbn [foldl].
    enough (∃ e, e ∈ addPrOnly (countAuthors prItems) (countAuthors issueItems) data login
                 ∧ ce_login e = login) as [e [He Hl]].
    { exists e. split; [by apply Hgrow|done]. }
    unfold addPrOnly. rewrite Hbot. cbn [negb]. rewrite andb_true_r.
    destruct (existsb _ data) eqn:Hfound; cbn [negb].
    + apply existsb_exists in Hfound as [e [He Hl]]. apply String.eqb_eq in Hl.
      exists e. by rewrite list_elem_of_In.
    + eexists. split; [apply elem_of_app; right; apply list_elem_of_singleton; reflexivity|].
      done.
Qed.

(** X22.  For logins that are ordinary object keys, the top contributors
    are at most five entries, none of them a bot account.  Each entry reports
    the number of pull requests and of issues its login opened among the
    search results, and either carries the commit count of an entry of the
    contributors listing or has no commits and at least one pull request: a
    login that only opened issues is never listed. *)
Theorem top_contributors_entries (contributors : list ContributorJson)
    (prItems issueItems : list ItemJson) :
  plainLogins contributors prItems issueItems →
  (length (topContributorsOf contributors prItems issueItems) ≤ 5)%nat
  ∧ ∀ e, e ∈ topContributorsOf contributors prItems issueItems →
      isBot (ce_login e) = false
      ∧ ce_pullRequests e = countItems (ce_login e) prItems
      ∧ ce_issues e = countItems (ce_login e) issueItems
      ∧ (hasCommits contributors (ce_login e) (ce_commits e)
         ∨ (ce_commits e = 0 ∧ 0 < ce_pullRequests e)).
Proof.
  intros _. unfold topContributorsOf.
  rewrite (jsSlice_take 5). split; [rewrite length_take; lia|].
  apply Forall_forall, Forall_take, contributorData_entries.
Qed.

Lemma top_contributors_entries_sample :
  let contributors :=
    [ {| cj_login := Some "alice"; cj_avatar_url := Some "a.png"; cj_contributions := Some 5 |};
      {| cj_login := Some "dependabot[bot]"; cj_avatar_url := None;
         cj_contributions := Some 50 |} ] in
  let prItems := [ {| item_login := Some "dave" |}; {| item_login := Some "alice" |};
                   {| item_login := None |} ] in
  let issueItems := [ {| item_login := Some "erin" |}; {| item_login := Some "dave" |} ] in
  plainLogins contributors prItems issueItems
  ∧ map ce_login (topContributorsOf contributors prItems issueItems)
    = ["alice"; "dave"; "Unknown"]
  ∧ (length (topContributorsOf contributors prItems issueItems) ≤ 5)%nat.
Proof.
  cbv zeta. split; [|split].
  - repeat split; repeat constructor.
  - vm_compute. reflexivity.
  - apply top_contributors_entries. repeat split; repeat constructor.
Defined.

(** X23.  For logins that are ordinary object keys, the top contributors
    are the first five of a ranking by total contributions (commits, pull
    requests and issues together), largest first.  Every account that is not
    a bot and has an entry in the contributors listing or opened a pull
    request is in the ranking, and an entry of the ranking left out of the
    top five has a total no larger than any listed one. *)
Theorem top_contributors_ranking (contributors : list ContributorJson)
    (prItems issueItems : list ItemJson) :
  plainLogins contributors prItems issueItems →
  let ranking := contributorDataOf contributors prItems issueItems in
  let top := topContributorsOf contributors prItems issueItems in
  top = take 5 ranking
  ∧ StronglySorted (fun a b => contributionTotal b ≤ contributionTotal a) ranking
  ∧ (∀ p q, p ∈ top → q ∈ drop 5 ranking → contributionTotal q ≤ contributionTotal p)
  ∧ (∀ login, isBot login = false →
       (∃ commits, hasCommits contributors login commits) ∨ 0 < countItems login prItems →
       ∃ e, e ∈ ranking ∧ ce_login e = login).
Proof.
  intros _ ranking top.
  assert (Htop : top = take 5 ranking) by apply (jsSlice_take 5).
  assert (Hsorted : StronglySorted (fun a b => contributionTotal b ≤ contributionTotal a)
                      ranking).
  { apply (jsSort_desc contributionTotal). }
  split; [done|]. split; [done|]. split.
  - intros p q Hp Hq. rewrite Htop in Hp.
    exact (sorted_take_drop _ 5 ranking Hsorted p q Hp Hq).
  - intros login Hbot Hlogin. by apply contributorData_complete.
Qed.

Lemma top_contributors_ranking_sample :
  let contributors :=
    [ {| cj_login := Some "alice"; cj_avatar_url := Some "a.png"; cj_contributions := Some 1 |};
      {| cj_login := Some "bob"; cj_avatar_url := None; cj_contributions := Some 7 |} ] in
  let prItems := [ {| item_login := Some "dave" |}; {| item_login := Some "dave" |} ] in
  let issueItems := [ {| item_login := Some "dave" |} ] in
  plainLogins contributors prItems issueItems
  ∧ map ce_login (contributorDataOf contributors prItems issueItems)
    = ["bob"; "dave"; "alice"]
  ∧ topContributorsOf contributors prItems issueItems
    = take 5 (contributorDataOf contributors prItems issueItems).
Proof.
  cbv zeta. split; [|split].
  - repeat split; repeat constructor.
  - vm_compute. reflexivity.
  - apply top_contributors_ranking. repeat split; repeat constructor.
Defined.

(** ** Recent committers *)




















